(** * StreamPulse monitor (version 2.2): scheduler, probes and table naming

    A shallow embedding of [version-2.2/monitor.py] (and of the table naming
    helper it shares with [webgui.py]), with the properties of the probing
    scheduler stated and proved over it; then the database both programs
    share, and the settings page and the login of [webgui.py].

    Conventions of the model:
    - Python [str] values that are only compared, ordered or searched
      (names, URLs, response text, messages) are [string]s;
    - the argument of [tname] is a sequence of Unicode code points
      ([list N]), because its behaviour depends on Python's character
      classes; the classes are fixed on ASCII and left as parameters above it;
    - Python floats (seconds) are exact rationals [Q];
    - [Stream] objects live in a heap and are referred to by address, since
      the dictionary [Scheduler.state], the lanes and the workers share them;
    - what the network, the clock, the file system and, for a completed
      probe, the database answer is an input of each function;
    - the values of the configuration file have the types the settings page
      writes: names and URLs are strings, the heartbeat is an integer;
    - the SQLite database is the content of its tables, a log table being
      found by its name without regard to the case of ASCII letters.

    The file has two parts: the embedding, then its properties. *)

From Stdlib Require Import ZArith QArith Qround Qminmax Lia String Ascii List Bool.
From Stdlib Require Import DecimalString.
From stdpp Require Import gmap strings list sorting.

Local Open Scope Z_scope.
#[local] Set Warnings "-clear-no-such-hyp".

(** * Part I: the embedding *)

(** ** Table names: [tname] (monitor.py) and [table_name] (webgui.py) *)

(** A Python string as its code points. *)
Definition Str := list N.

Definition str (s : string) : Str :=
  map N_of_ascii (list_ascii_of_string s).

Definition underscore : N := 95%N.

Section PyStr.

(** [str.isalpha], [str.isalnum] and [str.isspace] above ASCII come from the
    Unicode database of the interpreter. *)
Variables uni_alpha uni_alnum uni_space : N -> bool.

Definition ascii_alpha (c : N) : bool :=
  ((65 <=? c) && (c <=? 90) || (97 <=? c) && (c <=? 122))%N.

Definition ascii_digit (c : N) : bool :=
  ((48 <=? c) && (c <=? 57))%N.

Definition ascii_space (c : N) : bool :=
  ((9 <=? c) && (c <=? 13) || (28 <=? c) && (c <=? 32))%N.

Definition isalpha (c : N) : bool :=
  if (c <? 128)%N then ascii_alpha c else uni_alpha c.

Definition isalnum (c : N) : bool :=
  if (c <? 128)%N then ascii_alpha c || ascii_digit c else uni_alnum c.

Definition isspace (c : N) : bool :=
  if (c <? 128)%N then ascii_space c else uni_space c.

Fixpoint lstrip (s : Str) : Str :=
  match s with
  | c :: s' => if isspace c then lstrip s' else s
  | [] => []
  end.

(** [name.strip()] *)
Definition strip (s : Str) : Str := rev (lstrip (rev (lstrip s))).

(** [ch if (ch.isalnum() or ch == "_") else "_"] *)
Definition safe_char (ch : N) : N :=
  if isalnum ch || (ch =? underscore)%N then ch else underscore.

(** [not safe or not (safe[0].isalpha() or safe[0] == "_")] *)
Definition needs_prefix (safe : Str) : bool :=
  match safe with
  | [] => true
  | c :: _ => negb (isalpha c || (c =? underscore)%N)
  end.

Definition tname (name : Str) : Str :=
  let safe := map safe_char (strip name) in
  let safe := if needs_prefix safe then str "t_" ++ safe else safe in
  str "log_" ++ safe.

(** [webgui.py] carries its own copy of the function. *)
Definition table_name (name : Str) : Str :=
  let safe := map safe_char (strip name) in
  let safe := if needs_prefix safe then str "t_" ++ safe else safe in
  str "log_" ++ safe.

(** An identifier character: alphanumeric or underscore. *)
Definition ident_char (c : N) : Prop := isalnum c = true \/ c = underscore.

(** One row of a log table: [(status, latency_ms, message)]; the timestamp
    is left out. *)
Definition Row : Type := string * Z * string.

(** The log tables of the database, by table name, newest row first. *)
Definition Tables : Type := gmap Str (list Row).

(** [record]: [INSERT INTO {tname(name)} ...] (monitor.py). The table is
    there: [init_db] has created it for every stream of the configuration. *)
Definition record (db : Tables) (name : Str) (row : Row) : Tables :=
  <[tname name := row :: default [] (db !! tname name)]> db.

(** [latest_row]: [SELECT ... FROM {table_name(name)} ORDER BY id DESC LIMIT 1]
    (webgui.py). *)
Definition latest_row (db : Tables) (name : Str) : option Row :=
  db !! table_name name ≫= head.

End PyStr.

(** ** Awaited operations and their exceptions *)

(** The two classes of exception the probes tell apart, each with its
    [str(e)]. *)
Inductive exn : Type :=
| TimeoutError (msg : string)
| Exception (msg : string).

Definition exn_str (e : exn) : string :=
  match e with TimeoutError m => m | Exception m => m end.

(** What an operation of the environment does: return or raise. *)
Inductive io (A : Type) : Type :=
| Done (a : A)
| Raise (e : exn).
Arguments Done {A} a.
Arguments Raise {A} e.

#[export] Instance io_ret : MRet io := fun A a => Done a.

#[export] Instance io_bind : MBind io := fun A B k m =>
  match m with
  | Done a => k a
  | Raise e => Raise e
  end.

(** A probe's result: [(ok, msg, lat)]. *)
Definition ProbeResult : Type := bool * string * Z.

(** ** [probe_rtsp] *)

(** [pat in s] *)
Fixpoint contains (pat s : string) : bool :=
  String.prefix pat s
  || match s with
     | EmptyString => false
     | String _ s' => contains pat s'
     end.

(** What the peer does during the DESCRIBE exchange: the connection attempt,
    the flush of the request, the read of at most 512 bytes (decoded), and
    the close, whose failure the code ignores. *)
Record RtspPeer : Type := {
  open_connection : io unit;
  drain : io unit;
  read : io string;
  wait_closed : io unit
}.

Definition classify_rtsp (txt : string) (lat : Z) : ProbeResult :=
  if contains "RTSP/1.0 200" txt then (true, "RTSP 200", lat)
  else if contains "RTSP/1.0 401" txt then (true, "RTSP 401 Unauthorized", lat)
  else if contains "RTSP/1.0 403" txt then (true, "RTSP 403 Forbidden", lat)
  else if contains "RTSP/1.0 404" txt then (true, "RTSP 404 Not Found", lat)
  else if contains "RTSP/1.0 454" txt then (true, "RTSP 454 Session Not Found", lat)
  else (false, "RTSP not 200", lat).

(** The awaited part of the [try] block: connect, send, read. *)
Definition rtsp_exchange (peer : RtspPeer) : io string :=
  _ ← open_connection peer;
  _ ← drain peer;
  read peer.

(** [lat] is the elapsed time in milliseconds at the point of return. *)
Definition probe_rtsp (peer : RtspPeer) (lat : Z) : ProbeResult :=
  match rtsp_exchange peer with
  | Done txt => classify_rtsp txt lat
  | Raise (TimeoutError _) => (false, "timeout", lat)
  | Raise (Exception m) => (false, "error:" +:+ m, lat)
  end.

(** The status of a response as the RTSP grammar has it: the three
    characters after "RTSP/1.0 " at the very start of the text. A response
    that does not start so has no status. *)
Definition status_line (txt : string) : option string :=
  if String.prefix "RTSP/1.0 " txt then Some (substring 9 3 txt) else None.

Definition CRLF : string :=
  String (ascii_of_nat 13) (String (ascii_of_nat 10) EmptyString).

(** ** [probe_http] *)

(** The requests a probe sends, in order. *)
Inductive HttpRequest : Type :=
| HEAD
| GET (read_bytes : nat).

(** What the server does: its answer to HEAD (a status code), its answer to
    GET, and the read of the first bytes of the GET body. *)
Record HttpPeer : Type := {
  head_status : io Z;
  get_status : io Z;
  content_read : io unit
}.

Definition str_of_int (z : Z) : string := NilZero.string_of_int (Z.to_int z).

Definition http_result (status : Z) (lat : Z) : ProbeResult :=
  ((200 <=? status) && (status <? 400), "HTTP " +:+ str_of_int status, lat).

(** The fallback request: [session.get] and [r.content.read(64)]. *)
Definition http_get (peer : HttpPeer) : io Z :=
  status ← get_status peer;
  _ ← content_read peer;
  mret status.

(** The requests sent and the result. Whatever HEAD raises is caught and
    answered by the GET. *)
Definition probe_http (peer : HttpPeer) (lat : Z)
  : list HttpRequest * ProbeResult :=
  match head_status peer with
  | Done status => ([HEAD], http_result status lat)
  | Raise _ =>
      ([HEAD; GET 64],
       match http_get peer with
       | Done status => http_result status lat
       | Raise (TimeoutError _) => (false, "timeout", lat)
       | Raise (Exception m) => (false, "error:" +:+ m, lat)
       end)
  end.

(** ** [one_frame] *)

(** [cap.read()] returns its flag, or opening or reading raises. *)
Definition one_frame (capture : io bool) (lat : Z) : ProbeResult :=
  match capture with
  | Done true => (true, "ok", lat)
  | Done false => (false, "no frame", lat)
  | Raise e => (false, "cv2err:" +:+ exn_str e, lat)
  end.

(** ** Configuration *)

(** One element of [cfg["streams"]]: a mapping that may lack either key.
    Names and URLs are strings, as the settings page writes them. A file
    edited by hand so that a URL is another YAML scalar ([url: 8080]) is
    outside this type: [init_db] stores such a value, and the reloader
    raises at [.lower()] in its first loop, after the objects of the
    entries before it have been updated and before [rebuild]; the round
    ends the reloader with the lanes as they were, as the rounds of
    [sync_streams] that raise do. *)
Record Entry : Type := {
  entry_name : option string;
  entry_url : option string
}.

(** The document [yaml.safe_load] returns, before the defaults are set. The
    heartbeat is an integer, as the settings page writes it; a file edited
    by hand so that it is null or no number is outside this type: [int] in
    [workers_and_delay] then raises at the top of every worker's loop. *)
Record RawConfig : Type := {
  raw_heartbeat_seconds : option Z;
  raw_timezone : option string;
  raw_streams : option (list Entry);
  raw_mqtt : option string
}.

Record Config : Type := {
  heartbeat_seconds : Z;
  timezone : string;
  streams : list Entry;
  mqtt : option string
}.

#[export] Instance Entry_eq_dec : EqDecision Entry.
Proof. solve_decision. Defined.

#[export] Instance Config_eq_dec : EqDecision Config.
Proof. solve_decision. Defined.

(** [read_cfg]: whatever opening and parsing the file raises passes through;
    the three [setdefault] calls use 10, "UTC" and the empty list. *)
Definition read_cfg (file : io RawConfig) : io Config :=
  raw ← file;
  mret {| heartbeat_seconds := default 10 (raw_heartbeat_seconds raw);
          timezone := default "UTC"%string (raw_timezone raw);
          streams := default [] (raw_streams raw);
          mqtt := raw_mqtt raw |}.

(** [load_config_with_mqtt_support]: a failure to open or parse the file is
    caught and answered by a default configuration; otherwise the defaults
    use 20, and an "mqtt" key is added when the file has none (the empty
    mapping, rendered here as the empty string). *)
Definition load_config_with_mqtt_support (file : io RawConfig) : Config :=
  match file with
  | Raise _ =>
      {| heartbeat_seconds := 20; timezone := "UTC"; streams := []; mqtt := None |}
  | Done raw =>
      {| heartbeat_seconds := default 20 (raw_heartbeat_seconds raw);
         timezone := default "UTC"%string (raw_timezone raw);
         streams := default [] (raw_streams raw);
         mqtt := Some (default ""%string (raw_mqtt raw)) |}
  end.

(** [init_db] reads [s["name"]] and [s["url"]] of every entry, in order; a
    missing key raises [KeyError]. The database itself stays outside. *)
Fixpoint init_db (entries : list Entry) : io unit :=
  match entries with
  | [] => Done tt
  | e :: rest =>
      match entry_name e, entry_url e with
      | None, _ => Raise (Exception "'name'")
      | Some _, None => Raise (Exception "'url'")
      | Some _, Some _ => init_db rest
      end
  end.

(** ** Streams and the heap *)

Definition lower_ascii (c : ascii) : ascii :=
  let n := nat_of_ascii c in
  if ((65 <=? n) && (n <=? 90))%nat then ascii_of_nat (n + 32) else c.

(** [url.lower()], on the characters that matter for the prefix test. *)
Fixpoint lower (s : string) : string :=
  match s with
  | EmptyString => EmptyString
  | String c s' => String (lower_ascii c) (lower s')
  end.

(** [url.lower().startswith("rtsp://")] *)
Definition rtsp_url (url : string) : bool := String.prefix "rtsp://" (lower url).

Module Stream.

Record t : Type := mk {
  name : string;
  url : string;
  is_rtsp : bool;
  fails : Z;
  backoff_until : Q
}.

(** [Stream.__init__] *)
Definition new (name url : string) : t :=
  {| name := name; url := url; is_rtsp := rtsp_url url;
     fails := 0; backoff_until := 0 |}.

Definition set_url (u : string) (s : t) : t :=
  {| name := name s; url := u; is_rtsp := rtsp_url u;
     fails := fails s; backoff_until := backoff_until s |}.

End Stream.

(** An address of a [Stream] object, and the objects by address. Objects are
    never freed: one that nothing refers to any more just stays. *)
Abbreviation loc := nat.
Abbreviation Heap := (list Stream.t).

Definition alloc (h : Heap) (s : Stream.t) : Heap * loc := (h ++ [s], length h).

(** ** Lanes *)

Module Lane.

Record t : Type := mk {
  kind : string;
  items : list loc;
  i : nat
}.

Definition new (kind : string) : t := {| kind := kind; items := []; i := 0 |}.

(** [set]: [self.items, self.i = items, 0] *)
Definition set (l : t) (its : list loc) : t :=
  {| kind := kind l; items := its; i := 0 |}.

(** [k] rounds of the loop of [next_rr] from cursor [i]: the result and the
    cursor left behind. Indexing [items] out of range raises [IndexError]; an
    address with no object, which no Python state has, is reported alike. *)
Fixpoint scan (h : Heap) (now : Q) (items : list loc) (i k : nat)
  : io (option loc) * nat :=
  match k with
  | O => (Done None, i)
  | S k' =>
      match items !! i with
      | None => (Raise (Exception "list index out of range"), i)
      | Some s =>
          let i' := ((i + 1) mod length items)%nat in
          match h !! s with
          | None => (Raise (Exception "dangling reference"), i')
          | Some st =>
              if Qle_bool (Stream.backoff_until st) now
              then (Done (Some s), i')
              else scan h now items i' k'
          end
      end
  end.

(** [next_rr], run under the lane's lock at time [now]. *)
Definition next_rr (h : Heap) (now : Q) (l : t) : io (option loc) * t :=
  match items l with
  | [] => (Done None, l)
  | _ :: _ =>
      let r := scan h now (items l) (i l) (length (items l)) in
      (r.1, {| kind := kind l; items := items l; i := r.2 |})
  end.

End Lane.

(** ** The scheduler *)

Module Scheduler.

Record t : Type := mk {
  cfg : Config;
  state : gmap string loc;
  rtsp : Lane.t;
  http : Lane.t
}.

End Scheduler.

(** The objects [self.state.values()] yields, each with its address. *)
Definition state_values (h : Heap) (st : gmap string loc) : list (loc * Stream.t) :=
  omap (fun l => pair l <$> h !! l) (map_to_list st).*2.

(** The order [sorted(..., key=lambda x: x.name)] sorts by. *)
Definition name_le (a b : loc * Stream.t) : Prop :=
  String.leb (Stream.name a.2) (Stream.name b.2) = true.

#[export] Instance name_le_dec a b : Decision (name_le a b).
Proof. unfold name_le. apply _. Defined.

Definition sorted_by_name (l : list (loc * Stream.t)) : list loc :=
  (merge_sort name_le l).*1.

(** [Scheduler.rebuild] *)
Definition rebuild (h : Heap) (s : Scheduler.t) : Scheduler.t :=
  let vs := state_values h (Scheduler.state s) in
  let rtsp_items := filter (fun v => Stream.is_rtsp v.2 = true) vs in
  let http_items := filter (fun v => Stream.is_rtsp v.2 = false) vs in
  {| Scheduler.cfg := Scheduler.cfg s;
     Scheduler.state := Scheduler.state s;
     Scheduler.rtsp := Lane.set (Scheduler.rtsp s) (sorted_by_name rtsp_items);
     Scheduler.http := Lane.set (Scheduler.http s) (sorted_by_name http_items) |}.

(** The dictionary comprehension of [Scheduler.__init__]: one new object per
    entry, a later entry of the same name replacing the earlier one. *)
Fixpoint initial_state (entries : list Entry) (h : Heap) (st : gmap string loc)
  : io (Heap * gmap string loc) :=
  match entries with
  | [] => Done (h, st)
  | e :: rest =>
      match entry_name e, entry_url e with
      | Some n, Some u =>
          let (h', l) := alloc h (Stream.new n u) in
          initial_state rest h' (<[n := l]> st)
      | None, _ => Raise (Exception "'name'")
      | Some _, None => Raise (Exception "'url'")
      end
  end.

(** [Scheduler.__init__], on an empty heap. *)
Definition Scheduler_init (file : io RawConfig) : io (Heap * Scheduler.t) :=
  let cfg := load_config_with_mqtt_support file in
  _ ← init_db (streams cfg);
  hs ← initial_state (streams cfg) [] ∅;
  mret (hs.1,
        rebuild hs.1
          {| Scheduler.cfg := cfg; Scheduler.state := hs.2;
             Scheduler.rtsp := Lane.new "rtsp"; Scheduler.http := Lane.new "mjpeg" |}).

(** The first loop of the reload: known names have their object updated in
    place, new names get a new object. The state reached is returned also
    when an entry raises. *)
Fixpoint sync_streams (entries : list Entry) (h : Heap) (st : gmap string loc)
    (new_names : gset string) : option exn * (Heap * gmap string loc * gset string) :=
  match entries with
  | [] => (None, (h, st, new_names))
  | e :: rest =>
      match entry_name e with
      | None => (Some (Exception "'name'"), (h, st, new_names))
      | Some n =>
          let new_names := {[n]} ∪ new_names in
          match st !! n, entry_url e with
          | _, None => (Some (Exception "'url'"), (h, st, new_names))
          | Some l, Some u =>
              sync_streams rest (alter (Stream.set_url u) l h) st new_names
          | None, Some u =>
              let (h', l) := alloc h (Stream.new n u) in
              sync_streams rest h' (<[n := l]> st) new_names
          end
      end
  end.

(** The second loop: [self.state.pop(n)] for every name not in [new_names]. *)
Definition remove_missing (st : gmap string loc) (new_names : gset string)
  : gmap string loc :=
  filter (fun kv => kv.1 ∈ new_names) st.

(** One round of [Scheduler.reloader] after its sleep: the exception that
    ends the task, if any, and the heap and scheduler left behind. *)
Definition reloader (file : io RawConfig) (h : Heap) (s : Scheduler.t)
  : option exn * (Heap * Scheduler.t) :=
  match read_cfg file with
  | Raise e => (Some e, (h, s))
  | Done new =>
      if decide (new = Scheduler.cfg s) then (None, (h, s))
      else
        let s := {| Scheduler.cfg := new; Scheduler.state := Scheduler.state s;
                    Scheduler.rtsp := Scheduler.rtsp s;
                    Scheduler.http := Scheduler.http s |} in
        match init_db (streams new) with
        | Raise e => (Some e, (h, s))
        | Done _ =>
            let r := sync_streams (streams new) h (Scheduler.state s) ∅ in
            let '(h', st, new_names) := r.2 in
            let s' := {| Scheduler.cfg := new; Scheduler.state := st;
                         Scheduler.rtsp := Scheduler.rtsp s;
                         Scheduler.http := Scheduler.http s |} in
            match r.1 with
            | Some e => (Some e, (h', s'))
            | None =>
                let s'' := {| Scheduler.cfg := new;
                              Scheduler.state := remove_missing st new_names;
                              Scheduler.rtsp := Scheduler.rtsp s;
                              Scheduler.http := Scheduler.http s |} in
                (None, (h', rebuild h' s''))
            end
        end
  end.

(** ** Sizing, the worker loop and the running system *)

(** [clamp(x, lo, hi)], as the specification writes it. *)
Definition clamp (x lo hi : Z) : Z := Z.max lo (Z.min x hi).

Definition Qlt_bool (x y : Q) : bool := negb (Qle_bool y x).

(** What the outside world answers during one probe cycle: the peers of the
    two light probes, the frame capture, the latencies measured, and what
    the database answers to the INSERT of [record]. [record] has no handler
    and the worker calls it outside any [try]: when the table is gone
    (purged from the settings page), or the database is locked for too long,
    the [sqlite3] exception leaves [record]. *)
Record Net : Type := {
  rtsp_peer : RtspPeer;
  http_peer : HttpPeer;
  capture : io bool;
  lat : Z;
  frame_lat : Z;
  recorded : io unit
}.

(** The probes a worker has invoked, logged when its cycle completes. *)
Inductive Call : Type :=
| CallRtsp (url : string)
| CallHttp (url : string) (requests : list HttpRequest)
| CallFrame (url : string).

(** A [record(...)] call: the stream's name and the row written. *)
Definition Record_call : Type := string * Row.

(** Where a worker task stands between two of its suspension points: at the
    top of its loop, or awaiting the light probe it started on an object
    (with the family and URL it read when it started), or ended by an
    exception. *)
Inductive WorkerState : Type :=
| Waiting
| Probing (s : loc) (rtsp : bool) (url : string)
| Dead (e : exn).

(** The running system: the objects, the scheduler, where each worker task
    stands (by lane, [true] for the RTSP lane, and worker index), the rows
    recorded so far, the probes invoked so far, [time.monotonic()], and the
    exception that ended the reloader task, if it has ended. *)
Record Sys : Type := mkSys {
  heap : Heap;
  sched : Scheduler.t;
  workers : gmap (bool * nat) WorkerState;
  sink : list Record_call;
  calls : list Call;
  clock : Q;
  reloader_task : option exn
}.

(** What happens next: time passes; a worker of a lane runs from the top of
    its loop to its next suspension point; an awaited probe completes and the
    worker runs on to its sleep; the reloader wakes up and reads the file. *)
Inductive Event : Type :=
| Advance (dt : Q)
| Begin (rtsp_lane : bool) (wid : nat)
| Finish (rtsp_lane : bool) (wid : nat) (net : Net)
| Reload (file : io RawConfig).

Definition lane_of (s : Scheduler.t) (rtsp_lane : bool) : Lane.t :=
  if rtsp_lane then Scheduler.rtsp s else Scheduler.http s.

Definition with_lane (s : Scheduler.t) (rtsp_lane : bool) (l : Lane.t) : Scheduler.t :=
  {| Scheduler.cfg := Scheduler.cfg s;
     Scheduler.state := Scheduler.state s;
     Scheduler.rtsp := if rtsp_lane then l else Scheduler.rtsp s;
     Scheduler.http := if rtsp_lane then Scheduler.http s else l |}.

Definition worker_state (sys : Sys) (w : bool * nat) : WorkerState :=
  default Waiting (workers sys !! w).

Definition with_worker (sys : Sys) (w : bool * nat) (ws : WorkerState) : Sys :=
  {| heap := heap sys; sched := sched sys;
     workers := <[w := ws]> (workers sys);
     sink := sink sys; calls := calls sys; clock := clock sys;
     reloader_task := reloader_task sys |}.

Definition with_sched (sys : Sys) (s : Scheduler.t) : Sys :=
  {| heap := heap sys; sched := s; workers := workers sys;
     sink := sink sys; calls := calls sys; clock := clock sys;
     reloader_task := reloader_task sys |}.

Section Monitor.

(** The two tunables read from the environment at start-up (defaults 32 and
    5.0). *)
Variable MAX_WORKERS_PER_TYPE : Z.
Variable BACKOFF_BASE : Q.

(** [Scheduler.workers_and_delay] *)
Definition workers_and_delay (s : Scheduler.t) (lane : Lane.t) : Z * Q :=
  let n := Z.of_nat (length (Lane.items lane)) in
  let H := Z.max 5 (heartbeat_seconds (Scheduler.cfg s)) in
  if n =? 0 then (0, 1%Q)
  else
    let target := (inject_Z n / inject_Z H)%Q in
    let W := Z.max 1 (Z.min (Qceiling target) MAX_WORKERS_PER_TYPE) in
    let delay := Qmax (5 # 100) (inject_Z W / target) in
    (W, delay).

(** The protocol-matched probe of the worker loop. *)
Definition light_probe (net : Net) (rtsp : bool) (url : string)
  : ProbeResult * Call :=
  if rtsp then (probe_rtsp (rtsp_peer net) (lat net), CallRtsp url)
  else
    let r := probe_http (http_peer net) (lat net) in
    (r.2, CallHttp url r.1).

(** [if not ok and s.fails >= 3: ... if ok2: ok, msg, lat = ok2, msg2, lat2] *)
Definition with_fallback (net : Net) (st : Stream.t) (r : ProbeResult)
  : ProbeResult * list Call :=
  if negb r.1.1 && (3 <=? Stream.fails st) then
    let r2 := one_frame (capture net) (frame_lat net) in
    (if r2.1.1 then r2 else r, [CallFrame (Stream.url st)])
  else (r, []).

(** The two branches that end an iteration: the new fields of the object and
    the row recorded. [now] is [time.monotonic()] at that point. *)
Definition apply_outcome (now : Q) (st : Stream.t) (r : ProbeResult)
  : Stream.t * Record_call :=
  let '(ok, msg, lat) := r in
  if ok then
    ({| Stream.name := Stream.name st; Stream.url := Stream.url st;
        Stream.is_rtsp := Stream.is_rtsp st;
        Stream.fails := 0; Stream.backoff_until := 0 |},
     (Stream.name st, ("ok"%string, lat, msg)))
  else
    let fails := Stream.fails st + 1 in
    let back := (BACKOFF_BASE * inject_Z (2 ^ Z.min 5 fails))%Q in
    ({| Stream.name := Stream.name st; Stream.url := Stream.url st;
        Stream.is_rtsp := Stream.is_rtsp st;
        Stream.fails := fails;
        Stream.backoff_until := (now + Qmin 90 back)%Q |},
     (Stream.name st, ("fail"%string, lat, msg))).

(** One probe cycle on the object at [s]: the light probe (whose family and
    URL were read before it was awaited), the fallback, the update of the
    object and the row recorded. *)
Definition probe_cycle (net : Net) (now : Q) (rtsp : bool) (url : string)
    (s : loc) (h : Heap) : option (Heap * Record_call * list Call) :=
  st ← h !! s;
  let p := light_probe net rtsp url in
  let f := with_fallback net st p.1 in
  let a := apply_outcome now st f.1 in
  Some (<[s := a.1]> h, a.2, p.2 :: f.2).

(** A worker runs from the top of its loop: it stays waiting (scaled down,
    lane empty, nothing eligible, or still backed off) or starts a probe. *)
Definition worker_loop_begin (sys : Sys) (rtsp_lane : bool) (wid : nat) : option Sys :=
  if negb (Z.of_nat wid <? MAX_WORKERS_PER_TYPE) then None
  else
    match worker_state sys (rtsp_lane, wid) with
    | Waiting =>
        let lane := lane_of (sched sys) rtsp_lane in
        let W := (workers_and_delay (sched sys) lane).1 in
        if (W <=? Z.of_nat wid) || bool_decide (Lane.items lane = []) then Some sys
        else
          let r := Lane.next_rr (heap sys) (clock sys) lane in
          let sys := with_sched sys (with_lane (sched sys) rtsp_lane r.2) in
          match r.1 with
          | Raise e => Some (with_worker sys (rtsp_lane, wid) (Dead e))
          | Done None => Some sys
          | Done (Some s) =>
              match heap sys !! s with
              | None =>
                  Some (with_worker sys (rtsp_lane, wid)
                          (Dead (Exception "dangling reference")))
              | Some st =>
                  if Qlt_bool (clock sys) (Stream.backoff_until st) then Some sys
                  else
                    Some (with_worker sys (rtsp_lane, wid)
                            (Probing s (Stream.is_rtsp st) (Stream.url st)))
              end
          end
    | _ => None
    end.

(** The awaited probe of a worker completes: the worker runs the fallback,
    writes the fields of the object and then calls [record]. When [record]
    returns, the row is written and the worker goes to sleep; when it
    raises, the fields are written, no row is, and the exception ends the
    worker task. (The exception then reaches [run_monitor] through
    [asyncio.gather] and ends the monitor; the steps the other tasks still
    take are steps of this system.) *)
Definition worker_loop_finish (sys : Sys) (rtsp_lane : bool) (wid : nat) (net : Net)
  : option Sys :=
  match worker_state sys (rtsp_lane, wid) with
  | Probing s rtsp url =>
      r ← probe_cycle net (clock sys) rtsp url s (heap sys);
      Some {| heap := r.1.1; sched := sched sys;
              workers := <[(rtsp_lane, wid) :=
                             match recorded net with
                             | Done _ => Waiting
                             | Raise e => Dead e
                             end]> (workers sys);
              sink := match recorded net with
                      | Done _ => sink sys ++ [r.1.2]
                      | Raise _ => sink sys
                      end;
              calls := calls sys ++ r.2;
              clock := clock sys;
              reloader_task := reloader_task sys |}
  | _ => None
  end.

Definition step (sys : Sys) (ev : Event) : option Sys :=
  match ev with
  | Advance dt =>
      if Qle_bool 0 dt then
        Some {| heap := heap sys; sched := sched sys; workers := workers sys;
                sink := sink sys; calls := calls sys;
                clock := Qred (clock sys + dt);
                reloader_task := reloader_task sys |}
      else None
  | Begin rtsp_lane wid => worker_loop_begin sys rtsp_lane wid
  | Finish rtsp_lane wid net => worker_loop_finish sys rtsp_lane wid net
  | Reload file =>
      match reloader_task sys with
      | Some _ => None
      | None =>
          let r := reloader file (heap sys) (sched sys) in
          Some {| heap := r.2.1; sched := r.2.2; workers := workers sys;
                  sink := sink sys; calls := calls sys; clock := clock sys;
                  reloader_task := r.1 |}
      end
  end.

Fixpoint run (sys : Sys) (evs : list Event) : option Sys :=
  match evs with
  | [] => Some sys
  | ev :: evs' => sys' ← step sys ev; run sys' evs'
  end.

(** [run_monitor], up to the point where every task has been created. *)
Definition run_monitor (file : io RawConfig) : io Sys :=
  hs ← Scheduler_init file;
  mret {| heap := hs.1; sched := hs.2; workers := ∅; sink := []; calls := [];
          clock := 0; reloader_task := None |}.

End Monitor.

(** ** Concrete configurations used by the examples *)

Definition sample_entry (n u : string) : Entry :=
  {| entry_name := Some n; entry_url := Some u |}.

Definition sample_cfg (hb : Z) (entries : list Entry) : Config :=
  {| heartbeat_seconds := hb; timezone := "UTC"; streams := entries;
     mqtt := None |}.

(** A scheduler whose configuration has the heartbeat [hb], and a lane of
    [n] endpoints. *)
Definition sample_sched (hb : Z) : Scheduler.t :=
  {| Scheduler.cfg := sample_cfg hb []; Scheduler.state := ∅;
     Scheduler.rtsp := Lane.new "rtsp"; Scheduler.http := Lane.new "mjpeg" |}.

Definition sample_lane (n : nat) : Lane.t :=
  {| Lane.kind := "rtsp"; Lane.items := seq 0 n; Lane.i := 0 |}.

(** A peer that accepts the connection and answers [txt]. *)
Definition sample_rtsp_peer (txt : string) : RtspPeer :=
  {| open_connection := Done tt; drain := Done tt; read := Done txt;
     wait_closed := Done tt |}.

(** A peer that never answers the connection attempt. *)
Definition silent_rtsp_peer : RtspPeer :=
  {| open_connection := Raise (TimeoutError ""); drain := Done tt;
     read := Done ""%string; wait_closed := Done tt |}.

(** A 401 response. *)
Definition response_401 : string :=
  "RTSP/1.0 401 Unauthorized" +:+ CRLF +:+ "CSeq: 1" +:+ CRLF +:+ CRLF.

(** A 404 response and a 500 response relayed by a proxy whose address
    starts with 200: the Via header names the protocol and the proxy. *)
Definition response_404_via : string :=
  "RTSP/1.0 404 Not Found" +:+ CRLF +:+ "CSeq: 1" +:+ CRLF
  +:+ "Via: RTSP/1.0 200.10.5.1" +:+ CRLF +:+ CRLF.

Definition response_500_via : string :=
  "RTSP/1.0 500 Internal Server Error" +:+ CRLF +:+ "CSeq: 1" +:+ CRLF
  +:+ "Via: RTSP/1.0 200.10.5.1" +:+ CRLF +:+ CRLF.

(** HTTP servers: one that answers HEAD with [status]; one that refuses HEAD
    by closing the connection and answers GET with [status]; one that never
    answers. *)
Definition head_http_peer (status : Z) : HttpPeer :=
  {| head_status := Done status; get_status := Done status;
     content_read := Done tt |}.

Definition get_only_http_peer (status : Z) : HttpPeer :=
  {| head_status := Raise (Exception "Server disconnected");
     get_status := Done status; content_read := Done tt |}.

(** A server that does not support HEAD and says so (405 Method Not
    Allowed), and answers GET with 200. *)
Definition head_unsupported_peer : HttpPeer :=
  {| head_status := Done 405; get_status := Done 200; content_read := Done tt |}.

(** A server whose answer to HEAD does not come in time, and which answers
    GET with 200. *)
Definition slow_head_peer : HttpPeer :=
  {| head_status := Raise (TimeoutError ""); get_status := Done 200;
     content_read := Done tt |}.

Definition silent_http_peer : HttpPeer :=
  {| head_status := Raise (TimeoutError ""); get_status := Raise (TimeoutError "");
     content_read := Done tt |}.

(** What the outside world answers in the examples: a dead endpoint (both
    light probes are refused, no frame is read), and a dead endpoint whose
    media stream nevertheless delivers a frame. *)
Definition refused : exn := Exception "Connection refused".

Definition dead_net : Net :=
  {| rtsp_peer := {| open_connection := Raise refused; drain := Done tt;
                     read := Done ""%string; wait_closed := Done tt |};
     http_peer := {| head_status := Raise refused; get_status := Raise refused;
                     content_read := Done tt |};
     capture := Done false; lat := 3; frame_lat := 40; recorded := Done tt |}.

Definition frame_only_net : Net :=
  {| rtsp_peer := rtsp_peer dead_net; http_peer := http_peer dead_net;
     capture := Done true; lat := 3; frame_lat := 40; recorded := Done tt |}.

(** An endpoint that answers its light probe. *)
Definition live_net : Net :=
  {| rtsp_peer := sample_rtsp_peer ("RTSP/1.0 200 OK" +:+ CRLF +:+ CRLF);
     http_peer := head_http_peer 200;
     capture := Done true; lat := 9; frame_lat := 40; recorded := Done tt |}.

(** A dead endpoint whose log table has been dropped: the INSERT of
    [record] raises. *)
Definition purged_net : Net :=
  {| rtsp_peer := rtsp_peer dead_net; http_peer := http_peer dead_net;
     capture := Done false; lat := 3; frame_lat := 40;
     recorded := Raise (Exception "no such table: log_a") |}.

(** A stream that has failed [k] times in a row. *)
Definition sample_stream (k : Z) (until : Q) : Stream.t :=
  {| Stream.name := "cam1"; Stream.url := "rtsp://10.0.0.7/live";
     Stream.is_rtsp := true; Stream.fails := k; Stream.backoff_until := until |}.

(** ** Notions the round-robin properties are stated with *)

(** [now >= s.backoff_until], for the object at [s]. *)
Definition eligible (h : Heap) (now : Q) (s : loc) : bool :=
  match h !! s with
  | Some st => Qle_bool (Stream.backoff_until st) now
  | None => false
  end.

(** The lane as a traversal meets it: from the cursor onward, then from the
    start up to the cursor. *)
Definition from_cursor (l : Lane.t) : list loc :=
  rotate (Lane.i l) (Lane.items l).

(** A lane as the scheduler keeps it: the cursor is inside the lane unless
    the lane is empty, and every item is an object. *)
Definition Lane_wf (h : Heap) (l : Lane.t) : Prop :=
  (Lane.items l = [] \/ (Lane.i l < length (Lane.items l))%nat)
  /\ Forall (fun s => is_Some (h !! s)) (Lane.items l).

(** [k] calls of [next_rr] in a row, with nothing else happening between
    them: the results in order, and the lane left behind. *)
Fixpoint next_rr_n (h : Heap) (now : Q) (l : Lane.t) (k : nat)
  : list (io (option loc)) * Lane.t :=
  match k with
  | O => ([], l)
  | S k' =>
      let r := Lane.next_rr h now l in
      let rs := next_rr_n h now r.2 k' in
      (r.1 :: rs.1, rs.2)
  end.

(** Four objects, the second one backed off until time 50, and a lane over
    them whose cursor stands on the third. *)
Definition sample_heap : Heap :=
  [Stream.new "a" "rtsp://h/a";
   {| Stream.name := "b"; Stream.url := "rtsp://h/b"; Stream.is_rtsp := true;
      Stream.fails := 2; Stream.backoff_until := 50 |};
   Stream.new "c" "rtsp://h/c";
   Stream.new "d" "rtsp://h/d"].

Definition sample_lane_at_2 : Lane.t :=
  {| Lane.kind := "rtsp"; Lane.items := [0; 1; 2; 3]%nat; Lane.i := 2 |}.

(** At most one probe in flight per endpoint: no two workers await a probe
    of the same object. *)
Definition exclusive (sys : Sys) : Prop :=
  forall w1 w2 s r1 u1 r2 u2,
    worker_state sys w1 = Probing s r1 u1 ->
    worker_state sys w2 = Probing s r2 u2 ->
    w1 = w2.

(** A configuration file with six cameras and a heartbeat of 5 seconds. *)
Definition six_cameras : io RawConfig :=
  Done {| raw_heartbeat_seconds := Some 5; raw_timezone := None;
          raw_streams :=
            Some [sample_entry "a" "rtsp://10.0.0.1/live";
                  sample_entry "b" "rtsp://10.0.0.2/live";
                  sample_entry "c" "rtsp://10.0.0.3/live";
                  sample_entry "d" "rtsp://10.0.0.4/live";
                  sample_entry "e" "rtsp://10.0.0.5/live";
                  sample_entry "f" "rtsp://10.0.0.6/live"];
          raw_mqtt := None |}.

(** Camera "a" answers, the five others refuse the connection. Two workers
    run (six endpoints in five seconds); each probes, sleeps 5/3 seconds and
    probes again. After three rounds "b" to "f" are backed off, and both
    workers start on "a". *)
Definition two_workers_one_camera : list Event :=
  [Begin true 0; Begin true 1; Advance (1 # 100);
   Finish true 1 dead_net; Finish true 0 live_net; Advance (5 # 3);
   Begin true 1; Begin true 0; Advance (1 # 100);
   Finish true 1 dead_net; Finish true 0 dead_net; Advance (5 # 3);
   Begin true 1; Begin true 0; Advance (1 # 100);
   Finish true 1 dead_net; Finish true 0 dead_net; Advance (5 # 3);
   Begin true 1; Begin true 0].

(** A system of six cameras of which only the first is eligible, with every
    worker at the top of its loop. *)
Definition one_eligible_sys : Sys :=
  {| heap := Stream.new "a" "rtsp://10.0.0.1/live"
             :: map (fun n => {| Stream.name := n; Stream.url := "rtsp://10.0.0.9/" +:+ n;
                                 Stream.is_rtsp := true; Stream.fails := 1;
                                 Stream.backoff_until := 10 |})
                  ["b"; "c"; "d"; "e"; "f"]%string;
     sched := {| Scheduler.cfg := sample_cfg 5 []; Scheduler.state := ∅;
                 Scheduler.rtsp := {| Lane.kind := "rtsp";
                                      Lane.items := [0; 1; 2; 3; 4; 5]%nat;
                                      Lane.i := 0 |};
                 Scheduler.http := Lane.new "mjpeg" |};
     workers := ∅; sink := []; calls := []; clock := 5; reloader_task := None |}.

(** Six cameras that all refuse the connection, probed by two workers that
    sleep 5/3 seconds after each probe. In the first round camera "a" is
    refused at once and "b" two seconds later, so that "a" is eligible again
    (at 10.01) before the others (from 12.01 on). The round ends at 10.37. *)
Definition refused_first_round : list Event :=
  [Begin true 0; Begin true 1; Advance (1 # 100); Finish true 0 dead_net;
   Advance 2; Finish true 1 dead_net; Begin true 0; Advance (1 # 100);
   Finish true 0 dead_net; Advance (5 # 3);
   Begin true 0; Begin true 1; Advance (1 # 100);
   Finish true 0 dead_net; Finish true 1 dead_net; Advance (5 # 3);
   Begin true 0; Advance (1 # 100); Finish true 0 dead_net; Advance 5].

(** A later round: the five cameras "b" to "f" fail once more. *)
Definition refused_round : list Event :=
  [Begin true 0; Begin true 1; Advance (1 # 100);
   Finish true 0 dead_net; Finish true 1 dead_net; Advance (5 # 3);
   Begin true 0; Begin true 1; Advance (1 # 100);
   Finish true 0 dead_net; Finish true 1 dead_net; Advance (5 # 3);
   Begin true 0; Advance (1 # 100); Finish true 0 dead_net].

(** Up to time 31.41: "a" has failed twice, one worker at a time, and is
    the only camera eligible (since 30.38; the others from 32.06 on). *)
Definition streak_two_prefix : list Event :=
  refused_first_round
  ++ [Begin true 0; Advance (1 # 100); Finish true 0 dead_net; Advance (5 # 3)]
  ++ refused_round ++ [Advance 16].

(** Up to time 50.78: "a" has failed three times (the second and the third
    time with both workers on it) and is the only camera eligible (since
    50.38; the others have failed three times and are backed off beyond
    76). *)
Definition streak_three_prefix : list Event :=
  refused_first_round
  ++ [Begin true 0; Begin true 1; Advance (1 # 100);
      Finish true 1 dead_net; Finish true 0 dead_net; Advance (5 # 3)]
  ++ refused_round ++ [Advance 21] ++ refused_round ++ [Advance 11].

(** ** Notions the reload properties are stated with *)

(** The names a list of entries mentions. *)
Definition entry_names (entries : list Entry) : list string :=
  omap entry_name entries.

(** [Scheduler.state] as the scheduler keeps it: every name refers to an
    object, and that object carries the name. *)
Definition State_wf (h : Heap) (st : gmap string loc) : Prop :=
  forall n l, st !! n = Some l ->
    exists s, h !! l = Some s /\ Stream.name s = n.

(** The BackoffState of an object, with the name it belongs to. *)
Definition backoff_state (s : Stream.t) : string * Z * Q :=
  (Stream.name s, Stream.fails s, Stream.backoff_until s).

(** Every object of [h] is an object of [h'], at the same address and with
    the same BackoffState. *)
Definition keeps (h h' : Heap) : Prop :=
  (length h <= length h')%nat
  /\ forall l s, h !! l = Some s ->
       exists s', h' !! l = Some s' /\ backoff_state s' = backoff_state s.

(** The family of an object is the one of its URL. *)
Definition family_of_url (s : Stream.t) : Prop :=
  Stream.is_rtsp s = rtsp_url (Stream.url s).

(** One camera, first behind an RTSP URL, then behind an HTTP URL. *)
Definition one_camera (url : string) : io RawConfig :=
  Done {| raw_heartbeat_seconds := Some 10; raw_timezone := Some "UTC"%string;
          raw_streams := Some [sample_entry "cam1" url];
          raw_mqtt := Some ""%string |}.

(** A scheduler that knows "cam1" as an RTSP camera, and a heap in which
    that camera has failed once and is backed off until time 10. *)
Definition cam1_sched : Scheduler.t :=
  {| Scheduler.cfg :=
       {| heartbeat_seconds := 10; timezone := "UTC";
          streams := [sample_entry "cam1" "rtsp://10.0.0.7/live"];
          mqtt := Some ""%string |};
     Scheduler.state := {["cam1"%string := 0%nat]};
     Scheduler.rtsp := {| Lane.kind := "rtsp"; Lane.items := [0%nat]; Lane.i := 0 |};
     Scheduler.http := Lane.new "mjpeg" |}.

Definition cam1_heap : Heap := [sample_stream 1 10].

(** A file that cannot be parsed, and a file whose second stream lacks its
    URL. *)
Definition broken_yaml : io RawConfig :=
  Raise (Exception "while parsing a flow sequence: expected ',' or ']'").

Definition missing_url : io RawConfig :=
  Done {| raw_heartbeat_seconds := Some 30; raw_timezone := Some "UTC"%string;
          raw_streams := Some [sample_entry "cam1" "rtsp://10.0.0.7/live";
                               {| entry_name := Some "cam2"%string;
                                  entry_url := None |}];
          raw_mqtt := Some ""%string |}.

(** ** The states the running system is in *)

(** The state dictionary and both lanes are as the scheduler keeps them, no
    lane holds an object twice, and every probe in flight is a probe of an
    object. *)
Definition Sys_wf (sys : Sys) : Prop :=
  State_wf (heap sys) (Scheduler.state (sched sys))
  /\ (forall b, Lane_wf (heap sys) (lane_of (sched sys) b))
  /\ (forall b, NoDup (Lane.items (lane_of (sched sys) b)))
  /\ (forall w s r u, worker_state sys w = Probing s r u ->
        is_Some (heap sys !! s)).

(** Calls of [next_rr] in a row while the objects and the clock change
    between them: each call comes with the heap and the time it runs at.
    Beside the results and the lane left behind, the number of items the
    calls have looked at. *)
Fixpoint next_rr_seq (envs : list (Heap * Q)) (l : Lane.t)
  : list (io (option loc)) * nat * Lane.t :=
  match envs with
  | [] => ([], O, l)
  | (h, now) :: envs' =>
      let r := Lane.next_rr h now l in
      let looked :=
        match list_find (fun s => eligible h now s = true) (from_cursor l) with
        | Some (d, _) => S d
        | None => length (Lane.items l)
        end in
      let rs := next_rr_seq envs' r.2 in
      (r.1 :: rs.1.1, (looked + rs.1.2)%nat, rs.2)
  end.

(** The endpoints a list of results hands out. *)
Definition handed_out (rs : list (io (option loc))) : list loc :=
  omap (fun r => match r with Done (Some s) => Some s | _ => None end) rs.

(** ** Notions the worker-loop properties are stated with *)

(** The workers whose probe cycle on the object at [l] completes during a
    run, in the order of the completions. *)
Fixpoint completions (MAX : Z) (BASE : Q) (l : loc) (sys : Sys) (evs : list Event)
  : list (bool * nat) :=
  match evs with
  | [] => []
  | ev :: evs' =>
      match step MAX BASE sys ev with
      | None => []
      | Some sys' =>
          match ev with
          | Finish rl wid _ =>
              match worker_state sys (rl, wid) with
              | Probing s _ _ => if decide (s = l) then [(rl, wid)] else []
              | _ => []
              end
          | _ => []
          end ++ completions MAX BASE l sys' evs'
      end
  end.

(** The status column of a recorded row. *)
Definition row_status (rc : Record_call) : string := rc.2.1.1.

(** An object that neither the state dictionary nor a lane refers to any
    more. *)
Definition retired (sys : Sys) (l : loc) : Prop :=
  (l < length (heap sys))%nat
  /\ (forall n, Scheduler.state (sched sys) !! n <> Some l)
  /\ forall b, l ∉ Lane.items (lane_of (sched sys) b).

(** ** Notions the lane invariant is stated with *)

(** The order of [sorted(..., key=lambda x: x.name)] on the names. *)
Definition str_le (a b : string) : Prop := String.leb a b = true.

(** The names of a lane's endpoints, in the order of the lane. *)
Definition lane_names (h : Heap) (l : Lane.t) : list string :=
  omap (fun s => Stream.name <$> h !! s) (Lane.items l).

(** The lanes hold the objects of the state dictionary, each in the lane of
    its family, and in the order of their names. *)
Definition Lanes_ok (sys : Sys) : Prop :=
  (forall l b,
     l ∈ Lane.items (lane_of (sched sys) b)
     <-> exists n st, Scheduler.state (sched sys) !! n = Some l
                      /\ heap sys !! l = Some st /\ Stream.is_rtsp st = b)
  /\ forall b, Sorted str_le (lane_names (heap sys) (lane_of (sched sys) b)).

(** A configuration file that sets neither the heartbeat nor an MQTT block. *)
Definition bare_config : RawConfig :=
  {| raw_heartbeat_seconds := None; raw_timezone := None;
     raw_streams := Some [sample_entry "a" "rtsp://10.0.0.1/live";
                          sample_entry "b" "http://10.0.0.2/video"];
     raw_mqtt := None |}.

(** ** The database: [init_db], [record] and [api_status] of monitor.py, the
    readers and the purge of webgui.py *)

(** The URL of the last entry that carries the name [n]. *)
Fixpoint last_url (entries : list Entry) (n : string) : option string :=
  match entries with
  | [] => None
  | e :: rest =>
      match last_url rest n with
      | Some u => Some u
      | None => if decide (entry_name e = Some n) then entry_url e else None
      end
  end.

(** The string of a sequence of code points below 256. *)
Definition unstr (s : Str) : string :=
  string_of_list_ascii (map ascii_of_N s).

Module Db.

(** The database file: the [streams] table (name to URL), the [users]
    table, and the log tables by table name, each with its rows, newest
    first. SQLite looks a table name up without regard to the case of ASCII
    letters: the key of a log table is its name with those letters folded. *)
Record t : Type := mk {
  streams_table : gmap string string;
  users_table : list (string * string);
  log_tables : gmap Str (list Row)
}.

Definition fold_case (c : N) : N :=
  if ((65 <=? c) && (c <=? 90))%N then (c + 32)%N else c.

Definition ident_key (ident : Str) : Str := map fold_case ident.

(** What [api_status] reports for one stream. *)
Inductive Status : Type :=
| Latest (row : Row)
| NoDataYet
| NoTable.

Section Sql.

Variables uni_alpha uni_alnum uni_space : N -> bool.

(** The table a name is logged to (monitor.py) and read from (webgui.py). *)
Definition log_key (name : string) : Str :=
  ident_key (tname uni_alpha uni_alnum uni_space (str name)).

Definition gui_key (name : string) : Str :=
  ident_key (table_name uni_alpha uni_alnum uni_space (str name)).

(** [CREATE TABLE IF NOT EXISTS] *)
Definition create_table (key : Str) (logs : gmap Str (list Row))
  : gmap Str (list Row) :=
  match logs !! key with
  | Some _ => logs
  | None => <[key := []]> logs
  end.

(** The loop of [init_db]: [INSERT OR REPLACE INTO streams] and
    [CREATE TABLE IF NOT EXISTS] for every entry, in order. *)
Fixpoint insert_streams (entries : list Entry) (db : t) : io t :=
  match entries with
  | [] => Done db
  | e :: rest =>
      match entry_name e, entry_url e with
      | None, _ => Raise (Exception "'name'")
      | Some _, None => Raise (Exception "'url'")
      | Some n, Some u =>
          insert_streams rest
            {| streams_table := <[n := u]> (streams_table db);
               users_table := users_table db;
               log_tables := create_table (log_key n) (log_tables db) |}
      end
  end.

(** [init_db]: the [streams] and [users] tables, created when missing, are
    part of every database here; the default user is inserted when the
    [users] table is empty. The result is what is committed when the loop
    completes; an exception leaves the function before [conn.commit()]. *)
Definition init_db (entries : list Entry) (db : t) : io t :=
  insert_streams entries
    {| streams_table := streams_table db;
       users_table := match users_table db with
                      | [] => [("admin", "admin123")]%string
                      | us => us
                      end;
       log_tables := log_tables db |}.

(** [record]: [INSERT INTO {tname(name)}]; without the table SQLite raises
    [OperationalError]. *)
Definition record (db : t) (name : string) (row : Row) : io t :=
  match log_tables db !! log_key name with
  | None =>
      Raise (Exception ("no such table: "
                        +:+ unstr (tname uni_alpha uni_alnum uni_space (str name))))
  | Some rows =>
      Done {| streams_table := streams_table db;
              users_table := users_table db;
              log_tables := <[log_key name := row :: rows]> (log_tables db) |}
  end.

(** [api_status]: for every name of the [streams] table the latest row of
    its log table, "no data yet" or "no table". *)
Definition api_status (db : t) : gmap string Status :=
  map_imap
    (fun n _ =>
       Some match log_tables db !! log_key n with
            | None => NoTable
            | Some [] => NoDataYet
            | Some (row :: _) => Latest row
            end)
    (streams_table db).

(** [latest_row] and [history_rows] of webgui.py: a missing table reads as
    no row. *)
Definition latest_row (db : t) (name : string) : option Row :=
  log_tables db !! gui_key name ≫= head.

Definition history_rows (db : t) (name : string) (limit : nat) : list Row :=
  take limit (default [] (log_tables db !! gui_key name)).

(** The purge of the settings page: [DROP TABLE IF EXISTS
    {table_name(name)}] for every name removed. *)
Definition drop_tables (removed : list string) (db : t) : t :=
  foldl (fun d n =>
           {| streams_table := streams_table d;
              users_table := users_table d;
              log_tables := delete (gui_key n) (log_tables d) |})
    db removed.

End Sql.

End Db.

(** An interpreter for which no character above ASCII is a letter, a digit
    or white space. *)
Definition ascii_only : N -> bool := fun _ => false.

(** A database in which "cam_1" has been logged twice. *)
Definition sample_db : Db.t :=
  {| Db.streams_table := {["cam_1"%string := "rtsp://10.0.0.7/live"%string]};
     Db.users_table := [("admin", "secret")]%string;
     Db.log_tables :=
       {[str "log_cam_1" := [("fail", 0, "timeout"); ("ok", 12, "RTSP 200")]%string]} |}.

(** ** The settings page of webgui.py *)

Section Settings.

(** [str.isspace] above ASCII, and Python's [int] on the text of a form
    field, which raises [ValueError] on what is no integer literal. *)
Variable uni_space : N -> bool.
Variable py_int : string -> io Z.

(** [s.strip()] on a string. *)
Definition str_strip (s : string) : string :=
  unstr (strip uni_space (str s)).

(** The truth value of a string. *)
Definition nonempty (s : string) : bool := negb (String.eqb s "").

(** [(request.form.get(key) or "").strip()] *)
Definition form_field (form : gmap string string) (key : string) : string :=
  str_strip (default ""%string (form !! key)).

(** [f"{prefix}{i}"] *)
Definition indexed (prefix : string) (i : nat) : string :=
  (prefix +:+ str_of_int (Z.of_nat i))%string.

(** [[s["name"] for s in cfg.get("streams", [])]] *)
Fixpoint current_streams (entries : list Entry) : io (list string) :=
  match entries with
  | [] => Done []
  | s :: rest =>
      match entry_name s with
      | None => Raise (Exception "'name'")
      | Some n => ns ← current_streams rest; mret (n :: ns)
      end
  end.

(** The loop over the streams of the page, from index [i] on. *)
Fixpoint settings_loop (form : gmap string string) (i : nat) (entries : list Entry)
    (updated : list Entry) (removed : list string)
  : io (list Entry * list string) :=
  match entries with
  | [] => Done (updated, removed)
  | s :: rest =>
      if nonempty (default ""%string (form !! indexed "del_" i)) then
        match entry_name s with
        | None => Raise (Exception "'name'")
        | Some n => settings_loop form (S i) rest updated (removed ++ [n])
        end
      else
        let name := form_field form (indexed "name_" i) in
        let url := form_field form (indexed "url_" i) in
        settings_loop form (S i) rest
          (if nonempty name && nonempty url
           then updated ++ [{| entry_name := Some name; entry_url := Some url |}]
           else updated)
          removed
  end.

(** The POST branch of [settings], up to [write_config]: the document
    written and the names whose tables are then dropped. *)
Definition settings_post (cfg : RawConfig) (form : gmap string string)
  : io (RawConfig * list string) :=
  let entries := default [] (raw_streams cfg) in
  current ← current_streams entries;
  hb ← match form !! "hb"%string with
       | None => Done 10
       | Some v => py_int v
       end;
  let hb := Z.max 2 (Z.min 3600 hb) in
  ur ← settings_loop form 0 entries [] [];
  let new_name := form_field form "new_name" in
  let new_url := form_field form "new_url" in
  let updated :=
    if nonempty new_name && nonempty new_url
    then ur.1 ++ [{| entry_name := Some new_name; entry_url := Some new_url |}]
    else ur.1 in
  let old_set : gset string := list_to_set current in
  let new_set : gset string := list_to_set (omap entry_name updated) in
  let removed := ur.2 ++ elements (old_set ∖ new_set) in
  Done ({| raw_heartbeat_seconds := Some hb;
           raw_timezone := raw_timezone cfg;
           raw_streams := Some updated;
           raw_mqtt := raw_mqtt cfg |},
        removed).

End Settings.

(** [open_url_for_name] of webgui.py: the URL of the first stream of that
    name. [read_config] sets no default: a document without "streams"
    raises [KeyError]. *)
Fixpoint first_url (entries : list Entry) (name : string) : io (option string) :=
  match entries with
  | [] => Done None
  | s :: rest =>
      match entry_name s with
      | None => Raise (Exception "'name'")
      | Some n =>
          if String.eqb n name then
            match entry_url s with
            | None => Raise (Exception "'url'")
            | Some u => Done (Some u)
            end
          else first_url rest name
      end
  end.

Definition open_url_for_name (cfg : RawConfig) (name : string) : io (option string) :=
  match raw_streams cfg with
  | None => Raise (Exception "'streams'")
  | Some entries => first_url entries name
  end.

(** An entry as the settings page writes it. *)
Definition clean_entry (uni_space : N -> bool) (e : Entry) : Prop :=
  exists n u, entry_name e = Some n /\ entry_url e = Some u
              /\ n <> ""%string /\ u <> ""%string
              /\ str_strip uni_space n = n /\ str_strip uni_space u = u.

(** Python's [int] on the decimal literals the page's number field sends. *)
Definition decimal_int (s : string) : io Z :=
  match s, NilZero.int_of_string s with
  | String _ _, Some d => Done (Z.of_int d)
  | _, _ => Raise (Exception "invalid literal for int() with base 10")
  end.

(** A file with the one stream "cam 1", the page as rendered for it, and the
    page with the stream renamed to "cam_1" and the heartbeat set to 1. *)
Definition cam_1_file : RawConfig :=
  {| raw_heartbeat_seconds := Some 30; raw_timezone := Some "UTC"%string;
     raw_streams := Some [sample_entry "cam 1" "rtsp://10.0.0.7/live"];
     raw_mqtt := None |}.

Definition page_as_rendered : gmap string string :=
  {[ "hb" := "30"; "tz" := "UTC"; "name_0" := "cam 1";
     "url_0" := "rtsp://10.0.0.7/live"; "new_name" := ""; "new_url" := "";
     "new_password" := "" ]}%string.

Definition page_renamed : gmap string string :=
  {[ "hb" := "1"; "tz" := "UTC"; "name_0" := " cam_1 ";
     "url_0" := "rtsp://10.0.0.7/live"; "new_name" := ""; "new_url" := "";
     "new_password" := "" ]}%string.

(** The tables of the database that are no log tables: those of monitor.py,
    those of webgui.py, and the one SQLite keeps for AUTOINCREMENT. *)
Definition other_tables : list Str :=
  [str "streams"; str "users"; str "app_settings"; str "admin_auth";
   str "sqlite_sequence"].

(** Two streams called "cam". *)
Definition twice_cam : RawConfig :=
  {| raw_heartbeat_seconds := Some 10; raw_timezone := None;
     raw_streams := Some [sample_entry "cam" "rtsp://10.0.0.1/live";
                          sample_entry "door" "http://10.0.0.2/video";
                          sample_entry "cam" "http://10.0.0.3/video"];
     raw_mqtt := None |}.

(** ** Login and the requests that change something (webgui.py) *)

Module Auth.

(** The rows of the [admin_auth] table, user name and password. *)
Definition t : Type := list (string * string).

(** [init_auth]: the default administrator is inserted into an empty
    table. *)
Definition init_auth (a : t) : t :=
  match a with
  | [] => [("admin", "admin123")]%string
  | _ => a
  end.

(** [get_admin_creds]: the first row, and the default without one. *)
Definition get_admin_creds (a : t) : string * string :=
  match a with
  | row :: _ => row
  | [] => ("admin", "admin123")%string
  end.

(** [UPDATE admin_auth SET password=? WHERE username='admin'] *)
Definition update_admin_password (new_password : string) (a : t) : t :=
  map (fun row => if String.eqb row.1 "admin" then (row.1, new_password) else row) a.

(** The test of [login]: both fields of the form equal the credentials. *)
Definition login (a : t) (form : gmap string string) : bool :=
  bool_decide (form !! "username"%string = Some (get_admin_creds a).1)
  && bool_decide (form !! "password"%string = Some (get_admin_creds a).2).

End Auth.

(** What the web application keeps: the configuration file, the database
    of the log tables, the administrator's credentials and the time zone
    setting. *)
Record App : Type := mkApp {
  app_config : RawConfig;
  app_db : Db.t;
  app_auth : Auth.t;
  app_timezone : string
}.

(** The requests that write: a login attempt, a logout, a save of the
    settings page, and a call of [/api/set-timezone]. *)
Inductive Request : Type :=
| PostLogin (form : gmap string string)
| GetLogout
| PostSettings (form : gmap string string)
| PostSetTimezone (form : gmap string string).

Section Webgui.

Variables uni_alpha uni_alnum uni_space : N -> bool.
Variable py_int : string -> io Z.

(** [settings] on a POST request: nothing without [session["is_admin"]];
    an exception, which can only come before [write_config], leaves
    everything as it is. *)
Definition settings (is_admin : bool) (app : App) (form : gmap string string) : App :=
  if negb is_admin then app
  else
    match settings_post uni_space py_int (app_config app) form with
    | Raise _ => app
    | Done (cfg, removed) =>
        let new_pw := form_field uni_space form "new_password" in
        {| app_config := cfg;
           app_db := Db.drop_tables uni_alpha uni_alnum uni_space removed (app_db app);
           app_auth := if nonempty new_pw
                       then Auth.update_admin_password new_pw (app_auth app)
                       else app_auth app;
           app_timezone := form_field uni_space form "tz" |}
    end.

(** One request: the session flag and the application afterwards. *)
Definition handle (is_admin : bool) (app : App) (req : Request) : bool * App :=
  match req with
  | PostLogin form =>
      (if Auth.login (app_auth app) form then true else is_admin, app)
  | GetLogout => (false, app)
  | PostSettings form => (is_admin, settings is_admin app form)
  | PostSetTimezone form =>
      (is_admin,
       {| app_config := app_config app; app_db := app_db app;
          app_auth := app_auth app;
          app_timezone := form_field uni_space form "timezone" |})
  end.

Fixpoint handle_all (is_admin : bool) (app : App) (reqs : list Request) : bool * App :=
  match reqs with
  | [] => (is_admin, app)
  | req :: reqs' =>
      let r := handle is_admin app req in handle_all r.1 r.2 reqs'
  end.

End Webgui.

(** A fresh installation with the file of the stream "cam 1". *)
Definition fresh_app : App :=
  {| app_config := cam_1_file; app_db := sample_db;
     app_auth := Auth.init_auth []; app_timezone := "" |}.

(** ** The export of webgui.py *)

(** [msg.replace("\n", " ")] *)
Fixpoint replace_newlines (s : string) : string :=
  match s with
  | EmptyString => EmptyString
  | String c s' =>
      String (if Ascii.eqb c "010" then " "%char else c) (replace_newlines s')
  end.

Section ExportAll.

Variables uni_alpha uni_alnum uni_space : N -> bool.

(** The line of the export for a row of the stream [name]. *)
Definition export_line (name : string) (row : Row) : string * Row :=
  (name, (row.1.1, row.1.2, replace_newlines row.2)).

(** The loop of [export_all]: for every stream of the configuration the
    rows of its table, oldest first; a stream without a table is passed
    over. The header line is left out. *)
Fixpoint export_rows (entries : list Entry) (db : Db.t) : io (list (string * Row)) :=
  match entries with
  | [] => Done []
  | s :: rest =>
      match entry_name s with
      | None => Raise (Exception "'name'")
      | Some n =>
          rows ← export_rows rest db;
          mret (map (export_line n)
                  (rev (default []
                          (Db.log_tables db
                             !! Db.gui_key uni_alpha uni_alnum uni_space n)))
                ++ rows)
      end
  end.

Definition export_all (cfg : RawConfig) (db : Db.t) : io (list (string * Row)) :=
  match raw_streams cfg with
  | None => Raise (Exception "'streams'")
  | Some entries => export_rows entries db
  end.

End ExportAll.

(** * Part II: properties *)

(** ** Table names *)

Section TnameFacts.

Variables uni_alpha uni_alnum uni_space : N -> bool.

Local Abbreviation tname' := (tname uni_alpha uni_alnum uni_space).
Local Abbreviation ident := (ident_char uni_alnum).

Lemma safe_char_ident ch : ident (safe_char uni_alnum ch).
Proof.
  unfold safe_char, ident_char.
  destruct (isalnum uni_alnum ch) eqn:Ea; simpl; [now left|].
  destruct (N.eqb_spec ch underscore) as [->|_]; now right.
Qed.

Lemma table_name_tname name :
  table_name uni_alpha uni_alnum uni_space name = tname' name.
Proof. reflexivity. Qed.

Lemma ident_literal (lit : string) :
  forallb (fun c => (ascii_alpha c || ascii_digit c || (c =? underscore))%N
                    && (c <? 128)%N) (str lit) = true ->
  Forall ident (str lit).
Proof.
  induction (str lit) as [|c l IH]; simpl; intros H; constructor.
  - apply andb_true_iff in H as [H _]. apply andb_true_iff in H as [H Hc].
    unfold ident_char, isalnum. rewrite Hc.
    apply orb_true_iff in H as [H|H]; [now left|].
    right. now apply N.eqb_eq.
  - apply IH. now apply andb_true_iff in H as [_ H].
Qed.

Lemma tname_ident name : Forall ident (tname' name).
Proof.
  unfold tname.
  assert (Hs : Forall ident (map (safe_char uni_alnum) (strip uni_space name))).
  { induction (strip uni_space name) as [|ch l IH]; simpl; constructor;
      [apply safe_char_ident | exact IH]. }
  assert (Hl : Forall ident (str "log_")) by (apply ident_literal; reflexivity).
  assert (Ht : Forall ident (str "t_")) by (apply ident_literal; reflexivity).
  destruct (needs_prefix _ _); repeat (apply Forall_app; split); assumption.
Qed.

Lemma tname_log_prefix name : exists rest, tname' name = str "log_" ++ rest.
Proof. unfold tname. eexists. reflexivity. Qed.

(** A row recorded under one name is the latest row of every name with the
    same table. *)
Lemma latest_row_record db a b row :
  tname' a = tname' b ->
  latest_row uni_alpha uni_alnum uni_space
    (record uni_alpha uni_alnum uni_space db a row) b = Some row.
Proof.
  intros Hab. unfold latest_row, record, Tables in *.
  rewrite table_name_tname, <- Hab.
  rewrite (lookup_insert_eq (M := gmap Str)). reflexivity.
Qed.

End TnameFacts.


(** ** Sizing *)

Section SizingFacts.

Variable MAX : Z.

(** The ceiling of a quotient of integers, in integer arithmetic. *)
Lemma Qceiling_quotient (n H : Z) :
  0 < H -> Qceiling (inject_Z n / inject_Z H) = (n + H - 1) / H.
Proof.
  intros HH. destruct H as [|p|p]; try lia.
  unfold Qceiling, Qfloor, Qdiv, Qinv, Qmult, Qopp, inject_Z. simpl.
  rewrite Z.mul_1_r.
  Z.div_mod_to_equations. nia.
Qed.

Lemma sizing_positive_rate (n H : Z) :
  0 < n -> 0 < H -> (0 < inject_Z n / inject_Z H)%Q.
Proof.
  intros Hn HH. apply Qlt_shift_div_l.
  - change 0%Q with (inject_Z 0). now rewrite <- Zlt_Qlt.
  - rewrite Qmult_0_l. change 0%Q with (inject_Z 0). now rewrite <- Zlt_Qlt.
Qed.

Lemma sizing_delay_product (W n H : Z) :
  0 < n -> 0 < H ->
  (inject_Z W / (inject_Z n / inject_Z H) == inject_Z (W * H) / inject_Z n)%Q.
Proof.
  intros Hn HH. rewrite inject_Z_mult.
  assert (Hn' : ~ (inject_Z n == 0)%Q).
  { change 0%Q with (inject_Z 0). rewrite inject_Z_injective. lia. }
  assert (HH' : ~ (inject_Z H == 0)%Q).
  { change 0%Q with (inject_Z 0). rewrite inject_Z_injective. lia. }
  field. split; assumption.
Qed.

End SizingFacts.

(** C1 (corrected). At every tick, with lane size [n] and the configured
    heartbeat raised to at least 5 seconds ([H = max(5, heartbeat_seconds)],
    no upper bound) and [R = n / H]: an empty lane gets no worker and the
    delay 1; a lane that is not empty gets [W = clamp(ceil(R), 1, MAX)]
    workers, which is at least 1 and at most MAX when MAX is at least 1, and
    the delay [max(0.05, W / R)], where [W / R = W * H / n]. *)
Theorem workers_and_delay_sizing (MAX : Z) (s : Scheduler.t) (lane : Lane.t) :
  let n := Z.of_nat (length (Lane.items lane)) in
  let H := Z.max 5 (heartbeat_seconds (Scheduler.cfg s)) in
  let R := (inject_Z n / inject_Z H)%Q in
  let W := (workers_and_delay MAX s lane).1 in
  let D := (workers_and_delay MAX s lane).2 in
  (n = 0 -> W = 0 /\ D = 1%Q)
  /\ (0 < n ->
      W = clamp (Qceiling R) 1 MAX
      /\ Qceiling R = (n + H - 1) / H
      /\ D = Qmax (5 # 100) (inject_Z W / R)
      /\ (inject_Z W / R == inject_Z (W * H) / inject_Z n)%Q
      /\ (1 <= MAX -> 1 <= W <= MAX)).
Proof.
  intros n H R W D. subst W D. unfold workers_and_delay.
  fold n. fold H. fold R. split.
  - intros ->. simpl. split; reflexivity.
  - intros Hn. destruct (Z.eqb_spec n 0) as [E|_]; [lia|]. simpl.
    assert (HH : 0 < H) by (unfold H; lia).
    split; [reflexivity|]. split; [now apply Qceiling_quotient|].
    split; [reflexivity|]. split; [now apply sizing_delay_product|].
    intros HM. unfold clamp. lia.
Qed.

Lemma workers_and_delay_sizing_witness :
  (workers_and_delay 32 (sample_sched 10) (sample_lane 25)).1
  = clamp (Qceiling (inject_Z 25 / inject_Z 10)) 1 32
  /\ (workers_and_delay 32 (sample_sched 10) (sample_lane 25)).1 = 3
  /\ (workers_and_delay 32 (sample_sched 10) (sample_lane 0)).1 = 0.
Proof.
  pose proof (workers_and_delay_sizing 32 (sample_sched 10) (sample_lane 25)) as H25.
  pose proof (workers_and_delay_sizing 32 (sample_sched 10) (sample_lane 0)) as H0.
  cbv zeta in H25, H0.
  destruct H25 as [_ H25]. destruct H0 as [H0 _].
  destruct (H25 eq_refl) as (HW & _).
  destruct (H0 eq_refl) as (HZ & _).
  split; [exact HW|]. split; [reflexivity | exact HZ].
Defined.

(** The claim as stated fails. With 10 endpoints and a configured heartbeat
    of 2 seconds (inside [2, 3600]) the code runs 2 workers where
    [clamp(ceil(10 / 2), 1, 32)] is 5; with 3300 endpoints and a heartbeat
    of 5 seconds the delay is 0.05 seconds where [W / R] is 32/660; and an
    empty lane has the delay 1. *)
Lemma sizing_claim_counterexample :
  ((workers_and_delay 32 (sample_sched 2) (sample_lane 10)).1 = 2
   /\ clamp (Qceiling (inject_Z 10 / inject_Z (clamp 2 2 3600))) 1 32 = 5)
  /\ ((workers_and_delay 32 (sample_sched 5) (sample_lane 3300)).1 = 32
      /\ (workers_and_delay 32 (sample_sched 5) (sample_lane 3300)).2 = (5 # 100)%Q
      /\ (inject_Z 32 / (inject_Z 3300 / inject_Z (clamp 5 2 3600)) < 5 # 100)%Q)
  /\ (workers_and_delay 32 (sample_sched 10) (sample_lane 0)).2 = 1%Q.
Proof. vm_compute. repeat split; reflexivity. Qed.

(** ** The RTSP probe *)

Lemma contains_prefix pat s : String.prefix pat s = true -> contains pat s = true.
Proof. intros H. destruct s; cbn [contains]; rewrite H; reflexivity. Qed.

(** A response whose status line carries the three characters [code]
    contains the marker the code looks for. *)
Lemma status_line_marker (code txt : string) :
  String.length code = 3%nat ->
  status_line txt = Some code ->
  contains ("RTSP/1.0 " +:+ code) txt = true.
Proof.
  intros Hlen Hst. apply contains_prefix.
  unfold status_line in Hst.
  destruct (String.prefix "RTSP/1.0 " txt) eqn:Hp; [|discriminate].
  injection Hst as Hsub.
  apply prefix_correct in Hp. simpl String.length in Hp.
  do 9 (destruct txt as [|? txt]; [discriminate|]).
  simpl in Hp. injection Hp as -> -> -> -> -> -> -> -> ->.
  simpl in Hsub. simpl. change ("" +:+ code) with code.
  apply prefix_correct. rewrite Hlen. exact Hsub.
Qed.

Lemma classify_rtsp_ok_iff txt lat :
  (classify_rtsp txt lat).1.1 = false
  <-> (contains "RTSP/1.0 200" txt = false
       /\ contains "RTSP/1.0 401" txt = false
       /\ contains "RTSP/1.0 403" txt = false
       /\ contains "RTSP/1.0 404" txt = false
       /\ contains "RTSP/1.0 454" txt = false).
Proof.
  unfold classify_rtsp.
  destruct (contains "RTSP/1.0 200" txt), (contains "RTSP/1.0 401" txt),
    (contains "RTSP/1.0 403" txt), (contains "RTSP/1.0 404" txt),
    (contains "RTSP/1.0 454" txt); simpl; intuition congruence.
Qed.

(** C2 (the code at the failing input). The probe means to classify the
    status of the response, and does so by looking for five markers anywhere
    in the text received, in a fixed order; the first one found decides. A
    response whose status line is 200 gives OK "RTSP 200"; one whose status
    line is 401, 403, 404 or 454 gives OK, and its classification names that
    status provided that no marker tested earlier occurs in the text; the
    result is FAIL exactly when none of the five markers occurs, and then
    the classification is "RTSP not 200"; a timeout gives FAIL "timeout" and
    any other exception FAIL "error:" followed by its text. The failing
    input: a response that holds the marker of 200 outside its status line
    is classified OK "RTSP 200" whatever its status line says, be it 404 or
    a status that is none of the five. *)
Theorem probe_rtsp_classification (peer : RtspPeer) (lat : Z) :
  match rtsp_exchange peer with
  | Done txt =>
      let absent code := contains ("RTSP/1.0 " +:+ code) txt = false in
      (status_line txt = Some "200"%string ->
       probe_rtsp peer lat = (true, "RTSP 200"%string, lat))
      /\ (status_line txt = Some "401"%string ->
          (probe_rtsp peer lat).1.1 = true
          /\ (absent "200"%string ->
              probe_rtsp peer lat = (true, "RTSP 401 Unauthorized"%string, lat)))
      /\ (status_line txt = Some "403"%string ->
          (probe_rtsp peer lat).1.1 = true
          /\ (absent "200"%string -> absent "401"%string ->
              probe_rtsp peer lat = (true, "RTSP 403 Forbidden"%string, lat)))
      /\ (status_line txt = Some "404"%string ->
          (probe_rtsp peer lat).1.1 = true
          /\ (absent "200"%string -> absent "401"%string -> absent "403"%string ->
              probe_rtsp peer lat = (true, "RTSP 404 Not Found"%string, lat)))
      /\ (status_line txt = Some "454"%string ->
          (probe_rtsp peer lat).1.1 = true
          /\ (absent "200"%string -> absent "401"%string -> absent "403"%string ->
              absent "404"%string ->
              probe_rtsp peer lat
              = (true, "RTSP 454 Session Not Found"%string, lat)))
      /\ ((probe_rtsp peer lat).1.1 = false
          <-> absent "200"%string /\ absent "401"%string /\ absent "403"%string
              /\ absent "404"%string /\ absent "454"%string)
      /\ ((probe_rtsp peer lat).1.1 = false ->
          probe_rtsp peer lat = (false, "RTSP not 200"%string, lat))
      /\ (forall code : string,
            status_line txt = Some code ->
            contains "RTSP/1.0 200" txt = true ->
            probe_rtsp peer lat = (true, "RTSP 200"%string, lat))
  | Raise (TimeoutError _) =>
      probe_rtsp peer lat = (false, "timeout"%string, lat)
  | Raise (Exception m) =>
      probe_rtsp peer lat = (false, "error:" +:+ m, lat)
  end.
Proof.
  unfold probe_rtsp. destruct (rtsp_exchange peer) as [txt|[m|m]]; try reflexivity.
  cbv zeta. unfold classify_rtsp.
  repeat match goal with
         | |- context [?a +:+ ?b] =>
             let c := eval vm_compute in (a +:+ b) in change (a +:+ b) with c
         end.
  repeat split; intros;
    repeat match goal with
           | H : status_line txt = Some ?c |- _ =>
               first [ is_var c; clear H
                     | apply status_line_marker in H;
                       [vm_compute String.append in H|reflexivity] ]
           end;
    repeat match goal with
           | H : contains _ txt = _ |- _ => rewrite H
           end;
    try reflexivity.
  all: try (destruct (contains "RTSP/1.0 200" txt), (contains "RTSP/1.0 401" txt),
             (contains "RTSP/1.0 403" txt), (contains "RTSP/1.0 404" txt),
             (contains "RTSP/1.0 454" txt); simpl in *; intuition congruence).
Qed.

(** The failing input: a response relayed by a proxy whose address starts
    with 200. The status line says 404 and the classification is
    "RTSP 200", which does not name it; the status line says 500, which is
    none of the five, and the outcome is OK. *)
Lemma probe_rtsp_classification_witness :
  (status_line response_404_via = Some "404"%string
   /\ probe_rtsp (sample_rtsp_peer response_404_via) 12
      = (true, "RTSP 200"%string, 12))
  /\ (status_line response_500_via = Some "500"%string
      /\ probe_rtsp (sample_rtsp_peer response_500_via) 12
         = (true, "RTSP 200"%string, 12)).
Proof.
  split; (split; [reflexivity|]).
  - pose proof (probe_rtsp_classification (sample_rtsp_peer response_404_via) 12) as H.
    change (rtsp_exchange (sample_rtsp_peer response_404_via))
      with (Done (A := string) response_404_via) in H.
    cbv beta iota zeta in H.
    destruct H as (_ & _ & _ & _ & _ & _ & _ & H).
    apply (H "404"%string); reflexivity.
  - pose proof (probe_rtsp_classification (sample_rtsp_peer response_500_via) 12) as H.
    change (rtsp_exchange (sample_rtsp_peer response_500_via))
      with (Done (A := string) response_500_via) in H.
    cbv beta iota zeta in H.
    destruct H as (_ & _ & _ & _ & _ & _ & _ & H).
    apply (H "500"%string); reflexivity.
Defined.

(** Responses on which the probe does what it means to do. *)
Example probe_rtsp_examples :
  probe_rtsp (sample_rtsp_peer response_401) 12
  = (true, "RTSP 401 Unauthorized"%string, 12)
  /\ probe_rtsp silent_rtsp_peer 3500 = (false, "timeout"%string, 3500).
Proof. split; reflexivity. Qed.

(** ** The HTTP probe *)

Lemma http_result_ok status lat :
  (http_result status lat).1.1 = true <-> 200 <= status < 400.
Proof. unfold http_result. simpl. rewrite andb_true_iff. lia. Qed.

(** C3 (the code at the failing input). The probe sends HEAD first. When
    HEAD is answered, the status of that answer is the result, whatever it
    is: OK if and only if it is in [200, 400), classification "HTTP" and
    the code, and no GET is sent. The GET, which reads 64 bytes of the
    body, is sent exactly when HEAD raised (a timeout included); then the
    status of the GET decides in the same way once the 64 bytes are read,
    and when the GET or the read raises, the result is FAIL "timeout" for a
    timeout and FAIL "error:" with the text of the exception otherwise. The
    failing input: a server that does not support HEAD and answers it with
    an error status gets no GET, and is reported FAIL whatever it would
    answer to the GET. *)
Theorem probe_http_head_then_get (peer : HttpPeer) (lat : Z) :
  let r := probe_http peer lat in
  let result status :=
    ((200 <=? status) && (status <? 400), "HTTP " +:+ str_of_int status, lat) in
  (exists rest, r.1 = HEAD :: rest)
  /\ (In (GET 64) r.1 <-> exists e, head_status peer = Raise e)
  /\ (forall n, In (GET n) r.1 -> n = 64%nat)
  /\ match head_status peer with
     | Done status =>
         r = ([HEAD], result status)
         /\ (r.2.1.1 = true <-> 200 <= status < 400)
     | Raise _ =>
         r.1 = [HEAD; GET 64]
         /\ match get_status peer with
            | Done status =>
                match content_read peer with
                | Done _ =>
                    r.2 = result status
                    /\ (r.2.1.1 = true <-> 200 <= status < 400)
                | Raise (TimeoutError _) => r.2 = (false, "timeout"%string, lat)
                | Raise (Exception m) => r.2 = (false, "error:" +:+ m, lat)
                end
            | Raise (TimeoutError _) => r.2 = (false, "timeout"%string, lat)
            | Raise (Exception m) => r.2 = (false, "error:" +:+ m, lat)
            end
     end
  /\ (r.2.1.1 = true
      <-> exists status,
            (head_status peer = Done status
             \/ ((exists e, head_status peer = Raise e)
                 /\ get_status peer = Done status
                 /\ exists u, content_read peer = Done u))
            /\ 200 <= status < 400)
  /\ (forall status,
        head_status peer = Done status -> ~ 200 <= status < 400 ->
        r.2.1.1 = false /\ ~ In (GET 64) r.1).
Proof.
  cbv zeta. unfold probe_http, http_get.
  destruct (head_status peer) as [st|e] eqn:Hh; cbn [fst snd].
  - split; [now exists []|].
    split; [split; [intros [H|[]]; discriminate | intros [e He]; discriminate]|].
    split; [intros n [H|[]]; discriminate|].
    split; [split; [reflexivity | apply http_result_ok]|].
    split; [split|].
    + intros H. exists st. split; [now left|].
      exact (proj1 (http_result_ok st lat) H).
    + intros (st' & [H|[[e He] _]] & Hr); [|discriminate].
      injection H as <-. exact (proj2 (http_result_ok st lat) Hr).
    + intros st' H Hr. injection H as <-. split.
      * destruct ((http_result st lat).1.1) eqn:E; [|reflexivity].
        exfalso. apply Hr. exact (proj1 (http_result_ok st lat) E).
      * intros [H|[]]. discriminate.
  - split; [now exists [GET 64%nat]|].
    split; [split; [intros _; now exists e | intros _; right; now left]|].
    split; [intros n [H|[H|[]]]; [discriminate | now injection H]|].
    split; [|split; [|intros st' H; discriminate]].
    + split; [reflexivity|].
      destruct (get_status peer) as [st|[m|m]]; cbn [mbind io_bind]; try reflexivity.
      destruct (content_read peer) as [u|[m|m]]; cbn [mbind io_bind]; try reflexivity.
      split; [reflexivity | apply http_result_ok].
    + destruct (get_status peer) as [st|[m|m]] eqn:Hg; cbn [mbind io_bind].
      * destruct (content_read peer) as [u|[m|m]] eqn:Hc; cbn [mbind io_bind].
        -- split.
           ++ intros H. exists st.
              split; [right; split; [now exists e | split; [reflexivity | now exists u]]|].
              exact (proj1 (http_result_ok st lat) H).
           ++ intros (st' & [H|(_ & H & _)] & Hr); [discriminate|].
              injection H as <-. exact (proj2 (http_result_ok st lat) Hr).
        -- split; [discriminate|].
           intros (st' & [H|(_ & _ & u & H)] & _); discriminate.
        -- split; [discriminate|].
           intros (st' & [H|(_ & _ & u & H)] & _); discriminate.
      * split; [discriminate|].
        intros (st' & [H|(_ & H & _)] & _); discriminate.
      * split; [discriminate|].
        intros (st' & [H|(_ & H & _)] & _); discriminate.
Qed.

(** The failing input: HEAD is answered 405 and the probe reports FAIL
    without sending the GET, which would be answered 200. *)
Lemma probe_http_head_then_get_witness :
  get_status head_unsupported_peer = Done 200
  /\ probe_http head_unsupported_peer 8 = ([HEAD], (false, "HTTP 405"%string, 8)).
Proof.
  split; [reflexivity|].
  pose proof (probe_http_head_then_get head_unsupported_peer 8) as H.
  cbv zeta in H. destruct H as (_ & _ & _ & H & _).
  change (head_status head_unsupported_peer) with (Done (A := Z) 405) in H.
  cbv beta iota in H. exact (proj1 H).
Defined.

Example probe_http_examples :
  probe_http (head_http_peer 200) 8 = ([HEAD], (true, "HTTP 200"%string, 8))
  /\ probe_http (head_http_peer 405) 8 = ([HEAD], (false, "HTTP 405"%string, 8))
  /\ probe_http (get_only_http_peer 302) 8
     = ([HEAD; GET 64%nat], (true, "HTTP 302"%string, 8))
  /\ probe_http slow_head_peer 3000
     = ([HEAD; GET 64%nat], (true, "HTTP 200"%string, 3000))
  /\ probe_http silent_http_peer 3000
     = ([HEAD; GET 64%nat], (false, "timeout"%string, 3000)).
Proof. vm_compute. repeat split; reflexivity. Qed.

(** ** The worker loop: backoff and fallback *)

Section WorkerFacts.

Variable BASE : Q.

Lemma apply_outcome_ok now st msg l :
  apply_outcome BASE now st (true, msg, l)
  = ({| Stream.name := Stream.name st; Stream.url := Stream.url st;
        Stream.is_rtsp := Stream.is_rtsp st; Stream.fails := 0;
        Stream.backoff_until := 0 |},
     (Stream.name st, ("ok"%string, l, msg))).
Proof. reflexivity. Qed.

Lemma apply_outcome_fail now st msg l :
  apply_outcome BASE now st (false, msg, l)
  = ({| Stream.name := Stream.name st; Stream.url := Stream.url st;
        Stream.is_rtsp := Stream.is_rtsp st; Stream.fails := Stream.fails st + 1;
        Stream.backoff_until :=
          (now + Qmin 90 (BASE * inject_Z (2 ^ Z.min 5 (Stream.fails st + 1))))%Q |},
     (Stream.name st, ("fail"%string, l, msg))).
Proof. reflexivity. Qed.

(** A probe cycle exists for every allocated object, and writes that object
    only. *)
Lemma probe_cycle_frame net now rtsp url s h st :
  h !! s = Some st ->
  exists st' row cs,
    probe_cycle BASE net now rtsp url s h = Some (<[s := st']> h, row, cs)
    /\ st' = (apply_outcome BASE now st
                (with_fallback net st (light_probe net rtsp url).1).1).1
    /\ forall s', s' <> s -> (<[s := st']> h) !! s' = h !! s'.
Proof.
  intros Hs. unfold probe_cycle. rewrite Hs. simpl.
  eexists _, _, _. split; [reflexivity|]. split; [reflexivity|].
  intros s' Hne. now apply list_lookup_insert_ne.
Qed.

(** The exponential delay is capped, and never shrinks as failures go on. *)
Lemma backoff_delay_monotone (k : Z) :
  (0 <= BASE)%Q -> 0 <= k ->
  (Qmin 90 (BASE * inject_Z (2 ^ Z.min 5 k))
   <= Qmin 90 (BASE * inject_Z (2 ^ Z.min 5 (k + 1))))%Q.
Proof.
  intros HB Hk. apply Q.min_le_compat_l.
  rewrite !(Qmult_comm BASE). apply Qmult_le_compat_r; [|exact HB].
  rewrite <- Zle_Qle. apply Z.pow_le_mono_r; lia.
Qed.

End WorkerFacts.



(** C5 (corrected). In a probe cycle the frame fetch is invoked if and only
    if the light probe failed and the object's [fails], as the worker reads
    it when the light probe has returned, is at least 3. That is the value
    before this cycle's update; with two workers on one object it need not
    be the value the cycle started with. When the frame fetch is invoked
    and a frame is read, the cycle's result is the frame fetch's, so the
    row recorded is "ok" and the streak is reset. Without a frame the light
    probe's failure stands. *)
Theorem fallback_override (BASE now : Q) (net : Net) (rtsp : bool) (url : string)
    (s : loc) (h : Heap) (st : Stream.t) :
  h !! s = Some st ->
  let light := (light_probe net rtsp url).1 in
  exists st' row cs,
    probe_cycle BASE net now rtsp url s h = Some (<[s := st']> h, row, cs)
    /\ (In (CallFrame (Stream.url st)) cs
        <-> light.1.1 = false /\ 3 <= Stream.fails st)
    /\ (forall u, In (CallFrame u) cs -> u = Stream.url st)
    /\ (In (CallFrame (Stream.url st)) cs -> capture net = Done true ->
        row = (Stream.name st, ("ok"%string, frame_lat net, "ok"%string))
        /\ Stream.fails st' = 0)
    /\ (In (CallFrame (Stream.url st)) cs -> capture net <> Done true ->
        row = (Stream.name st, ("fail"%string, light.2, light.1.2))
        /\ Stream.fails st' = Stream.fails st + 1)
    /\ (~ In (CallFrame (Stream.url st)) cs ->
        row = (Stream.name st,
               ((if light.1.1 then "ok" else "fail")%string, light.2, light.1.2))).
Proof.
  intros Hs light. unfold probe_cycle. rewrite Hs. simpl.
  eexists _, _, _. split; [reflexivity|].
  assert (Hl : forall u, In (CallFrame u) [(light_probe net rtsp url).2] -> False).
  { intros u [H|[]]. unfold light_probe in H.
    destruct rtsp; discriminate. }
  fold light. unfold with_fallback.
  destruct light as [[ok m] la] eqn:El. cbn [fst snd].
  destruct ok; cbn [negb andb].
  - cbn [fst snd]. split; [|split; [|split; [|split]]].
    + split; [intros [H|[]]; exfalso; eapply Hl; left; exact H | intros [H _]; discriminate].
    + intros u [H|[]]. exfalso. eapply Hl. left. exact H.
    + intros [H|[]]. exfalso. eapply Hl. left. exact H.
    + intros [H|[]]. exfalso. eapply Hl. left. exact H.
    + intros _. reflexivity.
  - destruct (Z.leb_spec 3 (Stream.fails st)) as [Hf|Hf]; cbn [fst snd].
    + split; [|split; [|split; [|split]]].
      * split; [intros _; split; [reflexivity | exact Hf] | intros _; right; now left].
      * intros u [H|[H|[]]]; [exfalso; eapply Hl; left; exact H | now injection H].
      * intros _ Hc. rewrite Hc. cbn. split; reflexivity.
      * intros _ Hc. destruct (capture net) as [[]|e]; [congruence| |];
          cbn; split; reflexivity.
      * intros Hn. exfalso. apply Hn. right. now left.
    + split; [|split; [|split; [|split]]].
      * split; [intros [H|[]]; exfalso; eapply Hl; left; exact H | intros [_ H]; lia].
      * intros u [H|[]]. exfalso. eapply Hl. left. exact H.
      * intros [H|[]]. exfalso. eapply Hl. left. exact H.
      * intros [H|[]]. exfalso. eapply Hl. left. exact H.
      * intros _. reflexivity.
Qed.

(** Scenario C as a run: three cycles fail on the light probe, with no
    frame fetch; the fourth fails on the light probe and reads a frame. *)
Lemma fallback_override_witness :
  exists h1 h2 h3 r1 r2 r3 c1 c2 c3 st' cs,
    probe_cycle 5 dead_net 1 true "rtsp://10.0.0.7/live" 0%nat [sample_stream 0 0]
    = Some (h1, r1, c1)
    /\ probe_cycle 5 dead_net 20 true "rtsp://10.0.0.7/live" 0%nat h1 = Some (h2, r2, c2)
    /\ probe_cycle 5 dead_net 50 true "rtsp://10.0.0.7/live" 0%nat h2 = Some (h3, r3, c3)
    /\ (r1.2.1.1 = "fail" /\ r2.2.1.1 = "fail" /\ r3.2.1.1 = "fail")%string
    /\ c1 ++ c2 ++ c3 = [CallRtsp "rtsp://10.0.0.7/live"; CallRtsp "rtsp://10.0.0.7/live";
                         CallRtsp "rtsp://10.0.0.7/live"]
    /\ probe_cycle 5 frame_only_net 100 true "rtsp://10.0.0.7/live" 0%nat h3
       = Some (<[0%nat := st']> h3, ("cam1", ("ok", 40, "ok")), cs)%string
    /\ In (CallFrame "rtsp://10.0.0.7/live") cs.
Proof.
  eexists _, _, _, _, _, _, _, _, _.
  pose proof (fallback_override 5 100 frame_only_net true "rtsp://10.0.0.7/live" 0%nat
                [sample_stream 3 (50 + 40)] (sample_stream 3 (50 + 40)) eq_refl)
    as (st' & row & cs & Hc & Hiff & _ & Hok & _).
  exists st', cs.
  split; [reflexivity|]. split; [reflexivity|]. split; [reflexivity|].
  split; [repeat split; reflexivity|]. split; [reflexivity|].
  assert (Hin : In (CallFrame "rtsp://10.0.0.7/live") cs).
  { apply Hiff. split; [reflexivity | discriminate]. }
  destruct (Hok Hin eq_refl) as [-> _].
  split; [exact Hc | exact Hin].
Defined.

(** The claim as stated fails when two workers probe one endpoint (C7). Both
    directions, with six cameras that refuse connections. First run: "a" has
    a streak of 2 when both workers start their cycle on it; the first to
    complete fails and raises the streak to 3, and the second, whose light
    probe fails too, fetches a frame and records "ok": a frame fetch in a
    cycle that started with a streak below 3. Second run: "a" has a streak
    of 3 when both cycles start; the first to complete succeeds and resets
    the streak, and the second, whose light probe fails while a frame could
    be read, fetches no frame and records "fail". *)
Lemma fallback_claim_counterexample :
  exists sys0 s2 s2' s2'' s3 s3' s3'',
    run_monitor six_cameras = Done sys0
    /\ (run 32 5 sys0 streak_two_prefix = Some s2
        /\ Stream.fails <$> heap s2 !! 0%nat = Some 2
        /\ run 32 5 s2 [Begin true 0; Begin true 1; Advance (1 # 100)] = Some s2'
        /\ worker_state s2' (true, 0%nat) = Probing 0 true "rtsp://10.0.0.1/live"
        /\ worker_state s2' (true, 1%nat) = Probing 0 true "rtsp://10.0.0.1/live"
        /\ Stream.fails <$> heap s2' !! 0%nat = Some 2
        /\ run 32 5 s2' [Finish true 1 dead_net; Finish true 0 frame_only_net]
           = Some s2''
        /\ calls s2'' = calls s2 ++ [CallRtsp "rtsp://10.0.0.1/live";
                                     CallRtsp "rtsp://10.0.0.1/live";
                                     CallFrame "rtsp://10.0.0.1/live"]
        /\ sink s2'' = sink s2 ++ [("a", ("fail", 3, "error:Connection refused"));
                                   ("a", ("ok", 40, "ok"))]%string)
    /\ (run 32 5 sys0 streak_three_prefix = Some s3
        /\ Stream.fails <$> heap s3 !! 0%nat = Some 3
        /\ run 32 5 s3 [Begin true 0; Begin true 1; Advance (1 # 100)] = Some s3'
        /\ worker_state s3' (true, 0%nat) = Probing 0 true "rtsp://10.0.0.1/live"
        /\ worker_state s3' (true, 1%nat) = Probing 0 true "rtsp://10.0.0.1/live"
        /\ Stream.fails <$> heap s3' !! 0%nat = Some 3
        /\ run 32 5 s3' [Finish true 1 live_net; Finish true 0 frame_only_net]
           = Some s3''
        /\ capture frame_only_net = Done true
        /\ calls s3'' = calls s3 ++ [CallRtsp "rtsp://10.0.0.1/live";
                                     CallRtsp "rtsp://10.0.0.1/live"]
        /\ sink s3'' = sink s3 ++ [("a", ("ok", 9, "RTSP 200"));
                                   ("a", ("fail", 3, "error:Connection refused"))]%string).
Proof.
  eexists _, _, _, _, _, _, _.
  split; [vm_compute; reflexivity|].
  split; (split; [vm_compute; reflexivity|]);
    (split; [reflexivity|]);
    (split; [vm_compute; reflexivity|]);
    (split; [reflexivity|]); (split; [reflexivity|]); (split; [reflexivity|]);
    (split; [vm_compute; reflexivity|]);
    repeat split; vm_compute; reflexivity.
Qed.

(** ** Round-robin selection *)

Section RoundRobin.

Context {A : Type}.

(** Moving the cursor by one rotates the lane by one. *)
Lemma rotate_step (l : list A) (i : nat) (x : A) :
  l !! i = Some x ->
  exists t, rotate i l = x :: t
            /\ rotate ((i + 1) mod length l) l = t ++ [x].
Proof.
  intros Hx. assert (Hi : (i < length l)%nat) by (eapply lookup_lt_Some; eauto).
  unfold rotate. rewrite (Nat.mod_small i (length l)) by lia.
  exists (drop (S i) l ++ take i l). split.
  - now rewrite (drop_S _ _ _ Hx).
  - destruct (decide (S i = length l)) as [E|E].
    + replace (i + 1)%nat with (length l) by lia.
      rewrite Nat.Div0.mod_same, Nat.Div0.mod_0_l. cbn [drop take].
      rewrite app_nil_r, (drop_ge l (S i)) by lia. cbn [app].
      rewrite <- (take_S_r _ _ _ Hx), E. now rewrite take_ge by lia.
    + replace (i + 1)%nat with (S i) by lia.
      rewrite (Nat.mod_small (S i) (length l)) by lia.
      rewrite (Nat.mod_small (S i) (length l)) by lia.
      rewrite (take_S_r _ _ _ Hx). now rewrite app_assoc.
Qed.

(** Moving the cursor by [d] rotates the lane by [d]. *)
Lemma rotate_shift (l : list A) (i d : nat) :
  (i < length l)%nat -> (d <= length l)%nat ->
  rotate ((i + d) mod length l) l
  = drop d (rotate i l) ++ take d (rotate i l).
Proof.
  intros Hi. induction d as [|d IH]; intros Hd.
  - rewrite Nat.add_0_r, Nat.mod_small by lia. simpl. now rewrite app_nil_r.
  - assert (Hlen : length (rotate i l) = length l) by apply length_rotate.
    destruct (lookup_lt_is_Some_2 (rotate i l) d) as [x Hx]; [lia|].
    assert (Hm : ((i + d) mod length l < length l)%nat)
      by (apply Nat.mod_upper_bound; lia).
    destruct (lookup_lt_is_Some_2 l ((i + d) mod length l) Hm) as [y Hy].
    destruct (rotate_step l _ y Hy) as (t & Ht & Hnext).
    rewrite IH in Ht by lia.
    rewrite (drop_S _ _ _ Hx) in Ht. simpl in Ht. injection Ht as <- <-.
    replace ((i + S d) mod length l)%nat
      with (((i + d) mod length l + 1) mod length l)%nat.
    + rewrite Hnext, (take_S_r _ _ _ Hx). now rewrite app_assoc.
    + rewrite Nat.Div0.add_mod_idemp_l. f_equal. lia.
Qed.

End RoundRobin.

Section NextRR.

Variables (h : Heap) (now : Q).

Local Abbreviation elig := (fun s : loc => eligible h now s = true).

(** The loop of [next_rr] finds the first eligible item among the [k] items
    from the cursor onward, and leaves the cursor just behind it. *)
Lemma scan_find (items : list loc) :
  Forall (fun s => is_Some (h !! s)) items ->
  forall k i, (i < length items)%nat -> (k <= length items)%nat ->
    Lane.scan h now items i k
    = match list_find elig (take k (rotate i items)) with
      | Some (d, s) => (Done (Some s), ((i + S d) mod length items)%nat)
      | None => (Done None, ((i + k) mod length items)%nat)
      end.
Proof.
  intros Hall. induction k as [|k IH]; intros i Hi Hk.
  - simpl. now rewrite Nat.add_0_r, Nat.mod_small by lia.
  - destruct (lookup_lt_is_Some_2 items i Hi) as [s Hs].
    destruct (rotate_step items i s Hs) as (t & Ht & Hnext).
    assert (Hst : is_Some (h !! s)).
    { rewrite Forall_forall in Hall. apply Hall.
      eapply list_elem_of_lookup_2; eauto. }
    destruct Hst as [st Hst].
    assert (He : Qle_bool (Stream.backoff_until st) now = eligible h now s)
      by (unfold eligible; now rewrite Hst).
    cbn [Lane.scan]. rewrite Hs, Hst, Ht, He. cbn [take list_find].
    case_decide as Hq.
    + rewrite Hq. now rewrite Nat.add_1_r.
    + apply not_true_is_false in Hq. rewrite Hq.
      rewrite IH; [|apply Nat.mod_upper_bound; lia | lia].
      rewrite Hnext.
      assert (Hlt : length t = (length items - 1)%nat).
      { apply (f_equal length) in Ht. rewrite length_rotate in Ht.
        simpl in Ht. lia. }
      rewrite take_app_le by lia.
      destruct (list_find elig (take k t)) as [[d s']|]; simpl.
      * f_equal. rewrite Nat.Div0.add_mod_idemp_l. f_equal. lia.
      * f_equal. rewrite Nat.Div0.add_mod_idemp_l. f_equal. lia.
Qed.

End NextRR.

Section Traversal.

Variables (h : Heap) (now : Q).

Local Abbreviation elig := (fun s : loc => eligible h now s = true).

Lemma find_filter (v : list loc) :
  match list_find elig v with
  | Some (d, s) =>
      v !! d = Some s /\ eligible h now s = true
      /\ filter elig (take d v) = []
      /\ filter elig v = s :: filter elig (drop (S d) v)
  | None => filter elig v = []
  end.
Proof.
  induction v as [|x v IH]; [reflexivity|].
  cbn [list_find]. rewrite filter_cons. case_decide as Hx.
  - split_and!; [reflexivity | exact Hx | reflexivity | reflexivity].
  - destruct (list_find elig v) as [[d s]|]; simpl.
    + destruct IH as (Hl & He & Ht & Hf). split_and!; try assumption.
      rewrite filter_cons. now rewrite decide_False.
    + exact IH.
Qed.

Lemma next_rr_nil (l : Lane.t) :
  Lane.items l = [] -> Lane.next_rr h now l = (Done None, l).
Proof. intros E. unfold Lane.next_rr. now rewrite E. Qed.

Lemma next_rr_cons (l : Lane.t) :
  Lane.items l <> [] ->
  Lane.next_rr h now l
  = ((Lane.scan h now (Lane.items l) (Lane.i l) (length (Lane.items l))).1,
     {| Lane.kind := Lane.kind l; Lane.items := Lane.items l;
        Lane.i := (Lane.scan h now (Lane.items l) (Lane.i l)
                     (length (Lane.items l))).2 |}).
Proof.
  intros E. unfold Lane.next_rr. destruct (Lane.items l); [congruence|reflexivity].
Qed.

Lemma from_cursor_nil (l : Lane.t) : Lane.items l = [] -> from_cursor l = [].
Proof.
  intros E. unfold from_cursor, rotate. rewrite E.
  now rewrite drop_nil, take_nil.
Qed.

Lemma next_rr_items (l : Lane.t) :
  Lane.items (Lane.next_rr h now l).2 = Lane.items l
  /\ Lane.kind (Lane.next_rr h now l).2 = Lane.kind l.
Proof.
  destruct (decide (Lane.items l = [])) as [E|E].
  - now rewrite next_rr_nil.
  - now rewrite next_rr_cons.
Qed.

(** One call: the first eligible item from the cursor onward, if any; the
    traversal resumes just behind it. *)
Lemma next_rr_find (l : Lane.t) :
  Lane_wf h l ->
  match list_find elig (from_cursor l) with
  | Some (d, s) =>
      (Lane.next_rr h now l).1 = Done (Some s)
      /\ Lane.i (Lane.next_rr h now l).2
         = ((Lane.i l + S d) mod length (Lane.items l))%nat
      /\ from_cursor (Lane.next_rr h now l).2
         = drop (S d) (from_cursor l) ++ take (S d) (from_cursor l)
  | None => Lane.next_rr h now l = (Done None, l)
  end.
Proof.
  intros [[Hnil|Hi] Hall].
  - rewrite (from_cursor_nil l Hnil). now apply next_rr_nil.
  - assert (Hne : Lane.items l <> []).
    { intros E. rewrite E in Hi. simpl in Hi. lia. }
    rewrite (next_rr_cons l Hne). unfold from_cursor at 2.
    cbn [fst snd Lane.items Lane.i].
    rewrite (scan_find h now _ Hall) by lia.
    rewrite take_ge by (rewrite length_rotate; lia).
    fold (from_cursor l).
    pose proof (find_filter (from_cursor l)) as Hf.
    destruct (list_find elig (from_cursor l)) as [[d s]|]; cbn [fst snd].
    + destruct Hf as (Hl & _). split; [reflexivity|]. split; [reflexivity|].
      apply rotate_shift; [exact Hi|].
      apply lookup_lt_Some in Hl. unfold from_cursor in Hl.
      rewrite length_rotate in Hl. lia.
    + f_equal. destruct l as [k its' i]. cbn in *. f_equal.
      rewrite <- (Nat.mul_1_l (length its')) at 1.
      rewrite Nat.Div0.mod_add. now apply Nat.mod_small.
Qed.

Lemma next_rr_wf (l : Lane.t) :
  Lane_wf h l -> Lane_wf h (Lane.next_rr h now l).2.
Proof.
  intros [Hi Hall]. destruct (next_rr_items l) as [Hit _].
  split; rewrite Hit; [|exact Hall].
  destruct Hi as [Hnil|Hi]; [now left|]. right.
  assert (Hne : Lane.items l <> []).
  { intros E. rewrite E in Hi. simpl in Hi. lia. }
  rewrite (next_rr_cons l Hne). cbn [snd Lane.i].
  rewrite (scan_find h now _ Hall) by lia.
  destruct (list_find _ _) as [[d s]|]; cbn [snd];
    apply Nat.mod_upper_bound; lia.
Qed.

(** One call returns the first eligible item of the lap that starts at the
    cursor. *)
Lemma next_rr_head (l : Lane.t) :
  Lane_wf h l ->
  (Lane.next_rr h now l).1 = Done (head (filter elig (from_cursor l))).
Proof.
  intros Hwf. pose proof (next_rr_find l Hwf) as Hn.
  pose proof (find_filter (from_cursor l)) as Hf.
  destruct (list_find elig (from_cursor l)) as [[d s]|].
  - destruct Hn as (-> & _). destruct Hf as (_ & _ & _ & ->). reflexivity.
  - rewrite Hn, Hf. reflexivity.
Qed.

(** [k] calls in a row select the first [k] eligible items from the cursor
    onward, and leave the traversal with those [k] moved to its end. *)
Lemma next_rr_n_take (k : nat) :
  forall l, Lane_wf h l ->
    (k <= length (filter elig (from_cursor l)))%nat ->
    (next_rr_n h now l k).1
    = map (fun s => Done (Some s)) (take k (filter elig (from_cursor l)))
    /\ filter elig (from_cursor (next_rr_n h now l k).2)
       = drop k (filter elig (from_cursor l))
         ++ take k (filter elig (from_cursor l))
    /\ Lane_wf h (next_rr_n h now l k).2.
Proof.
  induction k as [|k IH]; intros l Hwf Hk.
  - cbn [next_rr_n fst snd take drop map]. rewrite app_nil_r.
    split; [reflexivity|]. split; [reflexivity | exact Hwf].
  - pose proof (next_rr_find l Hwf) as Hn.
    pose proof (find_filter (from_cursor l)) as Hf.
    destruct (list_find elig (from_cursor l)) as [[d s]|].
    + destruct Hn as (Hr & _ & Hv). destruct Hf as (Hl & He & Ht & Hfl).
      set (l' := (Lane.next_rr h now l).2) in *.
      assert (Hv' : filter elig (from_cursor l')
                    = filter elig (drop (S d) (from_cursor l)) ++ [s]).
      { rewrite Hv, filter_app, (take_S_r _ _ _ Hl), filter_app, Ht.
        cbn [app]. rewrite filter_cons, decide_True by exact He.
        now rewrite filter_nil. }
      rewrite Hfl in Hk |- *. cbn [length] in Hk.
      destruct (IH l' (next_rr_wf l Hwf)) as (Hres & Hrest & Hwf').
      { rewrite Hv', length_app. simpl. lia. }
      cbn [next_rr_n fst snd]. fold l'. rewrite Hr, Hres, Hrest, Hv'.
      rewrite !take_app_le, drop_app_le by lia.
      split; [reflexivity|]. split; [|exact Hwf'].
      cbn [take drop]. now rewrite <- app_assoc.
    + rewrite Hf in Hk. simpl in Hk. lia.
Qed.

End Traversal.

(** C6. On a lane as the scheduler keeps it, with [e] the eligible items
    ([backoff_until <= now]) in the order of one lap from the cursor: a call
    of [next_rr] returns the first of them, found at most one lap ahead, all
    items before it being backed off, and leaves the cursor just behind it;
    it returns none exactly when the lane is empty or every item is backed
    off; it changes nothing but the cursor. While the eligibility of the
    items stays what it is, [length e] calls in a row return each item of
    [e] once, in that order ([e] holds the eligible items of the lane, each
    once when the lane has no duplicates), and the next call returns the
    first of them again. *)
Theorem next_rr_round_robin (h : Heap) (now : Q) (l : Lane.t) :
  Lane_wf h l ->
  let e := filter (fun s => eligible h now s = true) (from_cursor l) in
  let n := length (Lane.items l) in
  (Lane.next_rr h now l).1 = Done (head e)
  /\ (head e = None
      <-> Lane.items l = []
          \/ Forall (fun s => eligible h now s = false) (Lane.items l))
  /\ (forall s, head e = Some s ->
        exists d, (d < n)%nat
          /\ Lane.items l !! ((Lane.i l + d) mod n)%nat = Some s
          /\ (forall j s', (j < d)%nat ->
                Lane.items l !! ((Lane.i l + j) mod n)%nat = Some s' ->
                eligible h now s' = false)
          /\ Lane.i (Lane.next_rr h now l).2 = ((Lane.i l + S d) mod n)%nat)
  /\ (Lane.items (Lane.next_rr h now l).2 = Lane.items l
      /\ Lane.kind (Lane.next_rr h now l).2 = Lane.kind l)
  /\ e ≡ₚ filter (fun s => eligible h now s = true) (Lane.items l)
  /\ (NoDup (Lane.items l) -> NoDup e)
  /\ (forall k, (k <= length e)%nat ->
        (next_rr_n h now l k).1 = map (fun s => Done (Some s)) (take k e))
  /\ (next_rr_n h now l (length e)).1 = map (fun s => Done (Some s)) e
  /\ (next_rr_n h now l (S (length e))).1
     = map (fun s => Done (Some s)) e ++ [Done (head e)].
Proof.
  intros Hwf e n.
  pose proof (next_rr_find h now l Hwf) as Hn.
  pose proof (find_filter h now (from_cursor l)) as Hf.
  assert (Hperm : from_cursor l ≡ₚ Lane.items l).
  { unfold from_cursor, rotate.
    rewrite Permutation_app_comm. now rewrite take_drop. }
  assert (Hlook : forall d, (d < n)%nat -> (Lane.i l < n)%nat ->
            from_cursor l !! d = Lane.items l !! ((Lane.i l + d) mod n)%nat).
  { intros d Hd Hi. unfold from_cursor. rewrite lookup_rotate_r by exact Hd.
    unfold rotate_nat_add. f_equal. fold n.
    rewrite <- Nat2Z.inj_add, <- Nat2Z.inj_mod. apply Nat2Z.id. }
  assert (Hlen : length (from_cursor l) = n) by apply length_rotate.
  split; [|split; [|split; [|split; [|split; [|split; [|split; [|split]]]]]]].
  - now apply next_rr_head.
  - subst e. split.
    + intros He. destruct (decide (Lane.items l = [])) as [E|E]; [now left|].
      right. apply Forall_forall. intros s Hs.
      destruct (eligible h now s) eqn:Es; [|reflexivity]. exfalso.
      assert (Hin : s ∈ filter (fun s => eligible h now s = true) (from_cursor l)).
      { apply list_elem_of_filter. split; [exact Es|]. now rewrite Hperm. }
      destruct (filter _ (from_cursor l)); [inversion Hin | discriminate].
    + intros [Hnil|Hall].
      * now rewrite (from_cursor_nil l Hnil).
      * destruct (filter _ (from_cursor l)) as [|s t] eqn:E; [reflexivity|].
        exfalso. assert (Hin : s ∈ s :: t) by left. rewrite <- E in Hin.
        apply list_elem_of_filter in Hin as [Es Hin]. rewrite Hperm in Hin.
        rewrite Forall_forall in Hall. specialize (Hall s Hin). congruence.
  - intros s Hs. subst e.
    destruct (list_find _ (from_cursor l)) as [[d s']|];
      [|rewrite Hf in Hs; discriminate].
    destruct Hf as (Hl & He & Ht & Hfl). rewrite Hfl in Hs. injection Hs as ->.
    destruct Hn as (_ & Hi' & _).
    assert (Hd : (d < n)%nat) by (apply lookup_lt_Some in Hl; lia).
    assert (Hi : (Lane.i l < n)%nat).
    { destruct Hwf as [[Hnil|Hi] _]; [|exact Hi].
      subst n. rewrite Hnil in Hd. simpl in Hd. lia. }
    exists d. split; [exact Hd|]. split; [now rewrite <- Hlook|].
    split; [|exact Hi'].
    intros j s' Hj Hs'. rewrite <- Hlook in Hs' by lia.
    destruct (eligible h now s') eqn:Es; [|reflexivity]. exfalso.
    assert (Hin : s' ∈ filter (fun s => eligible h now s = true)
                          (take d (from_cursor l))).
    { apply list_elem_of_filter. split; [exact Es|].
      apply list_elem_of_lookup. exists j. rewrite lookup_take_lt; assumption. }
    rewrite Ht in Hin. inversion Hin.
  - apply next_rr_items.
  - subst e. now rewrite Hperm.
  - intros Hnd. subst e. apply NoDup_filter. now rewrite Hperm.
  - intros k Hk. now apply next_rr_n_take.
  - rewrite (proj1 (next_rr_n_take h now (length e) l Hwf (le_n _))).
    fold e. now rewrite take_ge by lia.
  - destruct (next_rr_n_take h now (length e) l Hwf (le_n _)) as (Hres & Hrest & Hwf').
    fold e in Hres, Hrest. rewrite take_ge in Hres, Hrest by lia.
    rewrite drop_ge in Hrest by lia. cbn [app] in Hrest.
    assert (Hsnoc : forall k l0,
              (next_rr_n h now l0 (S k)).1
              = (next_rr_n h now l0 k).1
                ++ [(Lane.next_rr h now (next_rr_n h now l0 k).2).1]).
    { induction k as [|k IH]; intros l0; [reflexivity|].
      change (next_rr_n h now l0 (S (S k))).1
        with ((Lane.next_rr h now l0).1
              :: (next_rr_n h now (Lane.next_rr h now l0).2 (S k)).1).
      rewrite IH. reflexivity. }
    rewrite Hsnoc, Hres. f_equal. f_equal.
    pose proof (next_rr_find h now _ Hwf') as Hn'.
    pose proof (find_filter h now (from_cursor (next_rr_n h now l (length e)).2)) as Hf'.
    destruct (list_find _ (from_cursor (next_rr_n h now l (length e)).2))
      as [[d s]|].
    + destruct Hn' as (-> & _). destruct Hf' as (_ & _ & _ & Hfl).
      rewrite Hrest in Hfl. now rewrite Hfl.
    + rewrite Hn'. rewrite Hrest in Hf'. now rewrite Hf'.
Qed.

Lemma next_rr_round_robin_witness :
  (next_rr_n sample_heap 10 sample_lane_at_2 3).1
  = map (fun s => Done (Some s)) [2; 3; 0]%nat
  /\ (Lane.next_rr sample_heap 10 sample_lane_at_2).1 = Done (Some 2%nat).
Proof.
  assert (Hwf : Lane_wf sample_heap sample_lane_at_2).
  { split; [right; simpl; lia|].
    repeat (apply List.Forall_cons; [eexists; reflexivity|]). apply List.Forall_nil. }
  pose proof (next_rr_round_robin sample_heap 10 sample_lane_at_2 Hwf) as H.
  cbv zeta in H.
  destruct H as (H1 & _ & _ & _ & _ & _ & _ & Hall & _).
  split; [exact Hall | exact H1].
Defined.

(** ** Workers of one lane *)

Section Sharing.

Variables (MAX : Z) (BASE : Q).

Lemma workers_and_delay_cursor (s : Scheduler.t) (l l' : Lane.t) cfg st r1 r2 :
  Lane.items l' = Lane.items l ->
  Scheduler.cfg s = cfg ->
  workers_and_delay MAX s l'
  = workers_and_delay MAX
      {| Scheduler.cfg := cfg; Scheduler.state := st;
         Scheduler.rtsp := r1; Scheduler.http := r2 |} l.
Proof. intros E <-. unfold workers_and_delay. now rewrite E. Qed.

Lemma lane_of_with_lane s rl l : lane_of (with_lane s rl l) rl = l.
Proof. now destruct rl. Qed.

Lemma lane_of_with_lane_ne s rl l b :
  b <> rl -> lane_of (with_lane s rl l) b = lane_of s b.
Proof. destruct b, rl; intros H; try reflexivity; congruence. Qed.

(** The step of a worker that is handed an endpoint: it moves the cursor of
    its lane and notes the probe in its own state. *)
Lemma begin_selects (sys : Sys) (rl : bool) (wid : nat) (s : loc) (st : Stream.t) :
  let lane := lane_of (sched sys) rl in
  Z.of_nat wid < MAX ->
  worker_state sys (rl, wid) = Waiting ->
  Z.of_nat wid < (workers_and_delay MAX (sched sys) lane).1 ->
  Lane_wf (heap sys) lane ->
  head (filter (fun s => eligible (heap sys) (clock sys) s = true)
          (from_cursor lane)) = Some s ->
  heap sys !! s = Some st ->
  worker_loop_begin MAX sys rl wid
  = Some (with_worker
            (with_sched sys
               (with_lane (sched sys) rl
                  (Lane.next_rr (heap sys) (clock sys) lane).2))
            (rl, wid) (Probing s (Stream.is_rtsp st) (Stream.url st))).
Proof.
  intros lane Hmax Hw HW Hwf Hhd Hst. unfold worker_loop_begin. fold lane.
  rewrite (proj2 (Z.ltb_lt _ _) Hmax), Hw. cbn [negb].
  rewrite (proj2 (Z.leb_gt _ _) HW). cbn [orb].
  assert (Hne : Lane.items lane <> []).
  { intros E. rewrite (from_cursor_nil lane E) in Hhd. discriminate. }
  rewrite bool_decide_eq_false_2 by exact Hne.
  rewrite (next_rr_head (heap sys) (clock sys) lane Hwf), Hhd. cbn [heap with_sched]. rewrite Hst.
  assert (He : eligible (heap sys) (clock sys) s = true).
  { assert (Hin : s ∈ filter (fun s => eligible (heap sys) (clock sys) s = true)
                        (from_cursor lane)).
    { destruct (filter _ (from_cursor lane)); [discriminate|].
      injection Hhd as ->. left. }
    now apply list_elem_of_filter in Hin as [He _]. }
  unfold eligible in He. rewrite Hst in He.
  unfold Qlt_bool, with_sched. cbn [clock]. now rewrite He.
Qed.

End Sharing.

(** C7 (corrected). [next_rr] moves the cursor of its lane and writes
    nothing else, and the worker that called it changes no object: nothing
    marks the endpoint returned as being probed. So when the lane has two
    active workers and exactly one eligible endpoint, the two workers,
    starting one after the other, are both handed that endpoint, and both
    probes are in flight together. *)
Theorem begin_twice_same_endpoint (MAX : Z) (BASE : Q) (sys : Sys) (rl : bool)
    (s : loc) (st : Stream.t) :
  let lane := lane_of (sched sys) rl in
  1 < MAX ->
  worker_state sys (rl, 0%nat) = Waiting ->
  worker_state sys (rl, 1%nat) = Waiting ->
  2 <= (workers_and_delay MAX (sched sys) lane).1 ->
  Lane_wf (heap sys) lane ->
  filter (fun s => eligible (heap sys) (clock sys) s = true) (from_cursor lane)
  = [s] ->
  heap sys !! s = Some st ->
  (Lane.items (Lane.next_rr (heap sys) (clock sys) lane).2 = Lane.items lane
   /\ Lane.kind (Lane.next_rr (heap sys) (clock sys) lane).2 = Lane.kind lane)
  /\ exists sys',
       run MAX BASE sys [Begin rl 0; Begin rl 1] = Some sys'
       /\ heap sys' = heap sys
       /\ worker_state sys' (rl, 0%nat)
          = Probing s (Stream.is_rtsp st) (Stream.url st)
       /\ worker_state sys' (rl, 1%nat)
          = Probing s (Stream.is_rtsp st) (Stream.url st)
       /\ ~ exclusive sys'.
Proof.
  intros lane Hmax Hw0 Hw1 HW Hwf Hone Hst.
  split; [apply next_rr_items|].
  set (lane1 := (Lane.next_rr (heap sys) (clock sys) lane).2).
  set (sys1 := with_worker (with_sched sys (with_lane (sched sys) rl lane1))
                 (rl, 0%nat) (Probing s (Stream.is_rtsp st) (Stream.url st))).
  assert (H1 : worker_loop_begin MAX sys rl 0 = Some sys1).
  { apply begin_selects; try assumption; fold lane; try lia. now rewrite Hone. }
  assert (Hl1 : lane_of (sched sys1) rl = lane1) by apply lane_of_with_lane.
  destruct (next_rr_n_take (heap sys) (clock sys) 1 lane Hwf) as (_ & Hrest & Hwf1).
  { rewrite Hone. simpl. lia. }
  change (next_rr_n (heap sys) (clock sys) lane 1).2 with lane1 in Hrest, Hwf1.
  rewrite Hone in Hrest. cbn [drop take app] in Hrest.
  set (sys2 := with_worker (with_sched sys1 (with_lane (sched sys1) rl
                  (Lane.next_rr (heap sys1) (clock sys1) lane1).2))
                 (rl, 1%nat) (Probing s (Stream.is_rtsp st) (Stream.url st))).
  assert (H2 : worker_loop_begin MAX sys1 rl 1 = Some sys2).
  { unfold sys2. rewrite <- Hl1. apply begin_selects; rewrite ?Hl1;
      try assumption; try lia.
    - unfold worker_state, sys1, with_worker. cbn [workers].
      rewrite lookup_insert_ne by congruence. exact Hw1.
    - unfold sys1. cbn [sched with_worker with_sched].
      erewrite (workers_and_delay_cursor MAX _ lane lane1).
      + instantiate (1 := Scheduler.http (sched sys)).
        instantiate (1 := Scheduler.rtsp (sched sys)).
        instantiate (1 := Scheduler.state (sched sys)).
        instantiate (1 := Scheduler.cfg (sched sys)).
        destruct (sched sys). cbn. fold lane. lia.
      + apply next_rr_items.
      + reflexivity.
    - cbn [heap clock sys1 with_worker with_sched]. now rewrite Hrest. }
  exists sys2. split.
  { cbn [run step]. rewrite H1. cbn [mbind option_bind]. rewrite H2. reflexivity. }
  assert (Hp0 : worker_state sys2 (rl, 0%nat)
                = Probing s (Stream.is_rtsp st) (Stream.url st)).
  { unfold worker_state, sys2, with_worker, with_sched. cbn [workers].
    rewrite lookup_insert_ne by congruence.
    unfold sys1, with_worker. cbn [workers]. now rewrite lookup_insert_eq. }
  assert (Hp1 : worker_state sys2 (rl, 1%nat)
                = Probing s (Stream.is_rtsp st) (Stream.url st)).
  { unfold worker_state, sys2, with_worker. cbn [workers].
    now rewrite lookup_insert_eq. }
  split; [reflexivity|]. split; [exact Hp0|]. split; [exact Hp1|].
  intros Hex. specialize (Hex _ _ _ _ _ _ _ Hp0 Hp1). congruence.
Qed.

Lemma begin_twice_same_endpoint_witness :
  exists sys',
    run 32 5 one_eligible_sys [Begin true 0; Begin true 1] = Some sys'
    /\ worker_state sys' (true, 0%nat) = Probing 0%nat true "rtsp://10.0.0.1/live"
    /\ worker_state sys' (true, 1%nat) = Probing 0%nat true "rtsp://10.0.0.1/live".
Proof.
  assert (Hwf : Lane_wf (heap one_eligible_sys)
                  (lane_of (sched one_eligible_sys) true)).
  { split; [right; simpl; lia|].
    repeat (apply List.Forall_cons; [eexists; reflexivity|]). apply List.Forall_nil. }
  assert (HW : 2 <= (workers_and_delay 32 (sched one_eligible_sys)
                       (lane_of (sched one_eligible_sys) true)).1)
    by (vm_compute; discriminate).
  destruct (begin_twice_same_endpoint 32 5 one_eligible_sys true 0%nat
              (Stream.new "a" "rtsp://10.0.0.1/live")
              eq_refl eq_refl eq_refl HW Hwf eq_refl eq_refl)
    as (_ & sys' & Hrun & _ & H0 & H1 & _).
  exists sys'. split; [exact Hrun|]. split; [exact H0 | exact H1].
Defined.

(** The claim as stated fails. Six cameras, of which five refuse the
    connection, are probed by two workers; after three rounds both workers
    await a probe of the first camera. *)
Lemma one_probe_in_flight_counterexample :
  exists sys0 sys,
    run_monitor six_cameras = Done sys0
    /\ run 32 5 sys0 two_workers_one_camera = Some sys
    /\ worker_state sys (true, 0%nat) = Probing 0%nat true "rtsp://10.0.0.1/live"
    /\ worker_state sys (true, 1%nat) = Probing 0%nat true "rtsp://10.0.0.1/live"
    /\ ~ exclusive sys.
Proof.
  eexists _, _. split; [vm_compute; reflexivity|].
  split; [vm_compute; reflexivity|].
  assert (H0 : forall sys w ws, workers sys !! w = Some ws -> worker_state sys w = ws).
  { intros sys w ws H. unfold worker_state. now rewrite H. }
  split; [apply H0; vm_compute; reflexivity|].
  split; [apply H0; vm_compute; reflexivity|].
  intros Hex.
  assert (E : (true, 0%nat) = (true, 1%nat)).
  { eapply Hex; apply H0; vm_compute; reflexivity. }
  discriminate E.
Qed.

(** ** Reconciliation *)

Lemma keeps_refl h : keeps h h.
Proof. split; [lia|]. intros l s Hs. now exists s. Qed.

Lemma keeps_trans h1 h2 h3 : keeps h1 h2 -> keeps h2 h3 -> keeps h1 h3.
Proof.
  intros [L12 K12] [L23 K23]. split; [lia|]. intros l s Hs.
  destruct (K12 l s Hs) as (s2 & Hs2 & E2).
  destruct (K23 l s2 Hs2) as (s3 & Hs3 & E3).
  exists s3. split; [exact Hs3 | congruence].
Qed.

Lemma keeps_alter_url h l u : keeps h (alter (Stream.set_url u) l h).
Proof.
  split; [now rewrite length_alter|]. intros l' s Hs.
  destruct (decide (l = l')) as [<-|Hne].
  - exists (Stream.set_url u s). split; [|reflexivity].
    rewrite list_lookup_alter_eq, Hs. reflexivity.
  - exists s. split; [|reflexivity]. now rewrite list_lookup_alter_ne.
Qed.

Lemma keeps_alloc h s : keeps h (alloc h s).1.
Proof.
  split; [simpl; rewrite length_app; lia|]. intros l s' Hs'.
  exists s'. split; [|reflexivity]. simpl. now apply lookup_app_l_Some.
Qed.

Lemma init_db_cons e rest :
  init_db (e :: rest) = Done tt ->
  exists n u, entry_name e = Some n /\ entry_url e = Some u
              /\ init_db rest = Done tt.
Proof.
  simpl. destruct (entry_name e) as [n|], (entry_url e) as [u|];
    try discriminate. intros H. now exists n, u.
Qed.

Lemma State_wf_alter_url h st l u :
  State_wf h st -> State_wf (alter (Stream.set_url u) l h) st.
Proof.
  intros Hwf n l' Hn. destruct (Hwf n l' Hn) as (s & Hs & Hname).
  destruct (keeps_alter_url h l u) as [_ K].
  destruct (K l' s Hs) as (s' & Hs' & E). exists s'. split; [exact Hs'|].
  unfold backoff_state in E. congruence.
Qed.

Lemma State_wf_alloc h st n u :
  State_wf h st ->
  State_wf (alloc h (Stream.new n u)).1 (<[n := (alloc h (Stream.new n u)).2]> st).
Proof.
  intros Hwf m l Hm. simpl in *.
  destruct (decide (n = m)) as [<-|Hne].
  - rewrite lookup_insert_eq in Hm. injection Hm as <-.
    exists (Stream.new n u). split; [|reflexivity].
    rewrite lookup_app_r by lia. now rewrite Nat.sub_diag.
  - rewrite lookup_insert_ne in Hm by exact Hne.
    destruct (Hwf m l Hm) as (s & Hs & Hname). exists s. split; [|exact Hname].
    now apply lookup_app_l_Some.
Qed.

Section Sync.

(** What the first loop of the reload leaves behind, for entries that all
    carry a name and a URL. *)
Lemma sync_streams_spec (entries : list Entry) :
  forall h st names,
    State_wf h st ->
    init_db entries = Done tt ->
    let r := sync_streams entries h st names in
    let h' := r.2.1.1 in
    let st' := r.2.1.2 in
    r.1 = None
    /\ r.2.2 = list_to_set (entry_names entries) ∪ names
    /\ State_wf h' st'
    /\ keeps h h'
    /\ (forall n l, st !! n = Some l -> st' !! n = Some l)
    /\ (forall n l, st' !! n = Some l -> st !! n = None ->
          (length h <= l)%nat /\ n ∈ entry_names entries
          /\ exists s', h' !! l = Some s'
                        /\ backoff_state s' = (n, 0, 0%Q))
    /\ (forall l s, h !! l = Some s ->
          Stream.name s ∉ entry_names entries -> h' !! l = Some s)
    /\ (forall n, n ∈ entry_names entries ->
          exists l s' e,
            st' !! n = Some l /\ h' !! l = Some s'
            /\ family_of_url s'
            /\ e ∈ entries /\ entry_name e = Some n
            /\ entry_url e = Some (Stream.url s')).
Proof.
  induction entries as [|e rest IH]; intros h st names Hwf Hdb.
  - cbn. split_and!; try done.
    + set_solver.
    + apply keeps_refl.
    + intros n l Hn Hnone. congruence.
    + intros n Hn. inversion Hn.
  - destruct (init_db_cons e rest Hdb) as (n0 & u0 & Hn0 & Hu0 & Hrest).
    cbv zeta. simpl sync_streams. rewrite Hn0, Hu0.
    assert (Hnames : entry_names (e :: rest) = n0 :: entry_names rest).
    { unfold entry_names. simpl. now rewrite Hn0. }
    rewrite Hnames.
    destruct (st !! n0) as [l0|] eqn:Hl0.
    + (* a known name: its object is updated in place *)
      set (h1 := alter (Stream.set_url u0) l0 h).
      assert (Hwf1 : State_wf h1 st) by now apply State_wf_alter_url.
      specialize (IH h1 st ({[n0]} ∪ names) Hwf1 Hrest). cbv zeta in IH.
      destruct IH as (I1 & I2 & I3 & I4 & I5 & I6 & I7 & I8).
      cbv zeta. split_and!; try assumption.
      * rewrite I2. set_solver.
      * eapply keeps_trans; [apply keeps_alter_url | exact I4].
      * intros n l Hn Hnone. destruct (I6 n l Hn Hnone) as (Hlen & Hin & Hs').
        split; [unfold h1 in Hlen; now rewrite length_alter in Hlen|].
        split; [now right | exact Hs'].
      * intros l s Hs Hnot. apply I7.
        -- unfold h1. rewrite list_lookup_alter_ne; [exact Hs|].
           intros <-. destruct (Hwf n0 l0 Hl0) as (s0 & Hs0 & Hname).
           rewrite Hs in Hs0. injection Hs0 as <-.
           apply Hnot. rewrite Hname. left.
        -- intros Hin. apply Hnot. now right.
      * intros n Hn. destruct (decide (n ∈ entry_names rest)) as [Hin|Hnin].
        -- destruct (I8 n Hin) as (l & s' & e' & H1 & H2 & H3 & H4 & H5 & H6).
           exists l, s', e'. split_and!; try assumption. now right.
        -- apply elem_of_cons in Hn as [->|Hn]; [|contradiction].
           destruct (Hwf n0 l0 Hl0) as (s0 & Hs0 & Hname).
           exists l0, (Stream.set_url u0 s0), e. split_and!.
           ++ now apply I5.
           ++ apply I7; [|simpl; congruence].
              unfold h1. rewrite list_lookup_alter_eq, Hs0. reflexivity.
           ++ reflexivity.
           ++ left.
           ++ exact Hn0.
           ++ exact Hu0.
    + (* a new name: a new object *)
      set (h1 := (alloc h (Stream.new n0 u0)).1).
      set (st1 := <[n0 := (alloc h (Stream.new n0 u0)).2]> st).
      assert (Hwf1 : State_wf h1 st1) by now apply State_wf_alloc.
      cbn [alloc]. fold (alloc h (Stream.new n0 u0)).
      change (h ++ [Stream.new n0 u0]) with h1.
      change (<[n0 := length h]> st) with st1.
      specialize (IH h1 st1 ({[n0]} ∪ names) Hwf1 Hrest). cbv zeta in IH.
      destruct IH as (I1 & I2 & I3 & I4 & I5 & I6 & I7 & I8).
      assert (Hnew : h1 !! length h = Some (Stream.new n0 u0)).
      { unfold h1. simpl. rewrite lookup_app_r by lia. now rewrite Nat.sub_diag. }
      assert (Hst1 : st1 !! n0 = Some (length h)).
      { unfold st1. simpl. apply lookup_insert_eq. }
      cbv zeta. split_and!; try assumption.
      * rewrite I2. set_solver.
      * eapply keeps_trans; [apply keeps_alloc | exact I4].
      * intros n l Hn. apply I5. unfold st1.
        rewrite lookup_insert_ne; [exact Hn | congruence].
      * intros n l Hn Hnone. destruct (decide (n = n0)) as [->|Hne].
        -- pose proof (I5 n0 _ Hst1) as Hl. rewrite Hl in Hn. injection Hn as <-.
           split; [lia|]. split; [left|].
           destruct I4 as [_ K]. destruct (K _ _ Hnew) as (s' & Hs' & E).
           exists s'. split; [exact Hs' | exact E].
        -- assert (Hnone1 : st1 !! n = None).
           { unfold st1. rewrite lookup_insert_ne; [exact Hnone | congruence]. }
           destruct (I6 n l Hn Hnone1) as (Hlen & Hin & Hs').
           split; [unfold h1 in Hlen; simpl in Hlen; rewrite length_app in Hlen; lia|].
           split; [now right | exact Hs'].
      * intros l s Hs Hnot. apply I7.
        -- unfold h1. simpl. now apply lookup_app_l_Some.
        -- intros Hin. apply Hnot. now right.
      * intros n Hn. destruct (decide (n ∈ entry_names rest)) as [Hin|Hnin].
        -- destruct (I8 n Hin) as (l & s' & e' & H1 & H2 & H3 & H4 & H5 & H6).
           exists l, s', e'. split_and!; try assumption. now right.
        -- apply elem_of_cons in Hn as [->|Hn]; [|contradiction].
           exists (length h), (Stream.new n0 u0), e. split_and!.
           ++ now apply I5.
           ++ apply I7; [exact Hnew | exact Hnin].
           ++ reflexivity.
           ++ left.
           ++ exact Hn0.
           ++ exact Hu0.
Qed.

End Sync.

(** The lanes [rebuild] leaves: the objects of the state, by family, with the
    cursors at the start. *)
Lemma rebuild_lanes (h : Heap) (s : Scheduler.t) :
  Scheduler.cfg (rebuild h s) = Scheduler.cfg s
  /\ Scheduler.state (rebuild h s) = Scheduler.state s
  /\ Lane.i (Scheduler.rtsp (rebuild h s)) = 0%nat
  /\ Lane.i (Scheduler.http (rebuild h s)) = 0%nat
  /\ forall l b,
       l ∈ Lane.items (lane_of (rebuild h s) b)
       <-> exists n st, Scheduler.state s !! n = Some l /\ h !! l = Some st
                        /\ Stream.is_rtsp st = b.
Proof.
  split_and!; try reflexivity. intros l b.
  assert (Hv : forall v, v ∈ state_values h (Scheduler.state s)
                 <-> exists n, Scheduler.state s !! n = Some v.1
                               /\ h !! v.1 = Some v.2).
  { intros [l' st]. unfold state_values. rewrite list_elem_of_omap. split.
    - intros (x & Hx & Hf). apply list_elem_of_fmap in Hx as ([n x'] & -> & Hx).
      apply elem_of_map_to_list in Hx. simpl in Hf.
      destruct (h !! x') as [st'|] eqn:E; simpl in Hf; [|discriminate].
      injection Hf as <- <-. exists n. now split.
    - simpl. intros (n & Hn & Hl). exists l'. split.
      + apply list_elem_of_fmap. exists (n, l'). split; [reflexivity|].
        now apply elem_of_map_to_list.
      + rewrite Hl. reflexivity. }
  destruct b; cbn [lane_of rebuild Scheduler.rtsp Scheduler.http Lane.set Lane.items];
    unfold sorted_by_name; rewrite list_elem_of_fmap; split.
  - intros ([l' st] & -> & Hin). rewrite merge_sort_Permutation in Hin.
    apply list_elem_of_filter in Hin as [Hp Hin]. apply Hv in Hin as (n & Hn & Hl).
    exists n, st. now split_and!.
  - intros (n & st & Hn & Hl & Hb). exists (l, st). split; [reflexivity|].
    rewrite merge_sort_Permutation. apply list_elem_of_filter. split; [exact Hb|].
    apply Hv. now exists n.
  - intros ([l' st] & -> & Hin). rewrite merge_sort_Permutation in Hin.
    apply list_elem_of_filter in Hin as [Hp Hin]. apply Hv in Hin as (n & Hn & Hl).
    exists n, st. now split_and!.
  - intros (n & st & Hn & Hl & Hb). exists (l, st). split; [reflexivity|].
    rewrite merge_sort_Permutation. apply list_elem_of_filter. split; [exact Hb|].
    apply Hv. now exists n.
Qed.

Lemma remove_missing_lookup (st : gmap string loc) (names : gset string) n :
  remove_missing st names !! n
  = if decide (n ∈ names) then st !! n else None.
Proof.
  unfold remove_missing. case_decide as Hn.
  - destruct (st !! n) as [l|] eqn:E.
    + apply map_lookup_filter_Some. now split.
    + apply map_lookup_filter_None. left. exact E.
  - apply map_lookup_filter_None. right. intros l _. exact Hn.
Qed.

(** C8 (corrected). When the file has changed and every entry carries a name
    and a URL, the reload leaves: for a name present before and after, the
    same object with the same BackoffState, its URL replaced by the URL of an
    entry of that name and its family recomputed from that URL, in place;
    for a name absent from the new file, no entry in the state and no place
    in a lane; for a new name, a new object with no failure and
    [backoff_until = 0]; and lanes that hold exactly the objects of the
    state, by family. *)
Theorem reload_reconciles (file : io RawConfig) (h : Heap) (s : Scheduler.t)
    (new : Config) :
  State_wf h (Scheduler.state s) ->
  read_cfg file = Done new ->
  new <> Scheduler.cfg s ->
  init_db (streams new) = Done tt ->
  let r := reloader file h s in
  let h' := r.2.1 in
  let s' := r.2.2 in
  let names := entry_names (streams new) in
  (r.1 = None /\ Scheduler.cfg s' = new /\ State_wf h' (Scheduler.state s')
   /\ keeps h h')
  /\ (forall n l, Scheduler.state s !! n = Some l -> n ∈ names ->
        Scheduler.state s' !! n = Some l
        /\ exists s0 s1 e,
             h !! l = Some s0 /\ h' !! l = Some s1
             /\ backoff_state s1 = backoff_state s0
             /\ e ∈ streams new /\ entry_name e = Some n
             /\ entry_url e = Some (Stream.url s1)
             /\ Stream.is_rtsp s1 = rtsp_url (Stream.url s1))
  /\ (forall n, n ∉ names -> Scheduler.state s' !! n = None)
  /\ (forall n l b, Scheduler.state s !! n = Some l -> n ∉ names ->
        l ∉ Lane.items (lane_of s' b))
  /\ (forall n, Scheduler.state s !! n = None -> n ∈ names ->
        exists l s1,
          Scheduler.state s' !! n = Some l /\ (length h <= l)%nat
          /\ h' !! l = Some s1 /\ backoff_state s1 = (n, 0, 0%Q)
          /\ Stream.is_rtsp s1 = rtsp_url (Stream.url s1))
  /\ (forall l b,
        l ∈ Lane.items (lane_of s' b)
        <-> exists n s1, Scheduler.state s' !! n = Some l /\ h' !! l = Some s1
                         /\ Stream.is_rtsp s1 = b).
Proof.
  intros Hwf Hread Hnew Hdb. unfold reloader. rewrite Hread.
  rewrite decide_False by exact Hnew. rewrite Hdb.
  cbn [Scheduler.state Scheduler.rtsp Scheduler.http Scheduler.cfg].
  pose proof (sync_streams_spec (streams new) h (Scheduler.state s) ∅ Hwf Hdb) as Hs.
  cbv zeta in Hs.
  destruct (sync_streams (streams new) h (Scheduler.state s) ∅)
    as [ex [[h1 st1] names1]].
  cbn [fst snd] in Hs. destruct Hs as (-> & -> & W1 & K1 & M1 & N1 & U1 & E1).
  cbn [fst snd]. cbv zeta.
  set (st2 := remove_missing st1 (list_to_set (entry_names (streams new)) ∪ ∅)).
  set (s2 := {| Scheduler.cfg := new; Scheduler.state := st2;
                Scheduler.rtsp := Scheduler.rtsp s;
                Scheduler.http := Scheduler.http s |}).
  destruct (rebuild_lanes h1 s2) as (Rc & Rs & _ & _ & Rl).
  assert (Hst2 : forall n, st2 !! n
                   = if decide (n ∈ entry_names (streams new))
                     then st1 !! n else None).
  { intros n. unfold st2. rewrite remove_missing_lookup.
    destruct (decide (n ∈ entry_names (streams new))) as [Hin|Hnin].
    - rewrite decide_True by set_solver. reflexivity.
    - rewrite decide_False by set_solver. reflexivity. }
  assert (W2 : State_wf h1 st2).
  { intros n l Hn. rewrite Hst2 in Hn. case_decide; [|discriminate].
    now apply W1. }
  rewrite Rs, Rc. cbn [Scheduler.state Scheduler.cfg s2].
  split; [split_and!; try done|]. split_and!.
  - intros n l Hn Hin. split.
    + rewrite Hst2, decide_True by exact Hin. now apply M1.
    + destruct (Hwf n l Hn) as (s0 & Hs0 & Hname).
      destruct K1 as [_ K1]. destruct (K1 l s0 Hs0) as (s1 & Hs1 & Eb).
      destruct (E1 n Hin) as (l' & s1' & e & Hl' & Hs1' & Hf & He & Hen & Heu).
      rewrite (M1 n l Hn) in Hl'. injection Hl' as <-.
      rewrite Hs1 in Hs1'. injection Hs1' as <-.
      exists s0, s1, e. now split_and!.
  - intros n Hnin. rewrite Hst2. now rewrite decide_False.
  - intros n l b Hn Hnin Hl. apply Rl in Hl as (n' & s1 & Hn' & Hs1 & _).
    cbn [Scheduler.state s2] in Hn'. rewrite Hst2 in Hn'.
    case_decide as Hin'; [|discriminate].
    destruct (W1 n' l Hn') as (s1' & Hs1' & Hname1).
    destruct (Hwf n l Hn) as (s0 & Hs0 & Hname0).
    destruct K1 as [_ K1]. destruct (K1 l s0 Hs0) as (s1'' & Hs1'' & Eb).
    rewrite Hs1' in Hs1''. injection Hs1'' as <-.
    unfold backoff_state in Eb. injection Eb as En _ _.
    apply Hnin. congruence.
  - intros n Hnone Hin.
    destruct (E1 n Hin) as (l & s1 & e & Hl & Hs1 & Hf & _).
    destruct (N1 n l Hl Hnone) as (Hlen & _ & s1' & Hs1' & Eb).
    rewrite Hs1 in Hs1'. injection Hs1' as <-.
    exists l, s1. split_and!; try assumption.
    rewrite Hst2. now rewrite decide_True.
  - intros l b. rewrite Rl. reflexivity.
Qed.

Lemma reload_reconciles_witness :
  let r := reloader (one_camera "http://10.0.0.7/video") cam1_heap cam1_sched in
  Scheduler.state r.2.2 !! "cam1"%string = Some 0%nat
  /\ exists s1, r.2.1 !! 0%nat = Some s1
                /\ backoff_state s1 = backoff_state (sample_stream 1 10).
Proof.
  assert (Hwf : State_wf cam1_heap (Scheduler.state cam1_sched)).
  { intros n l Hn. unfold cam1_sched in Hn. cbn [Scheduler.state] in Hn.
    apply lookup_singleton_Some in Hn as [<- <-].
    exists (sample_stream 1 10). split; reflexivity. }
  pose proof (reload_reconciles (one_camera "http://10.0.0.7/video")
                cam1_heap cam1_sched _ Hwf eq_refl) as H.
  specialize (H ltac:(discriminate) eq_refl). cbv zeta in H.
  destruct H as (_ & Hkept & _).
  destruct (Hkept "cam1"%string 0%nat) as (Hst & s0 & s1 & e & Hs0 & Hs1 & Hb & _).
  - apply lookup_singleton_eq.
  - left.
  - cbv zeta. split; [exact Hst|]. exists s1. split; [exact Hs1|].
    injection Hs0 as <-. exact Hb.
Defined.

(** The claim as stated fails. A camera that has failed once over RTSP is
    given an HTTP URL in the file: after the reload the same object, at the
    same address and under the same name, is an HTTP endpoint, still with
    one failure and backed off until time 10, and it stands in the HTTP
    lane. *)
Lemma family_change_counterexample :
  cam1_heap !! 0%nat
  = Some {| Stream.name := "cam1"; Stream.url := "rtsp://10.0.0.7/live";
            Stream.is_rtsp := true; Stream.fails := 1;
            Stream.backoff_until := 10 |}
  /\ (reloader (one_camera "http://10.0.0.7/video") cam1_heap cam1_sched).1 = None
  /\ (reloader (one_camera "http://10.0.0.7/video") cam1_heap cam1_sched).2.1
     = [{| Stream.name := "cam1"; Stream.url := "http://10.0.0.7/video";
           Stream.is_rtsp := false; Stream.fails := 1;
           Stream.backoff_until := 10 |}]
  /\ Lane.items (Scheduler.http
       (reloader (one_camera "http://10.0.0.7/video") cam1_heap cam1_sched).2.2)
     = [0%nat]
  /\ Lane.items (Scheduler.rtsp
       (reloader (one_camera "http://10.0.0.7/video") cam1_heap cam1_sched).2.2)
     = [].
Proof. vm_compute. repeat split; reflexivity. Qed.

(** ** A configuration that cannot be read *)

Section DeadReloader.

Variables (MAX : Z) (BASE : Q).

(** No step of a worker and no passing of time touches the configuration,
    the state dictionary or the reloader. *)
Lemma step_keeps_reloader (sys sys' : Sys) (ev : Event) (e : exn) :
  reloader_task sys = Some e ->
  step MAX BASE sys ev = Some sys' ->
  reloader_task sys' = Some e
  /\ Scheduler.cfg (sched sys') = Scheduler.cfg (sched sys)
  /\ Scheduler.state (sched sys') = Scheduler.state (sched sys).
Proof.
  intros Hr Hstep. destruct ev as [dt|rl wid|rl wid net|file]; cbn [step] in Hstep.
  - destruct (Qle_bool 0 dt); [|discriminate]. injection Hstep as <-. now cbn.
  - unfold worker_loop_begin in Hstep.
    repeat (case_match; try discriminate);
      injection Hstep as <-; cbn; now destruct rl.
  - unfold worker_loop_finish in Hstep.
    destruct (worker_state sys (rl, wid)); try discriminate.
    destruct (probe_cycle _ _ _ _ _ _ _); [|discriminate].
    injection Hstep as <-. now cbn.
  - rewrite Hr in Hstep. discriminate.
Qed.

Lemma run_keeps_reloader (evs : list Event) :
  forall (sys sys' : Sys) (e : exn),
    reloader_task sys = Some e ->
    run MAX BASE sys evs = Some sys' ->
    reloader_task sys' = Some e
    /\ Scheduler.cfg (sched sys') = Scheduler.cfg (sched sys)
    /\ Scheduler.state (sched sys') = Scheduler.state (sched sys).
Proof.
  induction evs as [|ev evs IH]; intros sys sys' e Hr Hrun.
  - injection Hrun as <-. now split_and!.
  - cbn [run] in Hrun.
    destruct (step MAX BASE sys ev) as [sys1|] eqn:Hstep; [|discriminate].
    cbn in Hrun.
    destruct (step_keeps_reloader sys sys1 ev e Hr Hstep) as (Hr1 & Hc1 & Hs1).
    destruct (IH sys1 sys' e Hr1 Hrun) as (Hr' & Hc' & Hs').
    split_and!; congruence.
Qed.

End DeadReloader.

(** C9 (the code at the failing input). When opening or parsing the file
    raises, the exception leaves [read_cfg] and ends the reloader task:
    heap, scheduler and workers are as they were, but no later round of the
    reloader runs, and whatever happens afterwards the configuration and the
    state dictionary stay those of that moment, a corrected file included. *)
Theorem reloader_ends_on_unreadable_config (MAX : Z) (BASE : Q) (sys : Sys)
    (e : exn) :
  reloader_task sys = None ->
  exists sys',
    step MAX BASE sys (Reload (Raise e)) = Some sys'
    /\ reloader_task sys' = Some e
    /\ heap sys' = heap sys /\ sched sys' = sched sys
    /\ workers sys' = workers sys
    /\ (forall file, step MAX BASE sys' (Reload file) = None)
    /\ (forall evs sys'',
          run MAX BASE sys' evs = Some sys'' ->
          reloader_task sys'' = Some e
          /\ Scheduler.cfg (sched sys'') = Scheduler.cfg (sched sys)
          /\ Scheduler.state (sched sys'') = Scheduler.state (sched sys)).
Proof.
  intros Hr. cbn [step]. rewrite Hr. unfold reloader. cbn.
  eexists. split; [reflexivity|]. cbn. split_and!; try reflexivity.
  intros evs sys'' Hrun.
  eapply (run_keeps_reloader MAX BASE evs _ sys'' e) in Hrun; [|reflexivity].
  exact Hrun.
Qed.

Lemma reloader_ends_on_unreadable_config_witness :
  exists sys0 sys',
    run_monitor six_cameras = Done sys0
    /\ step 32 5 sys0 (Reload broken_yaml) = Some sys'
    /\ reloader_task sys'
       = Some (Exception "while parsing a flow sequence: expected ',' or ']'")
    /\ step 32 5 sys' (Reload (one_camera "rtsp://10.0.0.7/live")) = None.
Proof.
  destruct (run_monitor six_cameras) as [sys0|] eqn:Hboot; [|discriminate Hboot].
  assert (Hr : reloader_task sys0 = None).
  { vm_compute in Hboot. injection Hboot as <-. reflexivity. }
  destruct (reloader_ends_on_unreadable_config 32 5 sys0
              (Exception "while parsing a flow sequence: expected ',' or ']'") Hr)
    as (sys' & Hstep & Hdead & _ & _ & _ & Hno & _).
  exists sys0, sys'. split; [reflexivity|]. split; [exact Hstep|].
  split; [exact Hdead | apply Hno].
Defined.

(** The start-up path catches the same failure and goes on with a default
    configuration; and a file whose entry lacks its URL ends the reloader
    after the new configuration has replaced the old one, with the state
    dictionary still the old one. *)
Example config_failures :
  load_config_with_mqtt_support broken_yaml
  = {| heartbeat_seconds := 20; timezone := "UTC"; streams := []; mqtt := None |}
  /\ reloader broken_yaml cam1_heap cam1_sched
     = (Some (Exception "while parsing a flow sequence: expected ',' or ']'"),
        (cam1_heap, cam1_sched))
  /\ (reloader missing_url cam1_heap cam1_sched).1 = Some (Exception "'url'")
  /\ heartbeat_seconds (Scheduler.cfg (reloader missing_url cam1_heap cam1_sched).2.2)
     = 30
  /\ heartbeat_seconds (Scheduler.cfg cam1_sched) = 10
  /\ Scheduler.state (reloader missing_url cam1_heap cam1_sched).2.2
     = Scheduler.state cam1_sched.
Proof. split_and!; reflexivity. Qed.

(** ** Every state the system reaches is well formed *)

Lemma State_wf_inj h st n1 n2 l :
  State_wf h st -> st !! n1 = Some l -> st !! n2 = Some l -> n1 = n2.
Proof.
  intros Hwf H1 H2. destruct (Hwf n1 l H1) as (s1 & Hs1 & <-).
  destruct (Hwf n2 l H2) as (s2 & Hs2 & <-). congruence.
Qed.

Lemma state_values_NoDup h st :
  State_wf h st -> NoDup (state_values h st).*1.
Proof.
  intros Hwf. unfold state_values.
  assert (Hnd : NoDup (map_to_list st).*2).
  { apply NoDup_fmap_2_strong; [|apply NoDup_map_to_list].
    intros [n1 l1] [n2 l2] H1 H2 E. simpl in E. subst l2.
    apply elem_of_map_to_list in H1, H2.
    f_equal. eapply State_wf_inj; eauto. }
  induction Hnd as [|l ls Hl Hnd IH]; simpl; [constructor|].
  destruct (h !! l) as [s|]; simpl; [|exact IH].
  constructor; [|exact IH].
  intros Hin. apply Hl. apply list_elem_of_fmap in Hin as ([l' s'] & -> & Hin).
  apply list_elem_of_omap in Hin as (x & Hx & Hf).
  destruct (h !! x); simpl in Hf; [|discriminate]. now injection Hf as -> ->.
Qed.

Lemma sorted_by_name_NoDup (P : loc * Stream.t -> Prop)
    `{!forall v, Decision (P v)} (vs : list (loc * Stream.t)) :
  NoDup vs.*1 -> NoDup (sorted_by_name (filter P vs)).
Proof.
  intros Hnd. unfold sorted_by_name.
  rewrite merge_sort_Permutation.
  induction vs as [|v vs IH]; [constructor|].
  apply NoDup_cons in Hnd as [Hv Hnd]. rewrite filter_cons.
  case_decide; [|now apply IH]. simpl. constructor; [|now apply IH].
  intros Hin. apply Hv. apply list_elem_of_fmap in Hin as (v' & -> & Hin).
  apply list_elem_of_filter in Hin as [_ Hin].
  apply list_elem_of_fmap. now exists v'.
Qed.

Lemma rebuild_wf h s :
  State_wf h (Scheduler.state s) ->
  forall b, Lane_wf h (lane_of (rebuild h s) b)
            /\ NoDup (Lane.items (lane_of (rebuild h s) b)).
Proof.
  intros Hwf b. destruct (rebuild_lanes h s) as (_ & _ & Hi1 & Hi2 & Hl).
  split; [split|].
  - destruct (Lane.items (lane_of (rebuild h s) b)) eqn:E; [now left|right].
    destruct b; cbn [lane_of] in *; rewrite ?Hi1, ?Hi2; simpl; lia.
  - apply Forall_forall. intros l Hin. apply Hl in Hin as (n & st & _ & Hst & _).
    now exists st.
  - pose proof (state_values_NoDup h (Scheduler.state s) Hwf) as Hnd.
    destruct b; cbn [lane_of rebuild Scheduler.rtsp Scheduler.http Lane.set Lane.items];
      now apply sorted_by_name_NoDup.
Qed.

Lemma initial_state_wf entries :
  forall h st r,
    State_wf h st -> initial_state entries h st = Done r -> State_wf r.1 r.2.
Proof.
  induction entries as [|e rest IH]; intros h st r Hwf Hr.
  - injection Hr as <-. exact Hwf.
  - cbn [initial_state] in Hr.
    destruct (entry_name e) as [n|]; [|discriminate].
    destruct (entry_url e) as [u|]; [|discriminate].
    cbn [alloc] in Hr. eapply IH; [|exact Hr].
    exact (State_wf_alloc h st n u Hwf).
Qed.

Lemma insert_keeps_lookup (h : Heap) (s l : loc) (st' : Stream.t) :
  is_Some (h !! s) -> is_Some (h !! l) -> is_Some (<[s := st']> h !! l).
Proof.
  intros Hs Hl. apply lookup_lt_is_Some. rewrite length_insert.
  now apply lookup_lt_is_Some.
Qed.

Section Reachable.

Variables (MAX : Z) (BASE : Q).

Lemma run_monitor_wf file sys : run_monitor file = Done sys -> Sys_wf sys.
Proof.
  unfold run_monitor, Scheduler_init. intros H.
  destruct (init_db _); [|discriminate]. cbn in H.
  destruct (initial_state _ [] ∅) as [[h st]|] eqn:Hi; [|discriminate].
  cbn in H. injection H as <-. cbn [heap sched workers].
  assert (Hwf : State_wf h st).
  { change h with (h, st).1. change st with (h, st).2 at 2.
    eapply initial_state_wf; [|exact Hi].
    intros n l Hn. rewrite lookup_empty in Hn. discriminate. }
  split_and!.
  - exact Hwf.
  - intros b. now apply rebuild_wf.
  - intros b. now apply rebuild_wf.
  - intros w s r u Hw. unfold worker_state in Hw. cbn [workers] in Hw.
    rewrite lookup_empty in Hw. discriminate.
Qed.

Lemma worker_state_insert sys w ws w' :
  worker_state (with_worker sys w ws) w'
  = if decide (w = w') then ws else worker_state sys w'.
Proof.
  unfold worker_state, with_worker. cbn [workers].
  case_decide as E; [subst; now rewrite lookup_insert_eq|].
  now rewrite lookup_insert_ne.
Qed.

Lemma begin_wf sys sys' rl wid :
  Sys_wf sys -> worker_loop_begin MAX sys rl wid = Some sys' -> Sys_wf sys'.
Proof.
  intros (Hst & Hl & Hnd & Hw) Hb. unfold worker_loop_begin in Hb.
  destruct (negb _); [discriminate|].
  destruct (worker_state sys (rl, wid)) eqn:Hws; try discriminate.
  destruct (_ || _); [injection Hb as <-; now split_and!|].
  set (lane := lane_of (sched sys) rl) in *.
  set (r := Lane.next_rr (heap sys) (clock sys) lane) in *.
  assert (Hlanes : forall b,
            Lane_wf (heap sys) (lane_of (with_lane (sched sys) rl r.2) b)
            /\ NoDup (Lane.items (lane_of (with_lane (sched sys) rl r.2) b))).
  { intros b. destruct (decide (b = rl)) as [->|Hne].
    - rewrite lane_of_with_lane. unfold r, lane.
      split; [apply next_rr_wf, Hl|].
      rewrite (proj1 (next_rr_items _ _ _)). apply Hnd.
    - rewrite lane_of_with_lane_ne by exact Hne.
      split; [apply Hl | apply Hnd]. }
  assert (Hbase : Sys_wf (with_sched sys (with_lane (sched sys) rl r.2))).
  { split_and!; try (intros b; apply Hlanes).
    - destruct rl; exact Hst.
    - exact Hw. }
  assert (Hset : forall ws,
            (forall s r' u, ws = Probing s r' u -> is_Some (heap sys !! s)) ->
            Sys_wf (with_worker (with_sched sys (with_lane (sched sys) rl r.2))
                      (rl, wid) ws)).
  { intros ws Hws'. destruct Hbase as (B1 & B2 & B3 & B4).
    split_and!; try assumption.
    intros w s r' u Hp. rewrite worker_state_insert in Hp.
    case_decide; [now apply (Hws' s r' u) | now apply (B4 w s r' u)]. }
  destruct r.1 as [[s|]|e].
  - cbn [heap with_sched] in Hb. destruct (heap sys !! s) as [st|] eqn:Hs.
    + destruct (Qlt_bool _ _); injection Hb as <-; [exact Hbase|].
      apply Hset. intros s' r' u E. injection E as <- _ _. now exists st.
    + injection Hb as <-. apply Hset. intros s' r' u E. discriminate.
  - injection Hb as <-. exact Hbase.
  - injection Hb as <-. apply Hset. intros s' r' u E. discriminate.
Qed.

Lemma finish_wf sys sys' rl wid net :
  Sys_wf sys -> worker_loop_finish BASE sys rl wid net = Some sys' -> Sys_wf sys'.
Proof.
  intros (Hst & Hl & Hnd & Hw) Hf. unfold worker_loop_finish in Hf.
  destruct (worker_state sys (rl, wid)) as [|s rtsp url|] eqn:Hws; try discriminate.
  destruct (Hw _ _ _ _ Hws) as [st Hs].
  destruct (probe_cycle_frame BASE net (clock sys) rtsp url s (heap sys) st Hs)
    as (st' & row & cs & Hc & Hst' & _).
  rewrite Hc in Hf. cbn in Hf. injection Hf as <-.
  assert (Hname : Stream.name st' = Stream.name st).
  { subst st'. destruct (with_fallback _ _ _).1 as [[[] m] la]; reflexivity. }
  split_and!; cbn [heap sched].
  - intros n l Hn. destruct (Hst n l Hn) as (s0 & Hs0 & Hn0).
    destruct (decide (s = l)) as [<-|Hne].
    + exists st'. split; [|congruence].
      apply list_lookup_insert_eq. now apply lookup_lt_Some in Hs.
    + exists s0. split; [|exact Hn0]. now rewrite list_lookup_insert_ne.
  - intros b. destruct (Hl b) as [Hi Hall]. split; [exact Hi|].
    eapply Forall_impl; [exact Hall|]. intros l Hl'. cbn in Hl'.
    apply insert_keeps_lookup; [now exists st | exact Hl'].
  - exact Hnd.
  - intros w s' r u Hp. unfold worker_state in Hp. cbn [workers] in Hp.
    apply insert_keeps_lookup; [now exists st|].
    destruct (decide ((rl, wid) = w)) as [<-|Hne].
    + rewrite lookup_insert_eq in Hp. destruct (recorded net); discriminate.
    + rewrite lookup_insert_ne in Hp by exact Hne. now apply (Hw w s' r u).
Qed.

Lemma reload_wf sys file :
  Sys_wf sys ->
  let r := reloader file (heap sys) (sched sys) in
  State_wf r.2.1 (Scheduler.state r.2.2)
  /\ (forall b, Lane_wf r.2.1 (lane_of r.2.2 b)
                /\ NoDup (Lane.items (lane_of r.2.2 b)))
  /\ keeps (heap sys) r.2.1.
Proof.
  intros (Hst & Hl & Hnd & Hw). cbv zeta. unfold reloader.
  assert (Hsame : State_wf (heap sys) (Scheduler.state (sched sys))
                  /\ (forall b, Lane_wf (heap sys) (lane_of (sched sys) b)
                                /\ NoDup (Lane.items (lane_of (sched sys) b)))
                  /\ keeps (heap sys) (heap sys)).
  { split_and!; [exact Hst | intros b; now split | apply keeps_refl]. }
  destruct (read_cfg file) as [new|e]; [|exact Hsame].
  case_decide; [exact Hsame|].
  destruct (init_db (streams new)) as [[]|e] eqn:Hdb.
  - pose proof (sync_streams_spec (streams new) (heap sys)
                  (Scheduler.state (sched sys)) ∅ Hst Hdb) as Hs.
    cbv zeta in Hs. cbn [Scheduler.state].
    destruct (sync_streams _ _ _ _) as [ex [[h1 st1] names1]].
    cbn [fst snd] in Hs |- *. destruct Hs as (-> & _ & W1 & K1 & _).
    cbn [fst snd].
    set (s2 := {| Scheduler.cfg := new;
                  Scheduler.state := remove_missing st1 names1;
                  Scheduler.rtsp := _; Scheduler.http := _ |}).
    assert (W2 : State_wf h1 (Scheduler.state s2)).
    { intros n l Hn. cbn [Scheduler.state s2] in Hn.
      rewrite remove_missing_lookup in Hn. case_decide; [|discriminate].
      now apply W1. }
    split_and!.
    + now rewrite (proj1 (proj2 (rebuild_lanes h1 s2))).
    + intros b. now apply rebuild_wf.
    + exact K1.
  - cbn [fst snd]. split_and!; [exact Hst | | apply keeps_refl].
    intros b. destruct b; cbn [lane_of Scheduler.rtsp Scheduler.http];
      [exact (conj (Hl true) (Hnd true)) | exact (conj (Hl false) (Hnd false))].
Qed.

(** Well-formedness is an invariant of the running system. *)
Lemma step_wf sys sys' ev :
  Sys_wf sys -> step MAX BASE sys ev = Some sys' -> Sys_wf sys'.
Proof.
  intros Hwf Hstep. destruct ev as [dt|rl wid|rl wid net|file]; cbn [step] in Hstep.
  - destruct (Qle_bool 0 dt); [|discriminate]. injection Hstep as <-.
    exact Hwf.
  - eapply begin_wf; eauto.
  - eapply finish_wf; eauto.
  - destruct (reloader_task sys); [discriminate|]. injection Hstep as <-.
    destruct (reload_wf sys file Hwf) as (R1 & R2 & [_ K]).
    destruct Hwf as (_ & _ & _ & Hw).
    split_and!; cbn [heap sched].
    + exact R1.
    + intros b. apply R2.
    + intros b. apply R2.
    + intros w s r u Hp. destruct (Hw w s r u Hp) as [st Hs].
      destruct (K s st Hs) as (st' & Hs' & _). now exists st'.
Qed.

Lemma run_wf evs : forall sys sys',
  Sys_wf sys -> run MAX BASE sys evs = Some sys' -> Sys_wf sys'.
Proof.
  induction evs as [|ev evs IH]; intros sys sys' Hwf Hrun.
  - now injection Hrun as <-.
  - cbn [run] in Hrun.
    destruct (step MAX BASE sys ev) as [sys1|] eqn:Hstep; [|discriminate].
    cbn in Hrun. eapply IH; [|exact Hrun]. eapply step_wf; eauto.
Qed.

(** X1. Well-formedness is an invariant: whatever the workers, the clock
    and the reloader do from start-up on, the state dictionary and the lanes
    are as the round-robin and reload properties assume them. *)
Lemma reachable_wf file evs sys0 sys :
  run_monitor file = Done sys0 -> run MAX BASE sys0 evs = Some sys -> Sys_wf sys.
Proof. intros Hb Hr. eapply run_wf; [|exact Hr]. eapply run_monitor_wf; eauto. Qed.

End Reachable.

Lemma reachable_wf_witness :
  exists sys0 sys,
    run_monitor six_cameras = Done sys0
    /\ run 32 5 sys0 two_workers_one_camera = Some sys
    /\ Sys_wf sys.
Proof.
  eexists _, _. split; [vm_compute; reflexivity|].
  split; [vm_compute; reflexivity|].
  eapply (reachable_wf 32 5 six_cameras two_workers_one_camera);
    vm_compute; reflexivity.
Defined.

(** ** Further properties of the backoff and of the reload *)

(** X2. Backoff monotonicity: when an endpoint fails on two consecutive
    attempts, the second at a time not before the first, its [backoff_until]
    does not decrease, and the streak has grown by two. *)
Theorem consecutive_failures_monotone (BASE now now' : Q) (st : Stream.t)
    (m1 m2 : string) (l1 l2 : Z) :
  (0 <= BASE)%Q -> 0 <= Stream.fails st -> (now <= now')%Q ->
  let st1 := (apply_outcome BASE now st (false, m1, l1)).1 in
  let st2 := (apply_outcome BASE now' st1 (false, m2, l2)).1 in
  (Stream.backoff_until st1 <= Stream.backoff_until st2)%Q
  /\ Stream.fails st2 = Stream.fails st + 2.
Proof.
  intros HB Hf Hnow. cbv zeta. rewrite !apply_outcome_fail. cbn [fst].
  cbn [Stream.backoff_until Stream.fails]. split; [|lia].
  apply Qplus_le_compat; [exact Hnow|].
  apply backoff_delay_monotone; [exact HB | lia].
Qed.

Lemma consecutive_failures_monotone_witness :
  let st1 := (apply_outcome 5 0 (sample_stream 0 0)
                (false, "timeout"%string, 3500)).1 in
  let st2 := (apply_outcome 5 11 st1 (false, "timeout"%string, 3500)).1 in
  (Stream.backoff_until st1 <= Stream.backoff_until st2)%Q.
Proof.
  refine (proj1 (consecutive_failures_monotone 5 0 11 (sample_stream 0 0)
                   "timeout" "timeout" 3500 3500 _ _ _)); discriminate.
Defined.

(** ** One lap, while the objects change *)

Lemma next_rr_seq_lap (envs : list (Heap * Q)) :
  forall (l : Lane.t) (v0 : list loc) (D : nat),
    Forall (fun e => Lane_wf e.1 l) envs ->
    from_cursor l = drop D v0 ++ take D v0 ->
    length v0 = length (Lane.items l) ->
    (D + (next_rr_seq envs l).1.2 <= length v0)%nat ->
    handed_out (next_rr_seq envs l).1.1 `sublist_of` drop D v0.
Proof.
  induction envs as [|[h now] envs IH]; intros l v0 D Hwf Hv Hlen Hcost.
  - apply sublist_nil_l.
  - apply Forall_cons in Hwf as [Hwf Hwfs]. cbn [fst] in Hwf.
    cbn [next_rr_seq fst snd] in Hcost |- *.
    pose proof (next_rr_find h now l Hwf) as Hn.
    pose proof (find_filter h now (from_cursor l)) as Hf.
    assert (Hwfs' : Forall (fun e => Lane_wf e.1 (Lane.next_rr h now l).2) envs).
    { eapply Forall_impl; [exact Hwfs|]. intros [h' t'] [Hi Hall]. cbn [fst] in *.
      destruct (next_rr_items h now l) as [Hit _].
      split; rewrite Hit; [|exact Hall].
      destruct Hi as [Hnil|Hi]; [now left|right].
      destruct (next_rr_wf h now l Hwf) as [[Hnil'|Hi'] _].
      - rewrite Hit in Hnil'. rewrite Hnil' in Hi. simpl in Hi. lia.
      - now rewrite Hit in Hi'. }
    destruct (list_find _ (from_cursor l)) as [[d s]|].
    + destruct Hn as (Hr & _ & Hv'). destruct Hf as (Hl & _).
      rewrite Hr. cbn [handed_out omap list_omap]. fold (handed_out).
      assert (Hd : (d < length (drop D v0))%nat) by (rewrite length_drop; lia).
      rewrite Hv, lookup_app_l in Hl by exact Hd.
      rewrite lookup_drop in Hl.
      assert (Hsplit : drop D v0
                       = take d (drop D v0) ++ s :: drop (D + S d) v0).
      { rewrite <- (take_drop d (drop D v0)) at 1. f_equal.
        rewrite drop_drop. rewrite (drop_S _ _ _ Hl). f_equal. f_equal. lia. }
      rewrite Hsplit. apply sublist_inserts_l. apply sublist_skip.
      apply IH; try assumption.
      * rewrite Hv', Hv. rewrite drop_app_le by lia.
        rewrite take_app_le by lia. rewrite drop_drop.
        rewrite <- app_assoc. f_equal. apply take_take_drop.
      * now rewrite (proj1 (next_rr_items h now l)).
      * lia.
    + rewrite Hn. cbn [fst snd handed_out omap list_omap]. fold (handed_out).
      apply IH; try assumption. rewrite Hn in Hcost. cbn [snd] in Hcost. lia.
Qed.

(** X4. Within one lap no endpoint is handed out twice, whatever happens to
    the objects and however much time passes between the calls: as long as
    the calls of [next_rr] on a lane have looked at no more items than the
    lane holds, the endpoints they return are items of the lane met in the
    order of the lap from the cursor, each at most once. *)
Theorem next_rr_one_lap (envs : list (Heap * Q)) (l : Lane.t) :
  Forall (fun e => Lane_wf e.1 l) envs ->
  NoDup (Lane.items l) ->
  ((next_rr_seq envs l).1.2 <= length (Lane.items l))%nat ->
  handed_out (next_rr_seq envs l).1.1 `sublist_of` from_cursor l
  /\ NoDup (handed_out (next_rr_seq envs l).1.1).
Proof.
  intros Hwf Hnd Hcost.
  assert (Hsub : handed_out (next_rr_seq envs l).1.1 `sublist_of` from_cursor l).
  { rewrite <- (drop_0 (from_cursor l)).
    apply next_rr_seq_lap; try assumption.
    - now rewrite drop_0, app_nil_r.
    - apply length_rotate.
    - unfold from_cursor. rewrite length_rotate. lia. }
  split; [exact Hsub|].
  eapply sublist_NoDup; [|exact Hsub].
  unfold from_cursor, rotate.
  rewrite Permutation_app_comm, take_drop. exact Hnd.
Qed.

(** Three calls at three different times, from the cursor on the third
    object: the lap hands out the third, the fourth and the first object. *)
Lemma next_rr_one_lap_witness :
  NoDup
    (handed_out
       (next_rr_seq [(sample_heap, 10%Q); (sample_heap, 12%Q); (sample_heap, 60%Q)]
          sample_lane_at_2).1.1).
Proof.
  refine (proj2 (next_rr_one_lap
                   [(sample_heap, 10%Q); (sample_heap, 12%Q); (sample_heap, 60%Q)]
                   sample_lane_at_2 _ _ _)).
  - assert (Hwf : Lane_wf sample_heap sample_lane_at_2).
    { split; [right; simpl; lia|].
      repeat (apply List.Forall_cons; [eexists; reflexivity|]).
      apply List.Forall_nil. }
    repeat (apply List.Forall_cons; [exact Hwf|]). apply List.Forall_nil.
  - apply (bool_decide_unpack (NoDup (Lane.items sample_lane_at_2))).
    vm_compute. exact I.
  - vm_compute. lia.
Defined.

(** ** What a worker does and does not do *)

Section WorkerLoop.

Variables (MAX : Z) (BASE : Q).

(** An endpoint the scan returns is an item of the lane whose backoff has
    passed. *)
Lemma scan_elem h now items : forall k i s i',
  Lane.scan h now items i k = (Done (Some s), i') ->
  s ∈ items
  /\ exists st, h !! s = Some st
                /\ Qle_bool (Stream.backoff_until st) now = true.
Proof.
  induction k as [|k IH]; intros i s i' H; cbn [Lane.scan] in H; [discriminate|].
  destruct (items !! i) as [s0|] eqn:Hi; [|discriminate].
  destruct (h !! s0) as [st|] eqn:Hs; [|discriminate].
  destruct (Qle_bool _ _) eqn:Hq.
  - injection H as <- _. split; [eapply list_elem_of_lookup_2; eauto|]. eauto.
  - eapply IH; eauto.
Qed.

Lemma next_rr_elem h now l s :
  (Lane.next_rr h now l).1 = Done (Some s) ->
  s ∈ Lane.items l
  /\ exists st, h !! s = Some st
                /\ Qle_bool (Stream.backoff_until st) now = true.
Proof.
  unfold Lane.next_rr. destruct (Lane.items l) as [|x its] eqn:E; [discriminate|].
  cbn [fst]. intros H.
  destruct (Lane.scan h now (x :: its) (Lane.i l) (length (x :: its)))
    as [r i'] eqn:Hscan.
  cbn [fst] in H. subst r. eapply scan_elem; eauto.
Qed.

(** What a step of a worker from the top of its loop leaves alone. *)
Lemma begin_frame sys sys' rl wid :
  worker_loop_begin MAX sys rl wid = Some sys' ->
  heap sys' = heap sys /\ sink sys' = sink sys /\ calls sys' = calls sys
  /\ clock sys' = clock sys /\ reloader_task sys' = reloader_task sys
  /\ Scheduler.cfg (sched sys') = Scheduler.cfg (sched sys)
  /\ Scheduler.state (sched sys') = Scheduler.state (sched sys)
  /\ (forall b, Lane.items (lane_of (sched sys') b)
                = Lane.items (lane_of (sched sys) b))
  /\ (forall w, w <> (rl, wid) -> worker_state sys' w = worker_state sys w).
Proof.
  intros Hb. unfold worker_loop_begin in Hb.
  destruct (negb _); [discriminate|].
  destruct (worker_state sys (rl, wid)) eqn:Hws; try discriminate.
  destruct (_ || _); [injection Hb as <-; now split_and!|].
  set (lane := lane_of (sched sys) rl) in *.
  set (r := Lane.next_rr (heap sys) (clock sys) lane) in *.
  assert (Hitems : forall b, Lane.items (lane_of (with_lane (sched sys) rl r.2) b)
                             = Lane.items (lane_of (sched sys) b)).
  { intros b. destruct (decide (b = rl)) as [->|Hne].
    - rewrite lane_of_with_lane. unfold r, lane.
      apply (next_rr_items (heap sys) (clock sys)).
    - now rewrite lane_of_with_lane_ne. }
  assert (Hbase : forall ws,
            sys' = with_sched sys (with_lane (sched sys) rl r.2)
            \/ sys' = with_worker (with_sched sys (with_lane (sched sys) rl r.2))
                        (rl, wid) ws ->
            heap sys' = heap sys /\ sink sys' = sink sys /\ calls sys' = calls sys
            /\ clock sys' = clock sys /\ reloader_task sys' = reloader_task sys
            /\ Scheduler.cfg (sched sys') = Scheduler.cfg (sched sys)
            /\ Scheduler.state (sched sys') = Scheduler.state (sched sys)
            /\ (forall b, Lane.items (lane_of (sched sys') b)
                          = Lane.items (lane_of (sched sys) b))
            /\ (forall w, w <> (rl, wid) -> worker_state sys' w = worker_state sys w)).
  { intros ws [->| ->]; split_and!; try reflexivity; try exact Hitems;
      try (destruct rl; reflexivity).
    intros w Hne. rewrite worker_state_insert. case_decide; [congruence|reflexivity]. }
  destruct r.1 as [[s|]|e].
  - cbn [heap with_sched] in Hb. destruct (heap sys !! s) as [st|].
    + destruct (Qlt_bool _ _); injection Hb as <-.
      * apply (Hbase Waiting). now left.
      * eapply Hbase. now right.
    + injection Hb as <-. eapply Hbase. now right.
  - injection Hb as <-. apply (Hbase Waiting). now left.
  - injection Hb as <-. eapply Hbase. now right.
Qed.

(** A probe a worker starts is a probe of an item of its lane whose backoff
    has passed, started below the current worker count. *)
Lemma begin_probing sys sys' rl wid s r u :
  worker_loop_begin MAX sys rl wid = Some sys' ->
  worker_state sys' (rl, wid) = Probing s r u ->
  Z.of_nat wid < MAX
  /\ Z.of_nat wid < (workers_and_delay MAX (sched sys) (lane_of (sched sys) rl)).1
  /\ s ∈ Lane.items (lane_of (sched sys) rl)
  /\ exists st, heap sys !! s = Some st
                /\ (Stream.backoff_until st <= clock sys)%Q
                /\ r = Stream.is_rtsp st /\ u = Stream.url st.
Proof.
  intros Hb Hp. unfold worker_loop_begin in Hb.
  destruct (Z.of_nat wid <? MAX) eqn:Hmax; [|discriminate]. cbn [negb] in Hb.
  apply Z.ltb_lt in Hmax.
  destruct (worker_state sys (rl, wid)) eqn:Hws; try discriminate.
  destruct (_ <=? _) eqn:HW;
    [cbn [orb] in Hb; injection Hb as <-; congruence|].
  apply Z.leb_gt in HW. cbn [orb] in Hb.
  destruct (bool_decide _); [injection Hb as <-; congruence|].
  set (lane := lane_of (sched sys) rl) in *.
  pose proof (next_rr_elem (heap sys) (clock sys) lane) as He.
  set (r0 := Lane.next_rr (heap sys) (clock sys) lane) in *.
  assert (Hsame : worker_state (with_sched sys (with_lane (sched sys) rl r0.2))
                    (rl, wid) = Waiting) by exact Hws.
  destruct r0.1 as [[s0|]|e].
  - destruct (He s0 eq_refl) as (Hin & st & Hst & Hq).
    cbn [heap with_sched] in Hb. rewrite Hst in Hb.
    destruct (Qlt_bool _ _); injection Hb as <-; [congruence|].
    rewrite worker_state_insert in Hp. rewrite decide_True in Hp by reflexivity.
    injection Hp as <- <- <-.
    split_and!; try assumption. exists st. split_and!; try reflexivity; [exact Hst|].
    now apply Qle_bool_iff.
  - injection Hb as <-. congruence.
  - injection Hb as <-. rewrite worker_state_insert in Hp.
    rewrite decide_True in Hp by reflexivity. discriminate.
Qed.

(** A completed probe appends its row when [record] returns, and nothing
    when [record] raises. *)
Lemma finish_sink sys sys' rl wid net :
  worker_loop_finish BASE sys rl wid net = Some sys' ->
  exists rc, (row_status rc = "ok"%string \/ row_status rc = "fail"%string)
             /\ sink sys' = match recorded net with
                            | Done _ => sink sys ++ [rc]
                            | Raise _ => sink sys
                            end.
Proof.
  unfold worker_loop_finish. intros Hf.
  destruct (worker_state sys (rl, wid)) as [|s rtsp url|]; try discriminate.
  unfold probe_cycle in Hf. destruct (heap sys !! s) as [st|]; [|discriminate].
  cbn in Hf. injection Hf as <-. cbn [sink]. eexists. split; [|reflexivity].
  destruct (with_fallback _ _ _).1 as [[[] m] la]; [now left | now right].
Qed.

Lemma step_sink sys sys' ev :
  step MAX BASE sys ev = Some sys' ->
  exists rows, sink sys' = sink sys ++ rows.
Proof.
  intros Hs. destruct ev as [dt|rl wid|rl wid net|file]; cbn [step] in Hs.
  - destruct (Qle_bool 0 dt); [|discriminate]. injection Hs as <-.
    exists []. now rewrite app_nil_r.
  - apply begin_frame in Hs as (_ & -> & _). exists []. now rewrite app_nil_r.
  - apply finish_sink in Hs as (rc & _ & ->).
    destruct (recorded net); [now exists [rc]|]. exists []. now rewrite app_nil_r.
  - destruct (reloader_task sys); [discriminate|]. injection Hs as <-.
    exists []. now rewrite app_nil_r.
Qed.

End WorkerLoop.

(** The worker count never exceeds the number of endpoints of the lane. *)
Lemma workers_le_items (MAX : Z) (s : Scheduler.t) (lane : Lane.t) :
  Lane.items lane <> [] ->
  1 <= (workers_and_delay MAX s lane).1 <= Z.of_nat (length (Lane.items lane)).
Proof.
  intros Hne. unfold workers_and_delay.
  assert (Hn : 0 < Z.of_nat (length (Lane.items lane))).
  { destruct (Lane.items lane); [congruence|]. simpl. lia. }
  rewrite (proj2 (Z.eqb_neq _ 0)) by lia. cbn [fst].
  rewrite Qceiling_quotient by lia.
  set (n := Z.of_nat (length (Lane.items lane))) in *.
  set (H := Z.max 5 (heartbeat_seconds (Scheduler.cfg s))).
  assert (HH : 5 <= H) by (unfold H; lia).
  assert ((n + H - 1) / H <= n).
  { apply Z.lt_succ_r. apply Z.div_lt_upper_bound; nia. }
  lia.
Qed.

(** X6. A worker starts a probe only when it is due: its index is below the
    worker count of its lane, which is at most the number of endpoints of
    the lane and at most MAX_WORKERS_PER_TYPE; the endpoint is an item of
    its own lane whose [backoff_until] has passed; the probe uses the family
    and URL the object has at that moment; and starting the probe changes no
    object and records nothing. *)
Theorem probe_starts_only_when_due (MAX : Z) (sys sys' : Sys) (rl : bool)
    (wid : nat) (s : loc) (r : bool) (u : string) :
  worker_loop_begin MAX sys rl wid = Some sys' ->
  worker_state sys' (rl, wid) = Probing s r u ->
  Z.of_nat wid < (workers_and_delay MAX (sched sys) (lane_of (sched sys) rl)).1
  /\ (workers_and_delay MAX (sched sys) (lane_of (sched sys) rl)).1
     <= Z.min MAX (Z.of_nat (length (Lane.items (lane_of (sched sys) rl))))
  /\ s ∈ Lane.items (lane_of (sched sys) rl)
  /\ (exists st, heap sys !! s = Some st
                 /\ (Stream.backoff_until st <= clock sys)%Q
                 /\ r = Stream.is_rtsp st /\ u = Stream.url st)
  /\ heap sys' = heap sys /\ sink sys' = sink sys /\ calls sys' = calls sys.
Proof.
  intros Hb Hp.
  destruct (begin_probing MAX sys sys' rl wid s r u Hb Hp) as (Hmax & HW & Hin & Hst).
  destruct (begin_frame MAX sys sys' rl wid Hb) as (Hh & Hs & Hc & _).
  split_and!; try assumption.
  assert (Hne : Lane.items (lane_of (sched sys) rl) <> []).
  { intros E. rewrite E in Hin. now apply elem_of_nil in Hin. }
  pose proof (workers_le_items MAX (sched sys) _ Hne) as [_ Hle].
  apply Z.min_glb; [|exact Hle].
  revert HW. unfold workers_and_delay.
  destruct (_ =? 0); cbn [fst]; lia.
Qed.

Lemma probe_starts_only_when_due_witness :
  exists sys',
    worker_loop_begin 32 one_eligible_sys true 0 = Some sys'
    /\ worker_state sys' (true, 0%nat) = Probing 0 true "rtsp://10.0.0.1/live"
    /\ heap sys' = heap one_eligible_sys.
Proof.
  pose (sys' := match worker_loop_begin 32 one_eligible_sys true 0 with
                | Some s => s
                | None => one_eligible_sys
                end).
  exists sys'.
  assert (Hb : worker_loop_begin 32 one_eligible_sys true 0 = Some sys')
    by (vm_compute; reflexivity).
  assert (Hp : worker_state sys' (true, 0%nat) = Probing 0 true "rtsp://10.0.0.1/live")
    by (vm_compute; reflexivity).
  split_and!; [exact Hb | exact Hp |].
  exact (proj1 (proj2 (proj2 (proj2 (proj2
           (probe_starts_only_when_due 32 one_eligible_sys sys' true 0 0%nat true
              "rtsp://10.0.0.1/live" Hb Hp)))))).
Defined.

(** ** An endpoint dropped from the configuration *)

Section Retired.

Variables (MAX : Z) (BASE : Q).

(** The reload that drops a name retires its object. *)
Lemma reload_retires sys sys1 file new n l :
  Sys_wf sys ->
  read_cfg file = Done new ->
  new <> Scheduler.cfg (sched sys) ->
  init_db (streams new) = Done tt ->
  Scheduler.state (sched sys) !! n = Some l ->
  n ∉ entry_names (streams new) ->
  step MAX BASE sys (Reload file) = Some sys1 ->
  retired sys1 l /\ workers sys1 = workers sys /\ sink sys1 = sink sys.
Proof.
  intros (Hst & _) Hread Hnew Hdb Hn Hout Hstep. cbn [step] in Hstep.
  destruct (reloader_task sys); [discriminate|]. injection Hstep as <-.
  cbn [workers sink]. split; [|now split].
  unfold retired. cbn [heap sched]. unfold reloader. rewrite Hread.
  rewrite decide_False by exact Hnew. rewrite Hdb.
  pose proof (sync_streams_spec (streams new) (heap sys)
                (Scheduler.state (sched sys)) ∅ Hst Hdb) as Hs.
  cbv zeta in Hs. cbn [Scheduler.state].
  destruct (sync_streams _ _ _ _) as [ex [[h1 st1] names1]].
  cbn [fst snd] in Hs |- *.
  destruct Hs as (-> & -> & W1 & [K1 _] & Hmono & _). cbn [fst snd].
  set (s2 := {| Scheduler.cfg := new;
                Scheduler.state := remove_missing st1 _;
                Scheduler.rtsp := _; Scheduler.http := _ |}).
  destruct (rebuild_lanes h1 s2) as (_ & Est & _ & _ & Hl).
  assert (Hgone : forall n', Scheduler.state s2 !! n' <> Some l).
  { intros n' Hn'. cbn [Scheduler.state s2] in Hn'.
    rewrite remove_missing_lookup in Hn'. case_decide as Hin; [|discriminate].
    assert (n' = n) as ->.
    { eapply State_wf_inj; [exact W1 | exact Hn' | now apply Hmono]. }
    apply Hout. set_solver. }
  split_and!.
  - destruct (Hst n l Hn) as (s & Hs & _). apply lookup_lt_Some in Hs. lia.
  - rewrite Est. exact Hgone.
  - intros b Hin. apply Hl in Hin as (n' & st & Hn' & _). now apply (Hgone n').
Qed.

(** A retired object stays retired, and no worker starts a probe of it. *)
Lemma step_retired sys sys' ev l :
  Sys_wf sys -> retired sys l ->
  step MAX BASE sys ev = Some sys' ->
  retired sys' l
  /\ forall w r u, worker_state sys' w = Probing l r u ->
                   worker_state sys w = Probing l r u.
Proof.
  intros Hwf (Hlen & Hst & Hlanes) Hstep.
  destruct ev as [dt|rl wid|rl wid net|file]; cbn [step] in Hstep.
  - destruct (Qle_bool 0 dt); [|discriminate]. injection Hstep as <-.
    split; [now split_and!|]. intros w r u Hp. exact Hp.
  - destruct (begin_frame MAX _ _ _ _ Hstep)
      as (Hh & _ & _ & _ & _ & _ & Es & Ei & Hw).
    split.
    + unfold retired. rewrite Hh, Es. split_and!; try assumption.
      intros b. rewrite Ei. apply Hlanes.
    + intros w r u Hp. destruct (decide (w = (rl, wid))) as [->|Hne].
      * destruct (begin_probing MAX _ _ _ _ _ _ _ Hstep Hp) as (_ & _ & Hin & _).
        now apply Hlanes in Hin.
      * now rewrite <- (Hw w Hne).
  - unfold worker_loop_finish in Hstep.
    destruct (worker_state sys (rl, wid)) as [|s rtsp url|] eqn:Hws; try discriminate.
    unfold probe_cycle in Hstep.
    destruct (heap sys !! s) as [st|]; [|discriminate].
    cbn in Hstep. injection Hstep as <-. split.
    + unfold retired. cbn [heap sched]. rewrite length_insert. now split_and!.
    + intros w r u Hp. unfold worker_state in Hp |- *. cbn [workers] in Hp.
      destruct (decide ((rl, wid) = w)) as [<-|Hne].
      * rewrite lookup_insert_eq in Hp. destruct (recorded net); discriminate.
      * now rewrite lookup_insert_ne in Hp.
  - destruct (reloader_task sys); [discriminate|]. injection Hstep as <-.
    split; [|intros w r u Hp; exact Hp].
    unfold retired. cbn [heap sched]. destruct Hwf as (Hwf & _).
    unfold reloader.
    destruct (read_cfg file) as [new|e]; [|now split_and!].
    case_decide; [now split_and!|].
    destruct (init_db (streams new)) as [[]|e] eqn:Hdb.
    + pose proof (sync_streams_spec (streams new) (heap sys)
                    (Scheduler.state (sched sys)) ∅ Hwf Hdb) as Hs.
      cbv zeta in Hs. cbn [Scheduler.state].
      destruct (sync_streams _ _ _ _) as [ex [[h1 st1] names1]].
      cbn [fst snd] in Hs |- *.
      destruct Hs as (-> & _ & W1 & [K1 _] & Hmono & Hfresh & _). cbn [fst snd].
      set (s2 := {| Scheduler.cfg := new;
                    Scheduler.state := remove_missing st1 names1;
                    Scheduler.rtsp := _; Scheduler.http := _ |}).
      destruct (rebuild_lanes h1 s2) as (_ & Est & _ & _ & Hl).
      assert (Hgone : forall n', Scheduler.state s2 !! n' <> Some l).
      { intros n' Hn'. cbn [Scheduler.state s2] in Hn'.
        rewrite remove_missing_lookup in Hn'. case_decide as Hin; [|discriminate].
        destruct (Scheduler.state (sched sys) !! n') as [l0|] eqn:Hold.
        - rewrite (Hmono n' l0 Hold) in Hn'. injection Hn' as ->.
          now apply (Hst n').
        - destruct (Hfresh n' l Hn' Hold) as (Hge & _). lia. }
      split_and!.
      * lia.
      * rewrite Est. exact Hgone.
      * intros b Hin. apply Hl in Hin as (n' & st & Hn' & _). now apply (Hgone n').
    + cbn [fst snd Scheduler.state]. now split_and!.
Qed.

Lemma run_retired evs l : forall sys sys',
  Sys_wf sys -> retired sys l ->
  run MAX BASE sys evs = Some sys' ->
  retired sys' l
  /\ forall w r u, worker_state sys' w = Probing l r u ->
                   worker_state sys w = Probing l r u.
Proof.
  induction evs as [|ev evs IH]; intros sys sys' Hwf Hret Hrun.
  - injection Hrun as <-. split; [exact Hret|]. intros w r u Hp. exact Hp.
  - cbn [run] in Hrun.
    destruct (step MAX BASE sys ev) as [sys1|] eqn:Hstep; [|discriminate].
    cbn in Hrun.
    destruct (step_retired _ _ _ _ Hwf Hret Hstep) as (Hret1 & Hw1).
    destruct (IH sys1 sys' (step_wf MAX BASE _ _ _ Hwf Hstep) Hret1 Hrun)
      as (Hret' & Hw').
    split; [exact Hret'|]. intros w r u Hp. apply Hw1. now apply Hw'.
Qed.

(** A completion leaves its worker at the top of the loop or ended: not
    awaiting a probe. *)
Lemma finish_not_probing sys sys' rl wid net s r u :
  worker_loop_finish BASE sys rl wid net = Some sys' ->
  worker_state sys' (rl, wid) <> Probing s r u.
Proof.
  unfold worker_loop_finish. intros Hf.
  destruct (worker_state sys (rl, wid)); try discriminate.
  destruct (probe_cycle _ _ _ _ _ _ _); [|discriminate].
  cbn in Hf. injection Hf as <-. unfold worker_state. cbn [workers].
  rewrite lookup_insert_eq. destruct (recorded net); discriminate.
Qed.

(** After an object is retired, the cycles that complete on it are cycles
    that were in flight, one for each worker that was awaiting its probe. *)
Lemma run_completions evs l : forall sys sys',
  Sys_wf sys -> retired sys l ->
  run MAX BASE sys evs = Some sys' ->
  NoDup (completions MAX BASE l sys evs)
  /\ forall w, w ∈ completions MAX BASE l sys evs ->
       (exists r u, worker_state sys w = Probing l r u)
       /\ forall r u, worker_state sys' w <> Probing l r u.
Proof.
  induction evs as [|ev evs IH]; intros sys sys' Hwf Hret Hrun.
  - split; [constructor|]. intros w Hw. now apply elem_of_nil in Hw.
  - cbn [run] in Hrun. cbn [completions].
    destruct (step MAX BASE sys ev) as [sys1|] eqn:Hstep; [|discriminate].
    cbn in Hrun.
    destruct (step_retired _ _ _ _ Hwf Hret Hstep) as (Hret1 & Hw1).
    pose proof (step_wf MAX BASE _ _ _ Hwf Hstep) as Hwf1.
    destruct (IH sys1 sys' Hwf1 Hret1 Hrun) as (Hnd & Hin).
    destruct (run_retired evs l sys1 sys' Hwf1 Hret1 Hrun) as (_ & Hback).
    assert (Hrest : forall w, w ∈ completions MAX BASE l sys1 evs ->
              (exists r u, worker_state sys w = Probing l r u)
              /\ forall r u, worker_state sys' w <> Probing l r u).
    { intros w Hw. destruct (Hin w Hw) as ((r & u & Hp) & Hn).
      split; [|exact Hn]. exists r, u. now apply Hw1. }
    destruct ev as [dt|rl wid|rl wid net|file]; cbn [app]; try (split; assumption).
    destruct (worker_state sys (rl, wid)) as [|s r u|] eqn:Hws;
      cbn [app]; try (split; assumption).
    case_decide as Hs; cbn [app]; [subst s|split; assumption].
    cbn [step] in Hstep.
    pose proof (fun r u => finish_not_probing _ _ _ _ _ l r u Hstep) as Hnp.
    cbn beta in Hnp.
    split.
    + constructor; [|exact Hnd]. intros Hw.
      destruct (Hin _ Hw) as ((r' & u' & Hp) & _). exact (Hnp _ _ Hp).
    + intros w Hw. apply elem_of_cons in Hw as [->|Hw]; [|now apply Hrest].
      split; [now exists r, u|]. intros r' u' Hp.
      apply Hback in Hp. exact (Hnp _ _ Hp).
Qed.

(** A run only appends to the rows recorded. *)
Lemma run_sink_prefix evs : forall sys sys',
  run MAX BASE sys evs = Some sys' -> exists rows, sink sys' = sink sys ++ rows.
Proof.
  induction evs as [|ev evs IH]; intros sys sys' Hrun.
  - injection Hrun as <-. exists []. now rewrite app_nil_r.
  - cbn [run] in Hrun.
    destruct (step MAX BASE sys ev) as [sys1|] eqn:Hstep; [|discriminate].
    cbn in Hrun. destruct (step_sink MAX BASE _ _ _ Hstep) as (r1 & E1).
    destruct (IH _ _ Hrun) as (r2 & E2). exists (r1 ++ r2).
    now rewrite E2, E1, app_assoc.
Qed.

End Retired.



(** ** The BackoffState between two completions *)

Section Streak.

Variables (MAX : Z) (BASE : Q).

(** A step that completes no cycle on the object at [l] keeps the
    BackoffState of that object. *)
Lemma step_keeps_backoff sys sys' ev l st :
  Sys_wf sys ->
  step MAX BASE sys ev = Some sys' ->
  completions MAX BASE l sys [ev] = [] ->
  heap sys !! l = Some st ->
  exists st', heap sys' !! l = Some st' /\ backoff_state st' = backoff_state st.
Proof.
  intros Hwf Hstep Hc Hl. cbn [completions] in Hc. rewrite Hstep in Hc.
  rewrite app_nil_r in Hc.
  destruct ev as [dt|rl wid|rl wid net|file]; cbn [step] in Hstep.
  - destruct (Qle_bool 0 dt); [|discriminate]. injection Hstep as <-. now exists st.
  - apply (begin_frame MAX) in Hstep as (-> & _). now exists st.
  - unfold worker_loop_finish in Hstep.
    destruct (worker_state sys (rl, wid)) as [|s r u|]; try discriminate.
    case_decide as Hs; [discriminate|].
    unfold probe_cycle in Hstep. destruct (heap sys !! s); [|discriminate].
    cbn in Hstep. injection Hstep as <-. cbn [heap]. exists st.
    split; [|reflexivity]. now rewrite list_lookup_insert_ne.
  - destruct (reloader_task sys); [discriminate|]. injection Hstep as <-.
    cbn [heap]. destruct (reload_wf sys file Hwf) as (_ & _ & [_ K]).
    exact (K l st Hl).
Qed.

Lemma run_keeps_backoff evs l : forall sys sys' st,
  Sys_wf sys ->
  run MAX BASE sys evs = Some sys' ->
  completions MAX BASE l sys evs = [] ->
  heap sys !! l = Some st ->
  exists st', heap sys' !! l = Some st' /\ backoff_state st' = backoff_state st.
Proof.
  induction evs as [|ev evs IH]; intros sys sys' st Hwf Hrun Hc Hl.
  - injection Hrun as <-. now exists st.
  - cbn [run] in Hrun. cbn [completions] in Hc.
    destruct (step MAX BASE sys ev) as [sys1|] eqn:Hstep; [|discriminate].
    cbn in Hrun. apply app_eq_nil in Hc as [Hc1 Hc2].
    destruct (step_keeps_backoff sys sys1 ev l st Hwf Hstep) as (st1 & Hl1 & E1);
      [|exact Hl|].
    { cbn [completions]. rewrite Hstep. now rewrite app_nil_r. }
    destruct (IH sys1 sys' st1 (step_wf MAX BASE _ _ _ Hwf Hstep) Hrun Hc2 Hl1)
      as (st' & Hl' & E'). exists st'. split; [exact Hl'|]. congruence.
Qed.

End Streak.

(** X25. The BackoffState of an endpoint changes only when a probe cycle on
    it completes: the passing of time, workers starting probes, cycles that
    complete on other endpoints and rounds of the reloader keep the name,
    the failure streak and [backoff_until] of an object. So a cycle during
    which no other cycle on its endpoint completes fetches a frame if and
    only if its light probe fails and the streak the endpoint had when the
    cycle started is at least 3. *)
Theorem backoff_changes_on_completion_only (MAX : Z) (BASE : Q) (sys sys' : Sys)
    (evs : list Event) (l : loc) (st : Stream.t) :
  Sys_wf sys ->
  heap sys !! l = Some st ->
  run MAX BASE sys evs = Some sys' ->
  completions MAX BASE l sys evs = [] ->
  (exists st', heap sys' !! l = Some st'
               /\ Stream.name st' = Stream.name st
               /\ Stream.fails st' = Stream.fails st
               /\ Stream.backoff_until st' = Stream.backoff_until st)
  /\ forall rl wid r u net sys'',
       worker_state sys' (rl, wid) = Probing l r u ->
       step MAX BASE sys' (Finish rl wid net) = Some sys'' ->
       exists cs, calls sys'' = calls sys' ++ cs
                  /\ ((exists v, In (CallFrame v) cs)
                      <-> (light_probe net r u).1.1.1 = false
                          /\ 3 <= Stream.fails st).
Proof.
  intros Hwf Hl Hrun Hc.
  destruct (run_keeps_backoff MAX BASE evs l sys sys' st Hwf Hrun Hc Hl)
    as (st' & Hl' & E).
  unfold backoff_state in E. injection E as En Ef Eb.
  split; [exists st'; now split_and!|].
  intros rl wid r u net sys'' Hws Hstep. cbn [step] in Hstep.
  unfold worker_loop_finish in Hstep. rewrite Hws in Hstep.
  unfold probe_cycle in Hstep. rewrite Hl' in Hstep. cbn in Hstep.
  injection Hstep as <-. cbn [calls]. eexists. split; [reflexivity|].
  rewrite <- Ef.
  assert (Hlight : forall v, (light_probe net r u).2 <> CallFrame v).
  { intros v. unfold light_probe. destruct r; discriminate. }
  unfold with_fallback.
  destruct ((light_probe net r u).1.1.1); cbn [negb andb snd].
  - split; [|intros [H _]; discriminate].
    intros (v & [H|[]]). now apply Hlight in H.
  - destruct (Z.leb_spec 3 (Stream.fails st')) as [H3|H3]; cbn [snd].
    + split; [now split|]. intros _. eexists. right. now left.
    + split; [|intros [_ H]; lia].
      intros (v & [H|[]]). now apply Hlight in H.
Qed.

(** Camera "b" has failed once; then the file lists one other camera only:
    the object of "b" is dropped, with its BackoffState as it was. *)
Lemma backoff_changes_on_completion_only_witness :
  exists sys0 sys sys' st st',
    run_monitor six_cameras = Done sys0
    /\ run 32 5 sys0 [Begin true 0; Begin true 1; Advance (1 # 100);
                      Finish true 1 dead_net] = Some sys
    /\ run 32 5 sys [Reload (one_camera "rtsp://10.0.0.1/live"); Advance 1]
       = Some sys'
    /\ heap sys !! 1%nat = Some st
    /\ Stream.fails st = 1
    /\ heap sys' !! 1%nat = Some st'
    /\ Stream.fails st' = Stream.fails st
    /\ Stream.backoff_until st' = Stream.backoff_until st.
Proof.
  pose (sys0 := match run_monitor six_cameras with
                | Done s => s
                | Raise _ => one_eligible_sys
                end).
  pose (sys := match run 32 5 sys0 [Begin true 0; Begin true 1; Advance (1 # 100);
                                    Finish true 1 dead_net] with
               | Some s => s
               | None => sys0
               end).
  pose (evs := [Reload (one_camera "rtsp://10.0.0.1/live"); Advance 1]).
  pose (sys' := match run 32 5 sys evs with
                | Some s => s
                | None => sys0
                end).
  pose (st := default (sample_stream 0 0) (heap sys !! 1%nat)).
  assert (H0 : run_monitor six_cameras = Done sys0) by (vm_compute; reflexivity).
  assert (H1 : run 32 5 sys0 [Begin true 0; Begin true 1; Advance (1 # 100);
                              Finish true 1 dead_net] = Some sys)
    by (vm_compute; reflexivity).
  assert (H2 : run 32 5 sys evs = Some sys') by (vm_compute; reflexivity).
  assert (Hst : heap sys !! 1%nat = Some st) by (vm_compute; reflexivity).
  assert (Hwf : Sys_wf sys)
    by exact (run_wf 32 5 _ sys0 sys (run_monitor_wf six_cameras sys0 H0) H1).
  assert (Hc : completions 32 5 1%nat sys evs = []) by (vm_compute; reflexivity).
  destruct (backoff_changes_on_completion_only 32 5 sys sys' evs 1%nat st
              Hwf Hst H2 Hc) as ((st' & Hst' & _ & Hf & Hb) & _).
  exists sys0, sys, sys', st, st'.
  split; [exact H0|]. split; [exact H1|]. split; [exact H2|].
  split; [exact Hst|]. split; [vm_compute; reflexivity|].
  split; [exact Hst'|]. split; [exact Hf | exact Hb].
Defined.

(** ** A lane with an eligible endpoint is served *)

(** X22. Progress. In a well-formed state, a waiting worker whose index is
    below MAX_WORKERS_PER_TYPE and below the worker count of its lane, as
    worker 0 of a lane that is not empty always is, starts a probe whenever
    the lane has an eligible endpoint: a probe of the first eligible
    endpoint of the lap from the cursor, with the family and URL that
    object has. *)
Theorem eligible_endpoint_is_probed (MAX : Z) (sys : Sys) (rl : bool) (wid : nat)
    (s : loc) :
  Sys_wf sys ->
  worker_state sys (rl, wid) = Waiting ->
  Z.of_nat wid < MAX ->
  (wid = 0%nat
   \/ Z.of_nat wid < (workers_and_delay MAX (sched sys) (lane_of (sched sys) rl)).1) ->
  head (filter (fun s => eligible (heap sys) (clock sys) s = true)
          (from_cursor (lane_of (sched sys) rl))) = Some s ->
  exists sys' st,
    worker_loop_begin MAX sys rl wid = Some sys'
    /\ heap sys !! s = Some st
    /\ worker_state sys' (rl, wid) = Probing s (Stream.is_rtsp st) (Stream.url st)
    /\ heap sys' = heap sys.
Proof.
  intros (_ & Hl & _) Hw Hmax HW Hhd.
  assert (Hin : s ∈ Lane.items (lane_of (sched sys) rl)).
  { assert (Hf : s ∈ filter (fun s => eligible (heap sys) (clock sys) s = true)
                       (from_cursor (lane_of (sched sys) rl))).
    { destruct (filter _ _); [discriminate|]. injection Hhd as ->. left. }
    apply list_elem_of_filter in Hf as [_ Hf]. unfold from_cursor in Hf.
    now apply elem_of_rotate in Hf. }
  assert (Hne : Lane.items (lane_of (sched sys) rl) <> []).
  { intros E. rewrite E in Hin. now apply elem_of_nil in Hin. }
  assert (HW' : Z.of_nat wid
                < (workers_and_delay MAX (sched sys) (lane_of (sched sys) rl)).1).
  { destruct HW as [->|HW]; [|exact HW].
    pose proof (workers_le_items MAX (sched sys) _ Hne). simpl. lia. }
  destruct (Hl rl) as [_ Hall].
  rewrite Forall_forall in Hall. destruct (Hall s Hin) as [st Hst].
  pose proof (begin_selects MAX sys rl wid s st Hmax Hw HW' (Hl rl) Hhd Hst) as Hb.
  eexists _, st. split; [exact Hb|]. split; [exact Hst|].
  split; [|reflexivity].
  rewrite worker_state_insert. now rewrite decide_True.
Qed.

Lemma eligible_endpoint_is_probed_witness :
  exists sys' st,
    worker_loop_begin 32 one_eligible_sys true 0 = Some sys'
    /\ heap one_eligible_sys !! 0%nat = Some st
    /\ worker_state sys' (true, 0%nat) = Probing 0 (Stream.is_rtsp st) (Stream.url st)
    /\ heap sys' = heap one_eligible_sys.
Proof.
  apply (eligible_endpoint_is_probed 32 one_eligible_sys true 0 0%nat).
  - split_and!.
    + intros n l Hn. vm_compute in Hn. discriminate.
    + intros b. split.
      * destruct b; [right; simpl; lia | left; reflexivity].
      * destruct b; [|constructor].
        repeat (apply List.Forall_cons; [eexists; reflexivity|]).
        apply List.Forall_nil.
    + intros [|]; [|constructor].
      apply (bool_decide_unpack (NoDup [0; 1; 2; 3; 4; 5]%nat)). vm_compute. exact I.
    + intros w s r u Hw. unfold worker_state in Hw. cbn [workers one_eligible_sys] in Hw.
      rewrite lookup_empty in Hw. discriminate.
  - reflexivity.
  - lia.
  - now left.
  - vm_compute. reflexivity.
Defined.

(** ** The round robin stays inside its lane *)

(** X24. [next_rr] never indexes its lane out of range. In every state
    reached from start-up, whatever the interleaving of workers, completed
    probes (also those whose [record] raises) and reload rounds (also rounds
    that shrink a lane under a cursor or end in an exception), a call of
    [next_rr] on either lane, at any time, raises nothing: it returns none,
    or an item of the lane that is an object whose backoff has passed. *)
Theorem next_rr_never_raises (MAX : Z) (BASE : Q) (file : io RawConfig)
    (evs : list Event) (sys0 sys : Sys) :
  run_monitor file = Done sys0 ->
  run MAX BASE sys0 evs = Some sys ->
  forall b now,
    exists r,
      (Lane.next_rr (heap sys) now (lane_of (sched sys) b)).1 = Done r
      /\ forall s, r = Some s ->
           s ∈ Lane.items (lane_of (sched sys) b)
           /\ exists st, heap sys !! s = Some st
                         /\ (Stream.backoff_until st <= now)%Q.
Proof.
  intros H0 Hrun b now.
  pose proof (run_monitor_wf file sys0 H0) as Hwf0.
  pose proof (run_wf MAX BASE evs sys0 sys Hwf0 Hrun) as (_ & Hl & _).
  pose proof (next_rr_head (heap sys) now _ (Hl b)) as Hhead.
  pose proof (next_rr_elem (heap sys) now (lane_of (sched sys) b)) as He.
  rewrite Hhead in He |- *. eexists. split; [reflexivity|].
  intros s Hs. rewrite Hs in He.
  destruct (He s eq_refl) as (Hin & st & Hst & Hq).
  split; [exact Hin|]. exists st. split; [exact Hst|]. now apply Qle_bool_iff.
Qed.

(** Six cameras are replaced by one while two probes are in flight and the
    cursor of the lane stands at 2. The next call of [next_rr] returns the
    new camera. *)
Lemma next_rr_never_raises_witness :
  exists sys0 sys,
    run_monitor six_cameras = Done sys0
    /\ run 32 5 sys0
         [Begin true 0; Begin true 1; Reload (one_camera "rtsp://10.0.0.7/live");
          Finish true 1 dead_net; Finish true 0 live_net; Advance 2] = Some sys
    /\ Lane.i (lane_of (sched sys) true) = 0%nat
    /\ (Lane.next_rr (heap sys) (clock sys) (lane_of (sched sys) true)).1
       = Done (Some 6%nat).
Proof.
  pose (sys0 := match run_monitor six_cameras with
                | Done s => s
                | Raise _ => one_eligible_sys
                end).
  pose (evs := [Begin true 0; Begin true 1; Reload (one_camera "rtsp://10.0.0.7/live");
                Finish true 1 dead_net; Finish true 0 live_net; Advance 2]).
  pose (sys := match run 32 5 sys0 evs with
               | Some s => s
               | None => sys0
               end).
  assert (H0 : run_monitor six_cameras = Done sys0) by (vm_compute; reflexivity).
  assert (H1 : run 32 5 sys0 evs = Some sys) by (vm_compute; reflexivity).
  exists sys0, sys. split; [exact H0|]. split; [exact H1|].
  split; [vm_compute; reflexivity|].
  destruct (next_rr_never_raises 32 5 six_cameras evs sys0 sys H0 H1 true (clock sys))
    as (r & Hr & _).
  rewrite Hr. vm_compute in Hr. injection Hr as <-. reflexivity.
Defined.

(** ** The lanes between two reloads *)

Section LanesInvariant.

Variables (MAX : Z) (BASE : Q).

Lemma name_le_total : Total name_le.
Proof. intros a b. apply String.leb_total. Qed.

Lemma state_values_lookup h st v : v ∈ state_values h st -> h !! v.1 = Some v.2.
Proof.
  unfold state_values. rewrite list_elem_of_omap. intros (x & _ & Hf).
  destruct (h !! x) eqn:E; simpl in Hf; [|discriminate].
  injection Hf as <-. exact E.
Qed.

Lemma lane_names_values (h : Heap) (vs : list (loc * Stream.t)) :
  Forall (fun v => h !! v.1 = Some v.2) vs ->
  omap (fun s => Stream.name <$> h !! s) vs.*1 = (fun v => Stream.name v.2) <$> vs.
Proof.
  induction 1 as [|v vs Hv _ IH]; [reflexivity|].
  cbn. rewrite Hv. cbn. f_equal. exact IH.
Qed.

(** [rebuild] leaves each lane in the order of the names. *)
Lemma rebuild_sorted h s b : Sorted str_le (lane_names h (lane_of (rebuild h s) b)).
Proof.
  assert (H : forall (P : loc * Stream.t -> Prop) `{!forall v, Decision (P v)},
            Sorted str_le
              (omap (fun s => Stream.name <$> h !! s)
                 (sorted_by_name (filter P (state_values h (Scheduler.state s)))))).
  { intros P ?. unfold sorted_by_name. rewrite lane_names_values.
    - apply Sorted_fmap with (R1 := name_le); [auto|].
      pose proof name_le_total as Htotal. apply Sorted_merge_sort. exact Htotal.
    - apply Forall_forall. intros v Hv. rewrite merge_sort_Permutation in Hv.
      apply list_elem_of_filter in Hv as [_ Hv].
      eapply state_values_lookup; eauto. }
  destruct b; apply H.
Qed.

(** Objects that keep their names leave the names of a lane as they are. *)
Lemma lane_names_kept (h h' : Heap) (l : Lane.t) :
  Forall (fun s => is_Some (h !! s)) (Lane.items l) ->
  (forall s st, h !! s = Some st ->
     exists st', h' !! s = Some st' /\ Stream.name st' = Stream.name st) ->
  lane_names h' l = lane_names h l.
Proof.
  intros Hall Hk. unfold lane_names.
  induction Hall as [|s its [st Hs] _ IH]; [reflexivity|].
  destruct (Hk s st Hs) as (st' & Hs' & Hn).
  cbn. rewrite Hs, Hs'. cbn. rewrite Hn. f_equal. exact IH.
Qed.

Lemma rebuild_mem h s l b :
  l ∈ Lane.items (lane_of (rebuild h s) b)
  <-> exists n st, Scheduler.state (rebuild h s) !! n = Some l
                   /\ h !! l = Some st /\ Stream.is_rtsp st = b.
Proof.
  destruct (rebuild_lanes h s) as (_ & Est & _ & _ & Hl). rewrite Est. apply Hl.
Qed.

Lemma run_monitor_lanes file sys : run_monitor file = Done sys -> Lanes_ok sys.
Proof.
  unfold run_monitor, Scheduler_init. intros H.
  destruct (init_db _); [|discriminate]. cbn in H.
  destruct (initial_state _ [] ∅) as [[h st]|] eqn:Hi; [|discriminate].
  cbn in H. injection H as <-. unfold Lanes_ok. cbn [heap sched]. split.
  - intros l b. apply rebuild_mem.
  - intros b. apply rebuild_sorted.
Qed.

Lemma step_lanes sys sys' ev :
  Sys_wf sys -> Lanes_ok sys -> step MAX BASE sys ev = Some sys' -> Lanes_ok sys'.
Proof.
  intros Hwf [Hmem Hsort] Hstep.
  destruct ev as [dt|rl wid|rl wid net|file]; cbn [step] in Hstep.
  - destruct (Qle_bool 0 dt); [|discriminate]. injection Hstep as <-. now split.
  - destruct (begin_frame MAX _ _ _ _ Hstep)
      as (Hh & _ & _ & _ & _ & _ & Es & Ei & _).
    split.
    + intros l b. rewrite Hh, Es, Ei. apply Hmem.
    + intros b. unfold lane_names. rewrite Hh, Ei. apply Hsort.
  - destruct Hwf as (Hst & Hl & Hnd & Hw).
    unfold worker_loop_finish in Hstep.
    destruct (worker_state sys (rl, wid)) as [|s rtsp url|] eqn:Hws; try discriminate.
    unfold probe_cycle in Hstep.
    destruct (heap sys !! s) as [st|] eqn:Hs; [|discriminate].
    cbn in Hstep. injection Hstep as <-. unfold Lanes_ok. cbn [heap sched].
    set (st' := (apply_outcome BASE (clock sys) st _).1).
    assert (Hsame : Stream.name st' = Stream.name st
                    /\ Stream.is_rtsp st' = Stream.is_rtsp st).
    { unfold st'. destruct (with_fallback _ _ _).1 as [[[] m] la]; now split. }
    destruct Hsame as [Hname Hfam].
    assert (Hlen : (s < length (heap sys))%nat) by now apply lookup_lt_Some in Hs.
    split.
    + intros l b. rewrite Hmem. split; intros (n & st0 & Hn & Hl0 & Hb).
      * destruct (decide (l = s)) as [->|Hne].
        -- exists n, st'. split_and!; [exact Hn | now apply list_lookup_insert_eq |].
           congruence.
        -- exists n, st0. split_and!; try assumption.
           now rewrite list_lookup_insert_ne.
      * destruct (decide (l = s)) as [->|Hne].
        -- rewrite list_lookup_insert_eq in Hl0 by exact Hlen.
           injection Hl0 as <-. exists n, st. split_and!; try assumption. congruence.
        -- rewrite list_lookup_insert_ne in Hl0 by congruence.
           exists n, st0. now split_and!.
    + intros b. rewrite (lane_names_kept (heap sys)); [apply Hsort | apply Hl |].
      intros s0 st0 Hs0. destruct (decide (s0 = s)) as [->|Hne].
      * exists st'. split; [now apply list_lookup_insert_eq | congruence].
      * exists st0. split; [now rewrite list_lookup_insert_ne | reflexivity].
  - destruct (reloader_task sys); [discriminate|]. injection Hstep as <-.
    unfold Lanes_ok. cbn [heap sched]. destruct Hwf as (Hwf & _).
    unfold reloader.
    destruct (read_cfg file) as [new|e]; [|now split].
    case_decide; [now split|].
    destruct (init_db (streams new)) as [[]|e] eqn:Hdb.
    + pose proof (sync_streams_spec (streams new) (heap sys)
                    (Scheduler.state (sched sys)) ∅ Hwf Hdb) as Hs.
      cbv zeta in Hs.
      destruct (sync_streams _ _ _ _) as [ex [[h1 st1] names1]].
      cbn [fst snd] in Hs |- *.
      destruct Hs as (-> & _). cbn [fst snd]. split.
      * intros l b. apply rebuild_mem.
      * intros b. apply rebuild_sorted.
    + cbn [fst snd]. split; [|exact Hsort].
      intros l b. destruct b; [apply (Hmem l true) | apply (Hmem l false)].
Qed.

Lemma run_lanes evs : forall sys sys',
  Sys_wf sys -> Lanes_ok sys -> run MAX BASE sys evs = Some sys' -> Lanes_ok sys'.
Proof.
  induction evs as [|ev evs IH]; intros sys sys' Hwf Hok Hrun.
  - now injection Hrun as <-.
  - cbn [run] in Hrun.
    destruct (step MAX BASE sys ev) as [sys1|] eqn:Hstep; [|discriminate].
    cbn in Hrun. eapply IH; [| |exact Hrun].
    + eapply step_wf; eauto.
    + eapply step_lanes; eauto.
Qed.

End LanesInvariant.

(** X8. The lanes in every state the running system reaches. Each lane is
    in the order of the names of its endpoints; every item of a lane is an
    object of the state dictionary, under its own name; and no object stands
    in both lanes. As long as the reloader has not ended, each lane moreover
    holds exactly the objects of the state dictionary that are of its
    family, so that every endpoint of the state dictionary stands in one
    lane and not in the other. (The lanes are replaced by [rebuild] only, at
    start-up and at the end of a round of the reloader that completes; a
    round that raises ends the reloader and rebuilds nothing, whatever it
    has written to the objects before.) Completed probes, which rewrite the
    objects, leave all this as it is. *)
Theorem lanes_in_name_order (MAX : Z) (BASE : Q) (file : io RawConfig)
    (evs : list Event) (sys0 sys : Sys) :
  run_monitor file = Done sys0 ->
  run MAX BASE sys0 evs = Some sys ->
  (forall b, Sorted str_le (lane_names (heap sys) (lane_of (sched sys) b)))
  /\ (forall b l, l ∈ Lane.items (lane_of (sched sys) b) ->
        exists n st, Scheduler.state (sched sys) !! n = Some l
                     /\ heap sys !! l = Some st /\ Stream.name st = n)
  /\ (forall l, l ∈ Lane.items (lane_of (sched sys) true) ->
                l ∉ Lane.items (lane_of (sched sys) false))
  /\ (reloader_task sys = None ->
      Lanes_ok sys
      /\ forall n l, Scheduler.state (sched sys) !! n = Some l ->
           exists b, l ∈ Lane.items (lane_of (sched sys) b)
                     /\ l ∉ Lane.items (lane_of (sched sys) (negb b))).
Proof.
  intros H0 Hrun.
  pose proof (run_monitor_wf file sys0 H0) as Hwf0.
  pose proof (run_wf MAX BASE evs sys0 sys Hwf0 Hrun) as (Hst & _).
  pose proof (run_lanes MAX BASE evs sys0 sys Hwf0
                (run_monitor_lanes file sys0 H0) Hrun) as Hok.
  destruct Hok as [Hmem Hsort].
  split_and!.
  - exact Hsort.
  - intros b l Hin. apply Hmem in Hin as (n & st & Hn & Hl & _).
    exists n, st. split_and!; try assumption.
    destruct (Hst n l Hn) as (st' & Hl' & Hname). congruence.
  - intros l Ht Hf. apply Hmem in Ht as (_ & st & _ & Hl & Hb).
    apply Hmem in Hf as (_ & st' & _ & Hl' & Hb'). congruence.
  - intros _. split; [now split|]. intros n l Hn.
    destruct (Hst n l Hn) as (st & Hl & _).
    exists (Stream.is_rtsp st). split.
    + apply Hmem. now exists n, st.
    + intros Hin. apply Hmem in Hin as (n' & st' & _ & Hl' & Hb).
      rewrite Hl in Hl'. injection Hl' as <-. now destruct (Stream.is_rtsp st).
Qed.

(** Six cameras after three rounds of two workers, and then a round of the
    reloader that ends in an exception: the lanes are in name order. *)
Lemma lanes_in_name_order_witness :
  exists sys0 sys,
    run_monitor six_cameras = Done sys0
    /\ run 32 5 sys0 (two_workers_one_camera ++ [Reload missing_url]) = Some sys
    /\ reloader_task sys = Some (Exception "'url'")
    /\ lane_names (heap sys) (lane_of (sched sys) true)
       = ["a"; "b"; "c"; "d"; "e"; "f"]%string
    /\ forall b, Sorted str_le (lane_names (heap sys) (lane_of (sched sys) b)).
Proof.
  pose (sys0 := match run_monitor six_cameras with
                | Done s => s
                | Raise _ => one_eligible_sys
                end).
  pose (evs := two_workers_one_camera ++ [Reload missing_url]).
  pose (sys := match run 32 5 sys0 evs with
               | Some s => s
               | None => sys0
               end).
  assert (H0 : run_monitor six_cameras = Done sys0) by (vm_compute; reflexivity).
  assert (H1 : run 32 5 sys0 evs = Some sys) by (vm_compute; reflexivity).
  exists sys0, sys.
  split; [exact H0|]. split; [exact H1|].
  split; [vm_compute; reflexivity|]. split; [vm_compute; reflexivity|].
  exact (proj1 (lanes_in_name_order 32 5 six_cameras evs sys0 sys H0 H1)).
Defined.

(** ** The pace of a lane *)



(** ** Start-up and the first reload *)

Lemma load_and_read_streams raw :
  streams (load_config_with_mqtt_support (Done raw)) = default [] (raw_streams raw).
Proof. reflexivity. Qed.

(** X10. Start-up and reload read the same file with different defaults.
    [load_config_with_mqtt_support] fills a missing heartbeat with 20 and
    adds an "mqtt" key, [read_cfg] fills the heartbeat with 10 and adds no
    key. So with a file that lacks either key, the first round of the
    reloader finds the configuration changed although the file is the one
    the monitor started from: it replaces the configuration, rebuilds the
    lanes and puts both cursors back to 0, the reloader lives on, and a
    missing heartbeat counts as 20 seconds before that round and as 10
    after it. With both keys in the file the round changes nothing. *)
Theorem first_reload_replaces_startup_defaults (MAX : Z) (BASE : Q)
    (raw : RawConfig) (sys0 : Sys) :
  run_monitor (Done raw) = Done sys0 ->
  exists sys1,
    step MAX BASE sys0 (Reload (Done raw)) = Some sys1
    /\ reloader_task sys1 = None
    /\ heartbeat_seconds (Scheduler.cfg (sched sys0))
       = default 20 (raw_heartbeat_seconds raw)
    /\ heartbeat_seconds (Scheduler.cfg (sched sys1))
       = default 10 (raw_heartbeat_seconds raw)
    /\ (raw_heartbeat_seconds raw = None \/ raw_mqtt raw = None ->
        Scheduler.cfg (sched sys1) <> Scheduler.cfg (sched sys0)
        /\ read_cfg (Done raw) = Done (Scheduler.cfg (sched sys1))
        /\ forall b, Lane.i (lane_of (sched sys1) b) = 0%nat)
    /\ (is_Some (raw_heartbeat_seconds raw) -> is_Some (raw_mqtt raw) ->
        sys1 = sys0).
Proof.
  unfold run_monitor, Scheduler_init. intros H.
  destruct (init_db (streams (load_config_with_mqtt_support (Done raw))))
    as [[]|] eqn:Hdb; [|discriminate].
  cbn in H.
  destruct (initial_state _ [] ∅) as [[h st]|] eqn:Hi; [|discriminate].
  cbn in H. injection H as <-.
  assert (Hwf : State_wf h st).
  { change h with (h, st).1. change st with (h, st).2 at 2.
    eapply initial_state_wf; [|exact Hi].
    intros n l Hn. rewrite lookup_empty in Hn. discriminate. }
  eexists. split; [reflexivity|]. cbn [step reloader_task heap sched fst snd].
  destruct (rebuild_lanes h
              {| Scheduler.cfg := load_config_with_mqtt_support (Done raw);
                 Scheduler.state := st; Scheduler.rtsp := Lane.new "rtsp";
                 Scheduler.http := Lane.new "mjpeg" |}) as (Ecfg & Est & _).
  set (s0 := rebuild h _) in *. cbn [Scheduler.cfg Scheduler.state] in Ecfg, Est.
  unfold reloader. cbn [read_cfg mbind io_bind mret io_ret]. rewrite Ecfg.
  set (new := {| heartbeat_seconds := default 10 (raw_heartbeat_seconds raw);
                 timezone := _; streams := _; mqtt := raw_mqtt raw |}).
  assert (Hdb' : init_db (streams new) = Done tt) by exact Hdb.
  destruct (decide (new = load_config_with_mqtt_support (Done raw))) as [E|E].
  - cbn [fst snd]. rewrite Ecfg. split_and!; try reflexivity.
    + now rewrite <- E.
    + intros [Hh|Hm]; exfalso.
      * apply (f_equal heartbeat_seconds) in E. cbn in E. rewrite Hh in E.
        discriminate.
      * apply (f_equal mqtt) in E. cbn in E. rewrite Hm in E. discriminate.
  - rewrite Hdb'.
    pose proof (sync_streams_spec (streams new) h (Scheduler.state s0) ∅) as Hs.
    rewrite Est in Hs. specialize (Hs Hwf Hdb'). cbv zeta in Hs.
    cbn [Scheduler.state].
    destruct (sync_streams _ _ _ _) as [ex [[h1 st1] names1]].
    cbn [fst snd] in Hs |- *. destruct Hs as (-> & _). cbn [fst snd].
    match goal with |- context [rebuild h1 ?s] =>
      destruct (rebuild_lanes h1 s) as (Ecfg2 & _ & Hi1 & Hi2 & _) end.
    rewrite Ecfg2. cbn [Scheduler.cfg].
    split_and!; try reflexivity.
    + intros _. split_and!; [exact E | reflexivity |].
      intros b. destruct b; [exact Hi1 | exact Hi2].
    + intros [hb Hhb] [m Hm]. exfalso. apply E. unfold new.
      cbn [load_config_with_mqtt_support]. rewrite Hhb, Hm. reflexivity.
Qed.

Lemma first_reload_replaces_startup_defaults_witness :
  exists sys0 sys1,
    run_monitor (Done bare_config) = Done sys0
    /\ step 32 5 sys0 (Reload (Done bare_config)) = Some sys1
    /\ heartbeat_seconds (Scheduler.cfg (sched sys0)) = 20
    /\ heartbeat_seconds (Scheduler.cfg (sched sys1)) = 10.
Proof.
  pose (sys0 := match run_monitor (Done bare_config) with
                | Done s => s
                | Raise _ => one_eligible_sys
                end).
  assert (H0 : run_monitor (Done bare_config) = Done sys0) by (vm_compute; reflexivity).
  destruct (first_reload_replaces_startup_defaults 32 5 bare_config sys0 H0)
    as (sys1 & Hstep & _ & Hb & Ha & _).
  exists sys0, sys1. split_and!; [exact H0 | exact Hstep | exact Hb | exact Ha].
Defined.

(** ** A completed probe *)



(** ** The database *)

Section DbFacts.

Variables uni_alpha uni_alnum uni_space : N -> bool.

Local Abbreviation log_key := (Db.log_key uni_alpha uni_alnum uni_space).
Local Abbreviation gui_key := (Db.gui_key uni_alpha uni_alnum uni_space).
Local Abbreviation insert_streams := (Db.insert_streams uni_alpha uni_alnum uni_space).
Local Abbreviation db_init := (Db.init_db uni_alpha uni_alnum uni_space).
Local Abbreviation db_record := (Db.record uni_alpha uni_alnum uni_space).
Local Abbreviation db_latest := (Db.latest_row uni_alpha uni_alnum uni_space).
Local Abbreviation db_history := (Db.history_rows uni_alpha uni_alnum uni_space).
Local Abbreviation db_status := (Db.api_status uni_alpha uni_alnum uni_space).
Local Abbreviation db_drop := (Db.drop_tables uni_alpha uni_alnum uni_space).

(** Both programs name the table of a stream alike. *)
Lemma gui_key_log_key name : gui_key name = log_key name.
Proof. unfold Db.gui_key, Db.log_key. now rewrite table_name_tname. Qed.

Lemma last_url_names entries n :
  init_db entries = Done tt ->
  (n ∈ entry_names entries <-> is_Some (last_url entries n)).
Proof.
  induction entries as [|e rest IH]; intros Hdb.
  - cbn. split; [intros H; now apply elem_of_nil in H | intros [u H]; discriminate].
  - cbn [init_db] in Hdb. cbn [last_url entry_names omap list_omap].
    destruct (entry_name e) as [n0|] eqn:En; [|discriminate].
    destruct (entry_url e) as [u0|] eqn:Eu; [|discriminate].
    specialize (IH Hdb). fold (entry_names rest). rewrite elem_of_cons, IH.
    destruct (last_url rest n) as [u|]; [split; eauto|].
    case_decide as E.
    + injection E as ->. split; eauto.
    + split; [intros [->|[u H]]; [congruence|discriminate] | intros [u H]; discriminate].
Qed.

Lemma create_table_lookup (key : Str) (logs : gmap Str (list Row)) (k : Str) :
  Db.create_table key logs !! k
  = match logs !! k with
    | Some rows => Some rows
    | None => if decide (k = key) then Some [] else None
    end.
Proof.
  unfold Db.create_table. destruct (logs !! key) as [rows|] eqn:E.
  - destruct (logs !! k) eqn:E2; [reflexivity|].
    case_decide; [subst; congruence|reflexivity].
  - destruct (decide (k = key)) as [->|Hne].
    + now rewrite lookup_insert_eq, E.
    + rewrite lookup_insert_ne by congruence. now destruct (logs !! k).
Qed.

(** What the loop of [init_db] leaves. *)
Lemma insert_streams_spec entries : forall db,
  init_db entries = Done tt ->
  exists db',
    insert_streams entries db = Done db'
    /\ Db.users_table db' = Db.users_table db
    /\ (forall n, Db.streams_table db' !! n
                  = match last_url entries n with
                    | Some u => Some u
                    | None => Db.streams_table db !! n
                    end)
    /\ (forall k, Db.log_tables db' !! k
                  = match Db.log_tables db !! k with
                    | Some rows => Some rows
                    | None => if decide (k ∈ log_key <$> entry_names entries)
                              then Some [] else None
                    end).
Proof.
  induction entries as [|e rest IH]; intros db Hdb.
  - exists db. split_and!; try reflexivity.
    intros k. destruct (Db.log_tables db !! k); [reflexivity|].
    rewrite decide_False; [reflexivity|]. cbn. apply not_elem_of_nil.
  - cbn [init_db] in Hdb. cbn [Db.insert_streams last_url entry_names omap list_omap].
    destruct (entry_name e) as [n0|] eqn:En; [|discriminate].
    destruct (entry_url e) as [u0|] eqn:Eu; [|discriminate].
    fold (entry_names rest).
    destruct (IH {| Db.streams_table := <[n0 := u0]> (Db.streams_table db);
                    Db.users_table := Db.users_table db;
                    Db.log_tables := Db.create_table (log_key n0) (Db.log_tables db) |}
                Hdb) as (db' & Hrun & Hu & Hs & Hl).
    exists db'. cbn [Db.streams_table Db.users_table Db.log_tables] in *.
    split_and!; try assumption.
    + intros n. rewrite Hs. destruct (last_url rest n); [reflexivity|].
      case_decide as E.
      * injection E as ->. now rewrite lookup_insert_eq.
      * rewrite lookup_insert_ne; [reflexivity|congruence].
    + intros k. rewrite Hl, create_table_lookup, fmap_cons.
      destruct (Db.log_tables db !! k); [reflexivity|].
      destruct (decide (k = log_key n0)) as [->|Hne].
      * rewrite decide_True by left. reflexivity.
      * destruct (decide (k ∈ log_key <$> entry_names rest)) as [Hin|Hout].
        -- rewrite decide_True by now right. reflexivity.
        -- rewrite decide_False; [reflexivity|].
           intros Hin. apply elem_of_cons in Hin as [?|?]; congruence.
Qed.

Lemma insert_streams_done entries : forall db db',
  insert_streams entries db = Done db' -> init_db entries = Done tt.
Proof.
  induction entries as [|e rest IH]; intros db db' H; [reflexivity|].
  cbn [Db.insert_streams] in H. cbn [init_db].
  destruct (entry_name e); [|discriminate].
  destruct (entry_url e); [|discriminate]. eapply IH; eauto.
Qed.

Lemma drop_tables_lookup removed : forall db (k : Str),
  Db.log_tables (db_drop removed db) !! k
  = if decide (k ∈ gui_key <$> removed) then None else Db.log_tables db !! k.
Proof.
  induction removed as [|n removed IH]; intros db k.
  - cbn. rewrite decide_False; [reflexivity|apply not_elem_of_nil].
  - change (db_drop (n :: removed) db)
      with (db_drop removed
              {| Db.streams_table := Db.streams_table db;
                 Db.users_table := Db.users_table db;
                 Db.log_tables := delete (gui_key n) (Db.log_tables db) |}).
    rewrite IH. cbn [Db.log_tables]. rewrite fmap_cons.
    destruct (decide (k ∈ gui_key <$> removed)) as [Hin|Hout].
    + rewrite decide_True by now right. reflexivity.
    + destruct (decide (k = gui_key n)) as [->|Hne].
      * rewrite decide_True by left. apply lookup_delete_eq.
      * rewrite lookup_delete_ne by congruence. rewrite decide_False; [reflexivity|].
        intros Hin. apply elem_of_cons in Hin as [?|?]; congruence.
Qed.

Lemma drop_tables_streams removed : forall db,
  Db.streams_table (db_drop removed db) = Db.streams_table db
  /\ Db.users_table (db_drop removed db) = Db.users_table db.
Proof.
  induction removed as [|n removed IH]; intros db; [now split|].
  change (db_drop (n :: removed) db)
    with (db_drop removed
            {| Db.streams_table := Db.streams_table db;
               Db.users_table := Db.users_table db;
               Db.log_tables := delete (gui_key n) (Db.log_tables db) |}).
  destruct (IH {| Db.streams_table := Db.streams_table db;
                  Db.users_table := Db.users_table db;
                  Db.log_tables := delete (gui_key n) (Db.log_tables db) |})
    as [-> ->]. now split.
Qed.

(** X12. What [init_db] guarantees. When it completes, every stream of the
    configuration has its log table, so that recording a row for it
    succeeds and the row is then its latest row; no log table that existed
    has lost a row and the tables created are empty; the [streams] table
    holds the last URL listed for every configured name and still lists
    every name it listed before, configured or not; the [users] table is
    not empty, and is untouched unless it was empty; and running [init_db]
    again with the same configuration changes nothing. *)
Theorem init_db_tables (entries : list Entry) (db db' : Db.t) :
  db_init entries db = Done db' ->
  (forall n row, n ∈ entry_names entries ->
     exists db'', db_record db' n row = Done db'' /\ db_latest db'' n = Some row)
  /\ (forall k rows, Db.log_tables db !! k = Some rows ->
        Db.log_tables db' !! k = Some rows)
  /\ (forall k, Db.log_tables db !! k = None ->
        Db.log_tables db' !! k = None \/ Db.log_tables db' !! k = Some [])
  /\ (forall n, is_Some (Db.streams_table db !! n) ->
        is_Some (Db.streams_table db' !! n))
  /\ (forall n, n ∈ entry_names entries ->
        Db.streams_table db' !! n = last_url entries n)
  /\ Db.users_table db' <> []
  /\ (Db.users_table db <> [] -> Db.users_table db' = Db.users_table db)
  /\ db_init entries db' = Done db'.
Proof.
  unfold Db.init_db. intros Hinit.
  pose proof (insert_streams_done _ _ _ Hinit) as Hdb.
  match type of Hinit with
  | Db.insert_streams _ _ _ _ ?d0 = _ =>
      destruct (insert_streams_spec entries d0 Hdb) as (d & Hd & Hu & Hs & Hl)
  end.
  rewrite Hd in Hinit. injection Hinit as ->.
  cbn [Db.streams_table Db.users_table Db.log_tables] in Hu, Hs, Hl.
  assert (Husers : Db.users_table db' <> []).
  { rewrite Hu. destruct (Db.users_table db); discriminate. }
  split_and!.
  - intros n row Hn.
    assert (Hk : is_Some (Db.log_tables db' !! log_key n)).
    { rewrite Hl. destruct (Db.log_tables db !! log_key n); [eauto|].
      rewrite decide_True; [eauto|]. apply list_elem_of_fmap. now exists n. }
    destruct Hk as [rows Hk]. unfold Db.record. rewrite Hk.
    eexists. split; [reflexivity|]. unfold Db.latest_row.
    cbn [Db.log_tables]. rewrite gui_key_log_key.
    now rewrite lookup_insert_eq.
  - intros k rows Hk. now rewrite Hl, Hk.
  - intros k Hk. rewrite Hl, Hk. case_decide; [now right|now left].
  - intros n [u Hn]. rewrite Hs, Hn. destruct (last_url entries n); eauto.
  - intros n Hn. rewrite Hs. apply (last_url_names _ _ Hdb) in Hn as [u ->].
    reflexivity.
  - exact Husers.
  - intros Hne. rewrite Hu. now destruct (Db.users_table db).
  - destruct (insert_streams_spec entries
                {| Db.streams_table := Db.streams_table db';
                   Db.users_table := match Db.users_table db' with
                                     | [] => [("admin", "admin123")]%string
                                     | us => us
                                     end;
                   Db.log_tables := Db.log_tables db' |} Hdb)
      as (d2 & Hd2 & Hu2 & Hs2 & Hl2).
    rewrite Hd2. f_equal.
    cbn [Db.streams_table Db.users_table Db.log_tables] in Hu2, Hs2, Hl2.
    destruct d2 as [s2 u2 l2], db' as [s1 u1 l1].
    cbn [Db.streams_table Db.users_table Db.log_tables] in *. f_equal.
    + apply map_eq. intros n. rewrite Hs2, Hs.
      now destruct (last_url entries n).
    + rewrite Hu2. destruct u1; [congruence|reflexivity].
    + apply map_eq. intros k. rewrite Hl2, Hl.
      destruct (Db.log_tables db !! k); [reflexivity|].
      now case_decide.
Qed.

(** X13. What is recorded is what is shown. A row recorded for a stream is
    afterwards the latest row, and the first row of the history, of every
    name whose table is the same one (names that differ only in characters
    [tname] replaces, or only in the case of ASCII letters), and it is what
    [api_status] reports for such a name if the [streams] table lists it;
    the rows recorded before follow it; the rows of every other table, the
    [streams] table and the [users] table are as before. *)
Theorem record_then_read (db db' : Db.t) (n : string) (row : Row) :
  db_record db n row = Done db' ->
  (forall m, gui_key m = log_key n ->
     db_latest db' m = Some row
     /\ (forall k, db_history db' m (S k) = row :: db_history db m k)
     /\ (is_Some (Db.streams_table db !! m) ->
         db_status db' !! m = Some (Db.Latest row)))
  /\ (forall m, gui_key m <> log_key n ->
        db_latest db' m = db_latest db m
        /\ forall k, db_history db' m k = db_history db m k)
  /\ Db.streams_table db' = Db.streams_table db
  /\ Db.users_table db' = Db.users_table db.
Proof.
  unfold Db.record. intros H.
  destruct (Db.log_tables db !! log_key n) as [rows|] eqn:E; [|discriminate].
  injection H as <-. split_and!; try reflexivity.
  - intros m Hm. unfold Db.latest_row, Db.history_rows, Db.api_status.
    cbn [Db.log_tables Db.streams_table]. rewrite Hm.
    rewrite lookup_insert_eq, E. split_and!; try reflexivity.
    intros [u Hu]. rewrite map_lookup_imap, Hu. cbn [mbind option_bind].
    rewrite <- (gui_key_log_key m), Hm.
    now rewrite lookup_insert_eq.
  - intros m Hm. unfold Db.latest_row, Db.history_rows.
    cbn [Db.log_tables].
    rewrite lookup_insert_ne by congruence. now split.
Qed.

(** X14. The purge of the settings page works by table, not by name. After
    it, every name whose table is the table of a removed name, the removed
    names themselves and any stream still configured that shares the table,
    has no latest row and no history, recording a row for it raises, and
    [api_status] reports "no table" for it if the [streams] table lists it;
    once [init_db] has run again for a configuration that lists the name,
    its table is back, and empty. Tables of no removed name keep their
    rows, and the [streams] and [users] tables are not touched: a removed
    name stays in the [streams] table. *)
Theorem purge_drops_by_table (removed : list string) (db : Db.t) :
  (forall m n, n ∈ removed -> gui_key n = gui_key m ->
     db_latest (db_drop removed db) m = None
     /\ (forall k, db_history (db_drop removed db) m k = [])
     /\ (forall row, exists e, db_record (db_drop removed db) m row = Raise e)
     /\ (is_Some (Db.streams_table db !! m) ->
         db_status (db_drop removed db) !! m = Some Db.NoTable)
     /\ (forall entries db2,
           db_init entries (db_drop removed db) = Done db2 ->
           m ∈ entry_names entries ->
           Db.log_tables db2 !! gui_key m = Some []))
  /\ (forall m, (forall n, n ∈ removed -> gui_key n <> gui_key m) ->
        Db.log_tables (db_drop removed db) !! gui_key m
        = Db.log_tables db !! gui_key m)
  /\ Db.streams_table (db_drop removed db) = Db.streams_table db
  /\ Db.users_table (db_drop removed db) = Db.users_table db.
Proof.
  split_and!; try apply drop_tables_streams.
  - intros m n Hn Hk.
    assert (Hgone : Db.log_tables (db_drop removed db) !! gui_key m = None).
    { rewrite drop_tables_lookup. rewrite decide_True; [reflexivity|].
      apply list_elem_of_fmap. exists n. now split. }
    split_and!.
    + unfold Db.latest_row. now rewrite Hgone.
    + intros k. unfold Db.history_rows. rewrite Hgone. apply take_nil.
    + intros row. unfold Db.record. rewrite <- gui_key_log_key, Hgone. eauto.
    + intros [u Hu]. unfold Db.api_status.
      rewrite map_lookup_imap, (proj1 (drop_tables_streams removed db)), Hu.
      cbn [mbind option_bind]. now rewrite <- gui_key_log_key, Hgone.
    + unfold Db.init_db. intros entries db2 Hinit Hm.
      pose proof (insert_streams_done _ _ _ Hinit) as Hdb.
      match type of Hinit with
      | Db.insert_streams _ _ _ _ ?d0 = _ =>
          destruct (insert_streams_spec entries d0 Hdb) as (d & Hd & _ & _ & Hl)
      end.
      rewrite Hd in Hinit. injection Hinit as ->.
      cbn [Db.log_tables] in Hl. rewrite Hl, Hgone.
      rewrite decide_True; [reflexivity|].
      apply list_elem_of_fmap. exists m. split; [apply gui_key_log_key|exact Hm].
  - intros m Hm. rewrite drop_tables_lookup. rewrite decide_False; [reflexivity|].
    intros Hin. apply list_elem_of_fmap in Hin as (n & Hk & Hn).
    now apply (Hm n Hn).
Qed.

End DbFacts.

(** "Cam 1" is added to a database that knows "cam_1": no table is
    created, since the table of the one is the table of the other. *)
Lemma init_db_tables_witness :
  exists db',
    Db.init_db ascii_only ascii_only ascii_only
      [sample_entry "Cam 1" "rtsp://10.0.0.8/live"] sample_db = Done db'
    /\ Db.log_tables db' = Db.log_tables sample_db
    /\ Db.init_db ascii_only ascii_only ascii_only
         [sample_entry "Cam 1" "rtsp://10.0.0.8/live"] db' = Done db'.
Proof.
  pose (db' := match Db.init_db ascii_only ascii_only ascii_only
                       [sample_entry "Cam 1" "rtsp://10.0.0.8/live"] sample_db with
               | Done d => d
               | Raise _ => sample_db
               end).
  assert (H : Db.init_db ascii_only ascii_only ascii_only
                [sample_entry "Cam 1" "rtsp://10.0.0.8/live"] sample_db = Done db')
    by (vm_compute; reflexivity).
  exists db'. split; [exact H|]. split; [vm_compute; reflexivity|].
  exact (proj2 (proj2 (proj2 (proj2 (proj2 (proj2 (proj2
           (init_db_tables ascii_only ascii_only ascii_only _ sample_db db' H)))))))).
Defined.

(** A row recorded for "Cam 1" is the latest row of "cam_1". *)
Lemma record_then_read_witness :
  exists db',
    Db.record ascii_only ascii_only ascii_only sample_db "Cam 1"
      ("ok"%string, 7, "RTSP 200"%string) = Done db'
    /\ Db.latest_row ascii_only ascii_only ascii_only db' "cam_1"
       = Some ("ok"%string, 7, "RTSP 200"%string).
Proof.
  pose (db' := match Db.record ascii_only ascii_only ascii_only sample_db "Cam 1"
                       ("ok"%string, 7, "RTSP 200"%string) with
               | Done d => d
               | Raise _ => sample_db
               end).
  assert (H : Db.record ascii_only ascii_only ascii_only sample_db "Cam 1"
                ("ok"%string, 7, "RTSP 200"%string) = Done db')
    by (vm_compute; reflexivity).
  exists db'. split; [exact H|].
  refine (proj1 (proj1 (record_then_read ascii_only ascii_only ascii_only
                          sample_db db' "Cam 1" _ H) "cam_1"%string _)).
  vm_compute. reflexivity.
Defined.

(** ** The settings page *)

Section StripFacts.

Variable uni_space : N -> bool.

Local Abbreviation lstrip' := (lstrip uni_space).
Local Abbreviation strip' := (strip uni_space).

Lemma lstrip_idem s : lstrip' (lstrip' s) = lstrip' s.
Proof.
  induction s as [|c s IH]; [reflexivity|]. cbn [lstrip].
  destruct (isspace uni_space c) eqn:E; [exact IH|].
  cbn [lstrip]. now rewrite E.
Qed.

Lemma lstrip_head s :
  lstrip' s = [] \/ exists c t, lstrip' s = c :: t /\ isspace uni_space c = false.
Proof.
  induction s as [|c s IH]; [now left|]. cbn [lstrip].
  destruct (isspace uni_space c) eqn:E; [exact IH|]. right. eauto.
Qed.

Lemma lstrip_snoc l c :
  isspace uni_space c = false -> lstrip' (l ++ [c]) = lstrip' l ++ [c].
Proof.
  intros Hc. induction l as [|d l IH]; cbn [lstrip app].
  - now rewrite Hc.
  - destruct (isspace uni_space d); [exact IH|reflexivity].
Qed.

(** Stripping twice is stripping once. *)
Lemma strip_idem s : strip' (strip' s) = strip' s.
Proof.
  unfold strip.
  assert (Hl : lstrip' (rev (lstrip' (rev (lstrip' s))))
               = rev (lstrip' (rev (lstrip' s)))).
  { destruct (lstrip_head s) as [->|(c & t & -> & Hc)]; [reflexivity|].
    cbn [rev]. rewrite (lstrip_snoc _ _ Hc), rev_app_distr.
    cbn [rev app lstrip]. now rewrite Hc. }
  rewrite Hl, rev_involutive, lstrip_idem. reflexivity.
Qed.

Lemma lstrip_Forall (P : N -> Prop) s : Forall P s -> Forall P (lstrip' s).
Proof.
  induction 1 as [|c s Hc Hs IH]; [constructor|]. cbn [lstrip].
  destruct (isspace uni_space c); [exact IH|now constructor].
Qed.

Lemma strip_Forall (P : N -> Prop) s : Forall P s -> Forall P (strip' s).
Proof.
  intros H. unfold strip. apply Forall_rev, lstrip_Forall, Forall_rev, lstrip_Forall, H.
Qed.

Lemma str_bounded s : Forall (fun c => (c < 256)%N) (str s).
Proof.
  unfold str. apply Forall_forall. intros c Hc.
  apply list_elem_of_fmap in Hc as (a & -> & _). apply N_ascii_bounded.
Qed.

Lemma str_unstr l : Forall (fun c => (c < 256)%N) l -> str (unstr l) = l.
Proof.
  intros H. unfold str, unstr. rewrite list_ascii_of_string_of_list_ascii.
  induction H as [|c l Hc _ IH]; [reflexivity|].
  cbn [map]. rewrite IH. f_equal. now apply N_ascii_embedding.
Qed.

Lemma str_strip_idem s : str_strip uni_space (str_strip uni_space s) = str_strip uni_space s.
Proof.
  unfold str_strip. rewrite str_unstr by apply strip_Forall, str_bounded.
  now rewrite strip_idem.
Qed.

End StripFacts.

Section SettingsFacts.

Variable uni_space : N -> bool.
Variable py_int : string -> io Z.

Local Abbreviation clean := (clean_entry uni_space).
Local Abbreviation field := (form_field uni_space).
Local Abbreviation loop := (settings_loop uni_space).
Local Abbreviation post := (settings_post uni_space py_int).

Lemma nonempty_true s : nonempty s = true <-> s <> ""%string.
Proof.
  unfold nonempty. rewrite negb_true_iff. apply String.eqb_neq.
Qed.

Lemma clean_field form k1 k2 :
  nonempty (field form k1) && nonempty (field form k2) = true ->
  clean {| entry_name := Some (field form k1); entry_url := Some (field form k2) |}.
Proof.
  intros H. apply andb_true_iff in H as [H1 H2].
  apply nonempty_true in H1, H2.
  exists (field form k1), (field form k2). split_and!; try reflexivity; try assumption;
    apply str_strip_idem.
Qed.

Lemma clean_init_db entries : Forall clean entries -> init_db entries = Done tt.
Proof.
  induction 1 as [|e rest (n & u & Hn & Hu & _) _ IH]; [reflexivity|].
  cbn [init_db]. now rewrite Hn, Hu.
Qed.

Lemma current_streams_names entries ns :
  current_streams entries = Done ns ->
  ns = entry_names entries /\ length ns = length entries.
Proof.
  revert ns. induction entries as [|e rest IH]; intros ns H.
  - injection H as <-. now split.
  - cbn [current_streams] in H. cbn [entry_names omap list_omap].
    destruct (entry_name e) as [n|]; [|discriminate].
    destruct (current_streams rest) as [ns'|]; [|discriminate].
    cbn in H. injection H as <-. destruct (IH ns' eq_refl) as [-> Hl].
    split; [reflexivity|]. cbn. now rewrite Hl.
Qed.

(** What the loop over the streams of the page leaves. *)
Lemma settings_loop_spec form entries : forall i updated removed r,
  loop form i entries updated removed = Done r ->
  exists upd rem,
    r = (updated ++ upd, removed ++ rem)
    /\ Forall clean upd
    /\ (forall n, n ∈ rem <->
          exists j e, entries !! j = Some e /\ entry_name e = Some n
                      /\ nonempty (default ""%string
                                     (form !! indexed "del_" (i + j))) = true)
    /\ (forall e', e' ∈ upd <->
          exists j e, entries !! j = Some e
                      /\ nonempty (default ""%string
                                     (form !! indexed "del_" (i + j))) = false
                      /\ nonempty (field form (indexed "name_" (i + j)))
                         && nonempty (field form (indexed "url_" (i + j))) = true
                      /\ e' = {| entry_name := Some (field form (indexed "name_" (i + j)));
                                 entry_url := Some (field form (indexed "url_" (i + j))) |}).
Proof.
  induction entries as [|s rest IH]; intros i updated removed r H.
  - injection H as <-. exists [], []. rewrite !app_nil_r.
    split_and!; [reflexivity|constructor| |].
    + intros n. split; [intros Hn; now apply elem_of_nil in Hn|].
      intros (j & e & Hj & _). now rewrite lookup_nil in Hj.
    + intros e'. split; [intros Hn; now apply elem_of_nil in Hn|].
      intros (j & e & Hj & _). now rewrite lookup_nil in Hj.
  - cbn [settings_loop] in H.
    destruct (nonempty (default ""%string (form !! indexed "del_" i))) eqn:Hdel.
    + destruct (entry_name s) as [n0|] eqn:En; [|discriminate].
      destruct (IH _ _ _ _ H) as (upd & rem & -> & Hc & Hrem & Hupd).
      exists upd, (n0 :: rem). rewrite <- app_assoc. split_and!; try easy.
      * intros n. rewrite elem_of_cons, Hrem. split.
        -- intros [->|(j & e & Hj & Hn & Hd)].
           ++ exists 0%nat, s. rewrite Nat.add_0_r. now split_and!.
           ++ exists (S j), e. rewrite Nat.add_succ_r. now split_and!.
        -- intros ([|j] & e & Hj & Hn & Hd).
           ++ left. cbn in Hj. injection Hj as <-. congruence.
           ++ right. exists j, e. rewrite Nat.add_succ_r in Hd. now split_and!.
      * intros e'. rewrite Hupd. split.
        -- intros (j & e & Hj & Hd & Hne & He). exists (S j), e.
           rewrite Nat.add_succ_r. now split_and!.
        -- intros ([|j] & e & Hj & Hd & Hne & He).
           ++ rewrite Nat.add_0_r in Hd. congruence.
           ++ exists j, e. rewrite Nat.add_succ_r in Hd, Hne, He. now split_and!.
    + destruct (IH _ _ _ _ H) as (upd & rem & E & Hc & Hrem & Hupd).
      destruct (nonempty (field form (indexed "name_" i))
                && nonempty (field form (indexed "url_" i))) eqn:Hne.
      * exists ({| entry_name := Some (field form (indexed "name_" i));
                   entry_url := Some (field form (indexed "url_" i)) |} :: upd), rem.
        rewrite <- app_assoc in E. split_and!; [exact E | | |].
        -- constructor; [now apply clean_field|exact Hc].
        -- intros n. rewrite Hrem. split.
           ++ intros (j & e & Hj & Hn & Hd). exists (S j), e.
              rewrite Nat.add_succ_r. now split_and!.
           ++ intros ([|j] & e & Hj & Hn & Hd).
              ** rewrite Nat.add_0_r in Hd. congruence.
              ** exists j, e. rewrite Nat.add_succ_r in Hd. now split_and!.
        -- intros e'. rewrite elem_of_cons, Hupd. split.
           ++ intros [->|(j & e & Hj & Hd & Hn & He)].
              ** exists 0%nat, s. rewrite Nat.add_0_r. now split_and!.
              ** exists (S j), e. rewrite Nat.add_succ_r. now split_and!.
           ++ intros ([|j] & e & Hj & Hd & Hn & He).
              ** left. now rewrite Nat.add_0_r in He.
              ** right. exists j, e. rewrite Nat.add_succ_r in Hd, Hn, He.
                 now split_and!.
      * exists upd, rem. split_and!; [exact E | exact Hc | |].
        -- intros n. rewrite Hrem. split.
           ++ intros (j & e & Hj & Hn & Hd). exists (S j), e.
              rewrite Nat.add_succ_r. now split_and!.
           ++ intros ([|j] & e & Hj & Hn & Hd).
              ** rewrite Nat.add_0_r in Hd. congruence.
              ** exists j, e. rewrite Nat.add_succ_r in Hd. now split_and!.
        -- intros e'. rewrite Hupd. split.
           ++ intros (j & e & Hj & Hd & Hn & He). exists (S j), e.
              rewrite Nat.add_succ_r. now split_and!.
           ++ intros ([|j] & e & Hj & Hd & Hn & He).
              ** rewrite Nat.add_0_r in Hn. congruence.
              ** exists j, e. rewrite Nat.add_succ_r in Hd, Hn, He. now split_and!.
Qed.

End SettingsFacts.

(** A round of the reloader that reads a document whose entries all carry a
    name and a URL does not end the task, and puts the document in effect. *)
Lemma reloader_survives file h s new :
  State_wf h (Scheduler.state s) ->
  read_cfg file = Done new ->
  init_db (streams new) = Done tt ->
  (reloader file h s).1 = None
  /\ Scheduler.cfg (reloader file h s).2.2 = new.
Proof.
  intros Hwf Hread Hdb. unfold reloader. rewrite Hread.
  case_decide as E; [now split|]. rewrite Hdb.
  pose proof (sync_streams_spec (streams new) h (Scheduler.state s) ∅ Hwf Hdb) as Hs.
  cbv zeta in Hs. cbn [Scheduler.state].
  destruct (sync_streams _ _ _ _) as [ex [[h1 st1] names1]].
  cbn [fst snd] in Hs |- *. destruct Hs as (-> & _). cbn [fst snd].
  split; [reflexivity|].
  match goal with |- context [rebuild h1 ?s2] =>
    now rewrite (proj1 (rebuild_lanes h1 s2)) end.
Qed.

Section SettingsTheorems.

Variables uni_alpha uni_alnum uni_space : N -> bool.
Variable py_int : string -> io Z.

Local Abbreviation clean := (clean_entry uni_space).
Local Abbreviation field := (form_field uni_space).
Local Abbreviation loop := (settings_loop uni_space).
Local Abbreviation post := (settings_post uni_space py_int).
Local Abbreviation gui_key := (Db.gui_key uni_alpha uni_alnum uni_space).
Local Abbreviation db_latest := (Db.latest_row uni_alpha uni_alnum uni_space).
Local Abbreviation db_record := (Db.record uni_alpha uni_alnum uni_space).
Local Abbreviation db_drop := (Db.drop_tables uni_alpha uni_alnum uni_space).

(** The page submitted as it was rendered leaves the streams as they are. *)
Lemma settings_loop_echo form entries : forall i updated removed,
  Forall clean entries ->
  (forall j e, entries !! j = Some e ->
     form !! indexed "del_" (i + j) = None
     /\ form !! indexed "name_" (i + j) = entry_name e
     /\ form !! indexed "url_" (i + j) = entry_url e) ->
  loop form i entries updated removed = Done (updated ++ entries, removed).
Proof.
  induction entries as [|s rest IH]; intros i updated removed Hc Hform.
  - now rewrite app_nil_r.
  - apply Forall_cons in Hc as [(n & u & Hn & Hu & Hn0 & Hu0 & Hns & Hus) Hc].
    destruct (Hform 0%nat s eq_refl) as (Hd & Hfn & Hfu).
    rewrite Nat.add_0_r in Hd, Hfn, Hfu.
    cbn [settings_loop]. rewrite Hd. cbn [default from_option id nonempty String.eqb negb].
    unfold form_field. rewrite Hfn, Hfu, Hn, Hu. cbn [default from_option id].
    rewrite Hns, Hus.
    rewrite (proj2 (nonempty_true n) Hn0), (proj2 (nonempty_true u) Hu0).
    cbn [andb]. rewrite IH; [|exact Hc|].
    + rewrite <- app_assoc. cbn [app]. destruct s as [sn su]. cbn in Hn, Hu.
      now subst.
    + intros j e Hj. rewrite Nat.add_succ_l, <- Nat.add_succ_r.
      now apply (Hform (S j) e).
Qed.

(** X15. A configuration saved through the settings page can always be
    loaded. Whatever the form holds, the document written has a heartbeat
    between 2 and 3600, its streams all carry a name and a URL that are not
    empty and have no white space around them, and the other keys of the
    file are as before; so the round of the reloader that reads it does not
    end the reloader, and puts it in effect. *)
Theorem settings_saves_loadable_config (cfg cfg' : RawConfig)
    (form : gmap string string) (removed : list string) :
  post cfg form = Done (cfg', removed) ->
  (exists hb updated,
     raw_heartbeat_seconds cfg' = Some hb /\ 2 <= hb <= 3600
     /\ raw_streams cfg' = Some updated /\ Forall clean updated)
  /\ raw_timezone cfg' = raw_timezone cfg
  /\ raw_mqtt cfg' = raw_mqtt cfg
  /\ forall (MAX : Z) (BASE : Q) (sys : Sys),
       Sys_wf sys -> reloader_task sys = None ->
       exists sys1,
         step MAX BASE sys (Reload (Done cfg')) = Some sys1
         /\ reloader_task sys1 = None
         /\ 2 <= heartbeat_seconds (Scheduler.cfg (sched sys1)) <= 3600
         /\ streams (Scheduler.cfg (sched sys1)) = default [] (raw_streams cfg').
Proof.
  unfold settings_post. intros H.
  destruct (current_streams _) as [current|]; [|discriminate]. cbn in H.
  destruct (match form !! "hb"%string with
            | Some v => py_int v
            | None => Done 10
            end) as [hb|]; [|discriminate].
  cbn in H.
  destruct (loop form 0 (default [] (raw_streams cfg)) [] []) as [ur|] eqn:Hloop;
    [|discriminate].
  cbn in H. injection H as <- <-.
  destruct (settings_loop_spec uni_space form _ _ _ _ _ Hloop)
    as (upd & rem & -> & Hc & _).
  cbn [fst snd app raw_heartbeat_seconds raw_streams raw_timezone raw_mqtt].
  set (updated := if nonempty (field form "new_name") && nonempty (field form "new_url")
                  then upd ++ [_] else upd).
  assert (Hclean : Forall clean updated).
  { unfold updated.
    destruct (nonempty (field form "new_name") && nonempty (field form "new_url"))
      eqn:E; [|exact Hc].
    apply Forall_app. split; [exact Hc|]. constructor; [|constructor].
    now apply clean_field. }
  split_and!; try reflexivity.
  - exists (Z.max 2 (Z.min 3600 hb)), updated. split_and!; try reflexivity; try lia.
    exact Hclean.
  - intros MAX BASE sys (Hst & _) Halive. cbn [step]. rewrite Halive.
    eexists. split; [reflexivity|]. cbn [reloader_task sched].
    match goal with |- (reloader ?f _ _).1 = _ /\ _ =>
      destruct (reloader_survives f (heap sys) (sched sys)
                  {| heartbeat_seconds := Z.max 2 (Z.min 3600 hb);
                     timezone := default "UTC"%string (raw_timezone cfg);
                     streams := updated; mqtt := raw_mqtt cfg |}
                  Hst eq_refl (clean_init_db uni_space updated Hclean))
        as [-> ->] end.
    cbn [heartbeat_seconds streams default]. split_and!; try reflexivity; lia.
Qed.

(** X16. Saving the settings page without a change changes nothing. When
    the streams of the file all carry a name and a URL that are not empty
    and have no white space around them, the heartbeat of the file is
    between 2 and 3600, and the form holds what the page was rendered with
    (every name and URL, no box ticked, no new stream), the document written
    is the document read and no table is purged. *)
Theorem settings_unchanged_save (cfg : RawConfig) (form : gmap string string)
    (entries : list Entry) (hb : Z) (v : string) :
  raw_streams cfg = Some entries ->
  raw_heartbeat_seconds cfg = Some hb ->
  2 <= hb <= 3600 ->
  Forall clean entries ->
  form !! "hb"%string = Some v ->
  py_int v = Done hb ->
  (forall i e, entries !! i = Some e ->
     form !! indexed "del_" i = None
     /\ form !! indexed "name_" i = entry_name e
     /\ form !! indexed "url_" i = entry_url e) ->
  field form "new_name" = ""%string ->
  post cfg form = Done (cfg, []).
Proof.
  intros Hs Hhb Hr Hc Hf Hint Hform Hnew. unfold settings_post.
  rewrite Hs, Hf, Hint. cbn [default from_option id].
  assert (Hcur : current_streams entries = Done (entry_names entries)).
  { clear Hform Hs. induction Hc as [|e rest (n & u & Hn & _) _ IH]; [reflexivity|].
    cbn [current_streams entry_names omap list_omap]. rewrite Hn, IH. reflexivity. }
  rewrite Hcur. cbn [mbind io_bind].
  rewrite (settings_loop_echo form entries 0 [] [] Hc Hform).
  cbn [mbind io_bind fst snd app]. rewrite Hnew. cbn [nonempty String.eqb negb andb].
  fold (entry_names entries).
  replace (list_to_set (entry_names entries) ∖ list_to_set (entry_names entries))
    with (∅ : gset string) by set_solver.
  rewrite elements_empty. destruct cfg as [h t s m]. cbn in *. subst.
  replace (Z.max 2 (Z.min 3600 hb)) with hb by lia. reflexivity.
Qed.

(** X17. What the settings page purges. The names purged are names of the
    file as it was; every name of the file that is no longer a name of the
    document written (its stream was deleted, renamed, or submitted with an
    empty name or URL) is purged, and so is every name whose box was ticked,
    also when the document written lists that name again. The purge goes by
    table: a stream of the document written whose table is the table of a
    name that disappeared (a stream renamed by changing the case of a
    letter, a space into an underscore, or the white space around its name)
    has lost its rows, and recording a row for it raises. *)
Theorem settings_purge (cfg cfg' : RawConfig) (form : gmap string string)
    (removed : list string) :
  post cfg form = Done (cfg', removed) ->
  (forall a, a ∈ removed -> a ∈ entry_names (default [] (raw_streams cfg)))
  /\ (forall a, a ∈ entry_names (default [] (raw_streams cfg)) ->
        a ∉ entry_names (default [] (raw_streams cfg')) -> a ∈ removed)
  /\ (forall i e a, default [] (raw_streams cfg) !! i = Some e ->
        entry_name e = Some a ->
        nonempty (default ""%string (form !! indexed "del_" i)) = true ->
        a ∈ removed)
  /\ (forall a, a ∈ removed ->
        a ∉ entry_names (default [] (raw_streams cfg'))
        \/ exists i e, default [] (raw_streams cfg) !! i = Some e
                       /\ entry_name e = Some a
                       /\ nonempty (default ""%string
                                      (form !! indexed "del_" i)) = true)
  /\ forall (db : Db.t) (m a : string) (row : Row),
       a ∈ entry_names (default [] (raw_streams cfg)) ->
       a ∉ entry_names (default [] (raw_streams cfg')) ->
       gui_key a = gui_key m ->
       db_latest (db_drop removed db) m = None
       /\ exists e, db_record (db_drop removed db) m row = Raise e.
Proof.
  unfold settings_post. intros H.
  destruct (current_streams _) as [current|] eqn:Hcur; [|discriminate]. cbn in H.
  apply current_streams_names in Hcur as [-> _].
  destruct (match form !! "hb"%string with
            | Some v => py_int v
            | None => Done 10
            end) as [hb|]; [|discriminate].
  cbn in H.
  destruct (loop form 0 (default [] (raw_streams cfg)) [] []) as [ur|] eqn:Hloop;
    [|discriminate].
  cbn in H. injection H as <- <-.
  destruct (settings_loop_spec uni_space form _ _ _ _ _ Hloop)
    as (upd & rem & -> & _ & Hrem & _).
  cbn [fst snd app raw_streams default].
  set (updated := if nonempty (field form "new_name") && nonempty (field form "new_url")
                  then upd ++ [_] else upd).
  fold (entry_names updated).
  set (old := entry_names (default [] (raw_streams cfg))) in *.
  assert (Hin : forall a, a ∈ rem ++ elements
                    ((list_to_set old : gset string) ∖ list_to_set (entry_names updated))
                  <-> a ∈ rem \/ (a ∈ old /\ a ∉ entry_names updated)).
  { intros a. rewrite elem_of_app, elem_of_elements. set_solver. }
  assert (Hdel : forall a, a ∈ rem -> a ∈ old).
  { intros a Ha. apply Hrem in Ha as (j & e & Hj & Hn & _).
    unfold old, entry_names. apply list_elem_of_omap. exists e.
    split; [eapply list_elem_of_lookup_2; eauto|exact Hn]. }
  assert (Hgone : forall a, a ∈ old -> a ∉ entry_names updated ->
            a ∈ rem ++ elements
                  ((list_to_set old : gset string) ∖ list_to_set (entry_names updated))).
  { intros a Ha Hn. apply Hin. right. now split. }
  split_and!.
  - intros a Ha. apply Hin in Ha as [Ha|[Ha _]]; [now apply Hdel|exact Ha].
  - exact Hgone.
  - intros i e a Hi Hn Hd. apply Hin. left. apply Hrem. exists i, e. now split_and!.
  - intros a Ha. apply Hin in Ha as [Ha|[_ Ha]]; [right|now left].
    apply Hrem in Ha as (j & e & Hj & Hn & Hd). exists j, e. now split_and!.
  - intros db m a row Ha Hn Hk.
    assert (Hnone : Db.log_tables (db_drop (rem ++ elements
                      ((list_to_set old : gset string)
                       ∖ list_to_set (entry_names updated))) db)
                    !! gui_key m = None).
    { rewrite drop_tables_lookup. rewrite decide_True; [reflexivity|].
      apply list_elem_of_fmap. exists a. split; [now symmetry|now apply Hgone]. }
    split.
    + unfold Db.latest_row. now rewrite Hnone.
    + unfold Db.record. rewrite <- gui_key_log_key, Hnone. eauto.
Qed.

End SettingsTheorems.

(** The heartbeat 1 is raised to 2 and the name is stripped. *)
Lemma settings_saves_loadable_config_witness :
  exists cfg' removed,
    settings_post ascii_only decimal_int cam_1_file page_renamed = Done (cfg', removed)
    /\ raw_heartbeat_seconds cfg' = Some 2
    /\ raw_streams cfg' = Some [sample_entry "cam_1" "rtsp://10.0.0.7/live"]
    /\ raw_timezone cfg' = Some "UTC"%string.
Proof.
  pose (r := match settings_post ascii_only decimal_int cam_1_file page_renamed with
             | Done r => r
             | Raise _ => (cam_1_file, [])
             end).
  assert (H : settings_post ascii_only decimal_int cam_1_file page_renamed
              = Done (r.1, r.2)) by (vm_compute; reflexivity).
  exists r.1, r.2. split; [exact H|]. do 2 (split; [vm_compute; reflexivity|]).
  exact (proj1 (proj2 (settings_saves_loadable_config ascii_only decimal_int
                         cam_1_file r.1 page_renamed r.2 H))).
Defined.

Lemma settings_unchanged_save_witness :
  settings_post ascii_only decimal_int cam_1_file page_as_rendered
  = Done (cam_1_file, []).
Proof.
  apply (settings_unchanged_save ascii_only decimal_int cam_1_file page_as_rendered
           [sample_entry "cam 1" "rtsp://10.0.0.7/live"] 30 "30").
  - reflexivity.
  - reflexivity.
  - lia.
  - constructor; [|constructor].
    exists "cam 1"%string, "rtsp://10.0.0.7/live"%string.
    split_and!; try reflexivity; discriminate.
  - vm_compute. reflexivity.
  - vm_compute. reflexivity.
  - intros [|i] e He; [|discriminate].
    injection He as <-. split_and!; vm_compute; reflexivity.
  - vm_compute. reflexivity.
Defined.

(** "cam 1" is renamed to "cam_1", which has the same table: the purge of
    "cam 1" leaves "cam_1" without its rows. *)
Lemma settings_purge_witness :
  exists cfg' removed,
    settings_post ascii_only decimal_int cam_1_file page_renamed = Done (cfg', removed)
    /\ raw_streams cfg' = Some [sample_entry "cam_1" "rtsp://10.0.0.7/live"]
    /\ Db.latest_row ascii_only ascii_only ascii_only sample_db "cam_1"
       = Some ("fail"%string, 0, "timeout"%string)
    /\ Db.latest_row ascii_only ascii_only ascii_only
         (Db.drop_tables ascii_only ascii_only ascii_only removed sample_db) "cam_1"
       = None.
Proof.
  pose (r := match settings_post ascii_only decimal_int cam_1_file page_renamed with
             | Done r => r
             | Raise _ => (cam_1_file, [])
             end).
  assert (H : settings_post ascii_only decimal_int cam_1_file page_renamed
              = Done (r.1, r.2)) by (vm_compute; reflexivity).
  exists r.1, r.2. split; [exact H|]. do 2 (split; [vm_compute; reflexivity|]).
  refine (proj1 (proj2 (proj2 (proj2 (proj2
            (settings_purge ascii_only ascii_only ascii_only decimal_int
               cam_1_file r.1 page_renamed r.2 H))))
            sample_db "cam_1"%string "cam 1"%string
            ("ok"%string, 0, ""%string) _ _ _)).
  - vm_compute. left.
  - intros Hin. vm_compute in Hin. apply list_elem_of_singleton in Hin. discriminate.
  - vm_compute. reflexivity.
Defined.

(** ** A name listed twice *)

Lemma last_url_None entries n : n ∉ entry_names entries -> last_url entries n = None.
Proof.
  induction entries as [|e rest IH]; [reflexivity|].
  cbn [entry_names omap list_omap last_url]. fold (entry_names rest).
  destruct (entry_name e) as [n0|] eqn:En.
  - intros Hn. apply not_elem_of_cons in Hn as [Hne Hn]. rewrite (IH Hn).
    rewrite decide_False; [reflexivity|congruence].
  - intros Hn. rewrite (IH Hn). rewrite decide_False; [reflexivity|discriminate].
Qed.

Lemma last_url_app pre e post n u :
  entry_name e = Some n -> entry_url e = Some u -> n ∉ entry_names post ->
  last_url (pre ++ e :: post) n = Some u.
Proof.
  intros Hn Hu Hpost. induction pre as [|p pre IH].
  - cbn [app last_url]. rewrite (last_url_None _ _ Hpost).
    now rewrite decide_True.
  - cbn [app last_url]. now rewrite IH.
Qed.

Lemma first_url_app pre e post n u :
  init_db (pre ++ e :: post) = Done tt ->
  entry_name e = Some n -> entry_url e = Some u -> n ∉ entry_names pre ->
  first_url (pre ++ e :: post) n = Done (Some u).
Proof.
  intros Hdb Hn Hu. induction pre as [|p pre IH]; intros Hpre.
  - cbn [app first_url]. rewrite Hn, Hu. now rewrite String.eqb_refl.
  - cbn [app first_url init_db] in Hdb |- *.
    cbn [entry_names omap list_omap] in Hpre. fold (entry_names pre) in Hpre.
    destruct (entry_name p) as [n0|]; [|discriminate].
    destruct (entry_url p); [|discriminate].
    apply not_elem_of_cons in Hpre as [Hne Hpre].
    rewrite (proj2 (String.eqb_neq n0 n)) by congruence. now apply IH.
Qed.

Lemma first_url_None entries n :
  init_db entries = Done tt -> n ∉ entry_names entries ->
  first_url entries n = Done None.
Proof.
  induction entries as [|p rest IH]; intros Hdb Hn; [reflexivity|].
  cbn [first_url init_db] in Hdb |- *.
  cbn [entry_names omap list_omap] in Hn. fold (entry_names rest) in Hn.
  destruct (entry_name p) as [n0|]; [|discriminate].
  destruct (entry_url p); [|discriminate].
  apply not_elem_of_cons in Hn as [Hne Hn].
  rewrite (proj2 (String.eqb_neq n0 n)) by congruence. now apply IH.
Qed.

(** The dictionary [Scheduler.__init__] builds: every name with the object
    made from the last entry of that name. *)
Lemma initial_state_spec entries : forall h st h' st',
  initial_state entries h st = Done (h', st') ->
  (exists ext, h' = h ++ ext)
  /\ forall n,
       match last_url entries n with
       | Some u => exists l, st' !! n = Some l /\ h' !! l = Some (Stream.new n u)
       | None => st' !! n = st !! n
       end.
Proof.
  induction entries as [|e rest IH]; intros h st h' st' H.
  - injection H as <- <-. split; [exists []; now rewrite app_nil_r|].
    intros n. reflexivity.
  - cbn [initial_state] in H.
    destruct (entry_name e) as [n0|] eqn:En; [|discriminate].
    destruct (entry_url e) as [u0|] eqn:Eu; [|discriminate].
    cbn [alloc] in H. destruct (IH _ _ _ _ H) as ((ext & ->) & Hsp).
    split; [exists (Stream.new n0 u0 :: ext); now rewrite <- app_assoc|].
    intros n. specialize (Hsp n). cbn [last_url].
    destruct (last_url rest n) as [u|]; [exact Hsp|].
    case_decide as E.
    + rewrite En in E. injection E as ->. rewrite Eu, Hsp, lookup_insert_eq.
      exists (length h). split; [reflexivity|]. rewrite <- app_assoc.
      rewrite lookup_app_r by lia. now rewrite Nat.sub_diag.
    + rewrite Hsp. apply lookup_insert_ne. congruence.
Qed.

(** X18. A name listed twice. The monitor keeps one object per name, made
    from the last entry of that name: it probes the URL listed last; the
    preview of webgui.py opens the URL of the first entry of that name. A
    name the file does not list has no object and no preview. *)
Theorem duplicate_name_urls (raw : RawConfig) (sys : Sys) (entries : list Entry)
    (n : string) :
  raw_streams raw = Some entries ->
  run_monitor (Done raw) = Done sys ->
  (forall pre e post u,
     entries = pre ++ e :: post ->
     entry_name e = Some n -> entry_url e = Some u ->
     n ∉ entry_names post ->
     exists l, Scheduler.state (sched sys) !! n = Some l
               /\ heap sys !! l = Some (Stream.new n u))
  /\ (forall pre e post u,
        entries = pre ++ e :: post ->
        entry_name e = Some n -> entry_url e = Some u ->
        n ∉ entry_names pre ->
        open_url_for_name raw n = Done (Some u))
  /\ (n ∉ entry_names entries ->
      Scheduler.state (sched sys) !! n = None
      /\ open_url_for_name raw n = Done None).
Proof.
  intros Hraw. unfold run_monitor, Scheduler_init.
  cbn [load_config_with_mqtt_support streams]. rewrite Hraw. cbn [default from_option id].
  intros H. destruct (init_db entries) as [[]|] eqn:Hdb; [|discriminate].
  cbn in H. destruct (initial_state entries [] ∅) as [[h st]|] eqn:Hi; [|discriminate].
  cbn in H. injection H as <-. cbn [heap sched].
  match goal with |- context [rebuild h ?s0] =>
    rewrite (proj1 (proj2 (rebuild_lanes h s0))) end.
  cbn [Scheduler.state]. unfold open_url_for_name. rewrite Hraw.
  destruct (initial_state_spec _ _ _ _ _ Hi) as (_ & Hsp).
  split_and!.
  - intros pre e post u -> Hn Hu Hpost. specialize (Hsp n).
    now rewrite (last_url_app pre e post n u Hn Hu Hpost) in Hsp.
  - intros pre e post u -> Hn Hu Hpre. now apply first_url_app.
  - intros Hn. specialize (Hsp n). rewrite (last_url_None _ _ Hn) in Hsp.
    split; [now rewrite Hsp|now apply first_url_None].
Qed.

Lemma duplicate_name_urls_witness :
  exists sys l,
    run_monitor (Done twice_cam) = Done sys
    /\ Scheduler.state (sched sys) !! "cam"%string = Some l
    /\ heap sys !! l = Some (Stream.new "cam" "http://10.0.0.3/video")
    /\ open_url_for_name twice_cam "cam" = Done (Some "rtsp://10.0.0.1/live"%string).
Proof.
  pose (sys := match run_monitor (Done twice_cam) with
               | Done s => s
               | Raise _ => one_eligible_sys
               end).
  assert (H : run_monitor (Done twice_cam) = Done sys) by (vm_compute; reflexivity).
  destruct (duplicate_name_urls twice_cam sys _ "cam" eq_refl H) as (Hlast & Hfirst & _).
  destruct (Hlast [sample_entry "cam" "rtsp://10.0.0.1/live";
                   sample_entry "door" "http://10.0.0.2/video"]
              (sample_entry "cam" "http://10.0.0.3/video") [] _
              eq_refl eq_refl eq_refl (not_elem_of_nil _)) as (l & Hl & Hs).
  exists sys, l. split_and!; try assumption.
  apply (Hfirst [] (sample_entry "cam" "rtsp://10.0.0.1/live")
           [sample_entry "door" "http://10.0.0.2/video";
            sample_entry "cam" "http://10.0.0.3/video"] _ eq_refl eq_refl eq_refl).
  apply not_elem_of_nil.
Defined.

(** ** Stream names and the other tables *)

(** X19. No stream name reaches another table. Whatever a stream is called,
    the table its rows are written to, read from, and dropped by the purge
    of the settings page is none of the tables [streams], [users],
    [app_settings], [admin_auth] and [sqlite_sequence]. *)
Theorem log_tables_apart (uni_alpha uni_alnum uni_space : N -> bool) (name : string) :
  (Db.log_key uni_alpha uni_alnum uni_space name ∉ Db.ident_key <$> other_tables)
  /\ (Db.gui_key uni_alpha uni_alnum uni_space name ∉ Db.ident_key <$> other_tables).
Proof.
  assert (H : Db.log_key uni_alpha uni_alnum uni_space name
              ∉ (Db.ident_key <$> other_tables)).
  { unfold Db.log_key.
    destruct (tname_log_prefix uni_alpha uni_alnum uni_space (str name)) as [rest ->].
    intros Hin. vm_compute in Hin.
    repeat (apply elem_of_cons in Hin as [Hin|Hin]; [discriminate|]).
    now apply elem_of_nil in Hin. }
  split; [exact H|]. unfold Db.gui_key. rewrite table_name_tname. exact H.
Qed.

(** ** Who can change what *)

Section WebguiFacts.

Variables uni_alpha uni_alnum uni_space : N -> bool.
Variable py_int : string -> io Z.

Local Abbreviation handle' := (handle uni_alpha uni_alnum uni_space py_int).
Local Abbreviation handle_all' := (handle_all uni_alpha uni_alnum uni_space py_int).
Local Abbreviation settings' := (settings uni_alpha uni_alnum uni_space py_int).

Lemma login_iff a form :
  Auth.login a form = true
  <-> form !! "username"%string = Some (Auth.get_admin_creds a).1
      /\ form !! "password"%string = Some (Auth.get_admin_creds a).2.
Proof.
  unfold Auth.login. rewrite andb_true_iff, !bool_decide_eq_true. reflexivity.
Qed.

(** X20. Nothing is saved without a login. From a session that is not
    logged in, whatever requests follow, as long as no login attempt among
    them carries the administrator's user name and password the session
    stays logged out and the configuration file, the log tables and the
    credentials are as before; the time zone setting is not protected in
    this way. *)
Theorem no_change_without_login (reqs : list Request) (app : App) :
  (forall form, PostLogin form ∈ reqs -> Auth.login (app_auth app) form = false) ->
  (handle_all' false app reqs).1 = false
  /\ app_config (handle_all' false app reqs).2 = app_config app
  /\ app_db (handle_all' false app reqs).2 = app_db app
  /\ app_auth (handle_all' false app reqs).2 = app_auth app
  /\ forall form,
       app_timezone (handle' false app (PostSetTimezone form)).2
       = form_field uni_space form "timezone".
Proof.
  intros Hno.
  cut ((handle_all' false app reqs).1 = false
       /\ app_config (handle_all' false app reqs).2 = app_config app
       /\ app_db (handle_all' false app reqs).2 = app_db app
       /\ app_auth (handle_all' false app reqs).2 = app_auth app).
  { intros (H1 & H2 & H3 & H4). now split_and!. }
  revert app Hno. induction reqs as [|req reqs IH]; intros app Hno; [now split_and!|].
  cbn [handle_all].
  assert (Hstep : (handle' false app req).1 = false
                  /\ app_config (handle' false app req).2 = app_config app
                  /\ app_db (handle' false app req).2 = app_db app
                  /\ app_auth (handle' false app req).2 = app_auth app).
  { destruct req as [form| |form|form]; cbn [handle settings negb fst snd];
      try (now split_and!).
    rewrite (Hno form) by left. now split_and!. }
  destruct Hstep as (Hs & Hc & Hd & Ha).
  destruct (handle' false app req) as [s app1]. cbn [fst snd] in *. subst s.
  destruct (IH app1) as (Is & Ic & Id & Ia).
  - intros form Hin. rewrite Ha. apply Hno. now right.
  - split_and!; congruence.
Qed.

Lemma update_single p q :
  Auth.update_admin_password q [("admin"%string, p)] = [("admin"%string, q)].
Proof. reflexivity. Qed.

Lemma handle_auth_single is_admin app req p :
  app_auth app = [("admin"%string, p)] ->
  exists q, app_auth (handle' is_admin app req).2 = [("admin"%string, q)].
Proof.
  intros Ha. destruct req as [form| |form|form]; cbn [handle fst snd];
    try (now exists p).
  unfold settings. destruct (negb is_admin); [now exists p|].
  destruct (settings_post _ _ _ _) as [[cfg removed]|]; [|now exists p].
  cbn [app_auth]. destruct (nonempty _); [|now exists p].
  rewrite Ha. eexists. apply update_single.
Qed.

(** X21. The administrator's password. On an installation that started
    with an empty [admin_auth] table, after any requests the table holds
    the one user "admin"; a login succeeds exactly with that user name and
    the password in effect, which is "admin123" until it is changed; and a
    save of the settings page by the administrator that completes puts the
    new password in effect, stripped of the white space around it, or
    leaves the password as it is when the field is blank. *)
Theorem admin_password_round_trip (reqs : list Request) (is_admin : bool) (app : App) :
  app_auth app = Auth.init_auth [] ->
  (forall login_form,
     Auth.login (app_auth app) login_form = true
     <-> login_form !! "username"%string = Some "admin"%string
         /\ login_form !! "password"%string = Some "admin123"%string)
  /\ exists p,
       app_auth (handle_all' is_admin app reqs).2 = [("admin"%string, p)]
       /\ (forall login_form,
             Auth.login (app_auth (handle_all' is_admin app reqs).2) login_form = true
             <-> login_form !! "username"%string = Some "admin"%string
                 /\ login_form !! "password"%string = Some p)
       /\ forall form cfg removed,
            settings_post uni_space py_int
              (app_config (handle_all' is_admin app reqs).2) form
            = Done (cfg, removed) ->
            app_auth (settings' true (handle_all' is_admin app reqs).2 form)
            = [("admin"%string,
                if nonempty (form_field uni_space form "new_password")
                then form_field uni_space form "new_password" else p)].
Proof.
  intros Ha. split.
  - intros f. rewrite login_iff, Ha. reflexivity.
  - assert (Hsingle : exists p, app_auth (handle_all' is_admin app reqs).2
                                = [("admin"%string, p)]).
    { assert (H0 : exists p, app_auth app = [("admin"%string, p)])
        by (rewrite Ha; now eexists).
      clear Ha. revert is_admin app H0.
      induction reqs as [|req reqs IH]; intros is_admin app [p Hp].
      - now exists p.
      - cbn [handle_all]. apply IH. now apply (handle_auth_single _ _ _ p). }
    destruct Hsingle as [p Hp]. exists p. split_and!.
    + exact Hp.
    + intros f. rewrite login_iff, Hp. reflexivity.
    + intros form cfg removed Hpost. unfold settings. cbn [negb]. rewrite Hpost.
      cbn [app_auth]. rewrite Hp. now destruct (nonempty _).
Qed.

End WebguiFacts.

(** Two wrong logins, a save and a call of [/api/set-timezone] against a
    fresh installation: the file is as it was. *)
Lemma no_change_without_login_witness :
  app_config
    (handle_all ascii_only ascii_only ascii_only decimal_int false fresh_app
       [PostLogin {["username" := "admin"; "password" := "admin"]}%string;
        PostSettings page_renamed;
        PostLogin {["username" := "root"; "password" := "admin123"]}%string;
        PostSetTimezone {["timezone" := "Asia/Kolkata"]}%string]).2
  = cam_1_file.
Proof.
  refine (proj1 (proj2 (no_change_without_login ascii_only ascii_only ascii_only
                          decimal_int _ fresh_app _))).
  intros form Hin.
  repeat (apply elem_of_cons in Hin as [Hin|Hin];
          [first [injection Hin as ->; vm_compute; reflexivity | discriminate]|]).
  now apply elem_of_nil in Hin.
Defined.

(** The administrator logs in with the default password and saves the page
    with a new password typed with a blank after it: the password in effect
    is the text without the blank. *)
Lemma admin_password_round_trip_witness :
  exists p,
    app_auth
      (handle_all ascii_only ascii_only ascii_only decimal_int false fresh_app
         [PostLogin {["username" := "admin"; "password" := "admin123"]}%string;
          PostSettings (<["new_password" := "s3cret "]> page_as_rendered)%string]).2
    = [("admin"%string, p)]
    /\ p = "s3cret"%string.
Proof.
  destruct (proj2 (admin_password_round_trip ascii_only ascii_only ascii_only
                     decimal_int
                     [PostLogin {["username" := "admin"; "password" := "admin123"]}%string;
                      PostSettings (<["new_password" := "s3cret "]> page_as_rendered)%string]
                     false fresh_app eq_refl)) as (p & Hp & _).
  exists p. split; [exact Hp|].
  vm_compute in Hp. now injection Hp as <-.
Defined.

(** ** The export *)

Section ExportFacts.

Variables uni_alpha uni_alnum uni_space : N -> bool.

Local Abbreviation gui_key := (Db.gui_key uni_alpha uni_alnum uni_space).
Local Abbreviation export_rows' := (export_rows uni_alpha uni_alnum uni_space).
Local Abbreviation export_all' := (export_all uni_alpha uni_alnum uni_space).
Local Abbreviation db_record := (Db.record uni_alpha uni_alnum uni_space).

Lemma replace_newlines_none s :
  "010"%char ∉ list_ascii_of_string (replace_newlines s).
Proof.
  induction s as [|c s IH]; cbn [replace_newlines list_ascii_of_string].
  - apply not_elem_of_nil.
  - apply not_elem_of_cons. split; [|exact IH].
    destruct (Ascii.eqb c "010") eqn:E; [discriminate|].
    apply Ascii.eqb_neq in E. congruence.
Qed.

Lemma elem_of_rev {A} (x : A) (l : list A) : x ∈ rev l <-> x ∈ l.
Proof. rewrite !list_elem_of_In. symmetry. apply in_rev. Qed.

Lemma export_rows_spec entries db : forall rows,
  export_rows' entries db = Done rows ->
  rows = mjoin ((fun n => map (export_line n)
                             (rev (default [] (Db.log_tables db !! gui_key n))))
                  <$> entry_names entries)
  /\ length (entry_names entries) = length entries.
Proof.
  induction entries as [|s rest IH]; intros rows H.
  - injection H as <-. now split.
  - cbn [export_rows] in H. cbn [entry_names omap list_omap].
    destruct (entry_name s) as [n|]; [|discriminate].
    destruct (export_rows' rest db) as [rows'|]; [|discriminate].
    cbn in H. injection H as <-. destruct (IH rows' eq_refl) as [-> Hl].
    fold (entry_names rest). split; [reflexivity|]. cbn. now rewrite Hl.
Qed.


End ExportFacts.

